(** * Traffic stop analysis: a shallow embedding of [traffic_stops.py]

    The program is a handful of functions over pandas tables.  The tables,
    the pandas operations the program calls and the program's own functions
    are embedded as executable Rocq definitions; the theorems at the end of
    the file settle the properties stated for them.

    Conventions of the embedding.
    - A cell is a [value]: missing ([NaN]/[None]), a boolean, a number or a
      string.  Integers and finite floats are exact rationals in canonical
      form ([Qc]), so that equality of cells is plain equality.
    - A function that may return [None] returns an [option]; a function
      that may raise returns a [result].
    - A table row maps a column label to its cell; the table carries the
      list of its column labels and, for each categorical column, the
      categories of the column.  Labels are taken to be distinct, as in
      every table the program builds.
    - Of the type of a column the embedding keeps what the results of the
      program depend on: whether the column is categorical, and with which
      categories, since a grouping lists the categories of such a column
      whether they occur in a row or not.  The program makes columns
      categorical (lines 79-80 and 87-88), filters and joins the tables it
      has made, and groups by these columns.  A series taken out of a table
      is the list of its cells, and a column written from a series other
      than a categorical one ([pd.cut], [astype]) is plain. *)

From Stdlib Require Import String.
From Stdlib Require Import List Bool Arith ZArith QArith Qcanon Lia.
From Stdlib Require Import Permutation Sorted.
Import ListNotations.

Local Close Scope Qc_scope.
Local Open Scope string_scope.
Local Open Scope list_scope.

(** ** Cells *)

Inductive value : Type :=
| VNull
| VBool (b : bool)
| VNum (q : Qc)
| VStr (s : string).

Definition value_eq_dec (a b : value) : {a = b} + {a <> b}.
Proof.
  decide equality; [apply bool_dec | apply Qc_eq_dec | apply string_dec].
Defined.

Definition value_eqb (a b : value) : bool :=
  if value_eq_dec a b then true else false.

Definition key_eq_dec (a b : list value) : {a = b} + {a <> b} :=
  list_eq_dec value_eq_dec a b.

Definition is_null (v : value) : bool :=
  match v with VNull => true | _ => false end.

Definition num (z : Z) : value := VNum (Q2Qc (inject_Z z)).

(** Python's [bool] is a subclass of [int]: in arithmetic and in order
    comparisons [True] is 1 and [False] is 0. *)
Definition as_number (v : value) : option Qc :=
  match v with
  | VNum q => Some q
  | VBool true => Some (Q2Qc 1)
  | VBool false => Some (Q2Qc 0)
  | _ => None
  end.

(** ** Exceptions and results *)

Inductive exn : Type :=
| KeyError | ValueError | TypeError | AttributeError | IndexError.

Inductive result (A : Type) : Type :=
| Ok (a : A)
| Raise (e : exn).
Arguments Ok {A} a.
Arguments Raise {A} e.

Definition bind {A B : Type} (c : result A) (k : A -> result B) : result B :=
  match c with
  | Ok a => k a
  | Raise e => Raise e
  end.

Notation "x <- c ;; k" := (bind c (fun x => k))
  (at level 61, c at next level, right associativity).

Fixpoint mapM {A B : Type} (f : A -> result B) (l : list A) : result (list B) :=
  match l with
  | [] => Ok []
  | a :: l' => b <- f a ;; bs <- mapM f l' ;; Ok (b :: bs)
  end.

(** ** Constants of the program *)

Definition IS_ARRESTED := "is_arrested".
Definition STOP_OUTCOME := "stop_outcome".
Definition SEARCH_TYPE := "search_type".
Definition SEARCH_CONDUCTED := "search_conducted".
Definition AGE_CAT := "age_category".
Definition OFFICER_ID := "officer_id".
Definition STOP_ID := "stop_id".
Definition DRIVER_AGE := "driver_age".
Definition DRIVER_RACE := "driver_race".
Definition DRIVER_GENDER := "driver_gender".
Definition VIOLATION := "violation".

Definition AGE_BINS : list Qc :=
  map (fun z => Q2Qc (inject_Z z)) [0; 21; 36; 50; 65; 100]%Z.
Definition AGE_LABELS : list string :=
  ["juvenile"; "young_adult"; "adult"; "middle_aged"; "senior"].

Definition SEARCHING_TYPES : list value :=
  [VStr "Probable Cause"; VStr "Incident to Arrest"].

(** ** Tables *)

Definition Series := list value.
Definition row := string -> value.

(** The categories of the categorical columns; [None] for a plain
    column. *)
Definition dtypes := string -> option (list value).

Record DataFrame : Type := mkDF {
  columns : list string;
  rows : list row;
  categories : dtypes
}.

(** No column is categorical. *)
Definition plain : dtypes := fun _ => None.

Definition set_dtype (d : dtypes) (key : string) (dtype : option (list value))
  : dtypes :=
  fun c => if String.eqb c key then dtype else d c.

Definition is_categorical (df : DataFrame) (key : string) : bool :=
  match categories df key with
  | Some _ => true
  | None => false
  end.

(** [key in df.columns] *)
Definition has_column (df : DataFrame) (key : string) : bool :=
  existsb (String.eqb key) (columns df).

(** [df[key]] for a column label. *)
Definition getitem (df : DataFrame) (key : string) : result Series :=
  if has_column df key then Ok (map (fun r : row => r key) (rows df))
  else Raise KeyError.

Definition set_cell (r : row) (key : string) (v : value) : row :=
  fun c => if String.eqb c key then v else r c.

Fixpoint set_cells (rs : list row) (key : string) (s : Series) : list row :=
  match rs, s with
  | r :: rs', v :: s' => set_cell r key v :: set_cells rs' key s'
  | _, _ => []
  end.

(** [df[key] = s] for a series [s] of the given type: an existing column
    is overwritten in place, a new one is appended, and the column takes
    the type of the series; a series of the wrong length is refused. *)
Definition setitem_as (df : DataFrame) (key : string) (s : Series)
  (dtype : option (list value)) : result DataFrame :=
  if negb (length s =? length (rows df))%nat then Raise ValueError
  else Ok (mkDF (if has_column df key then columns df else columns df ++ [key])
                (set_cells (rows df) key s)
                (set_dtype (categories df) key dtype)).

(** [df[key] = s] for a plain series or array [s], as [np.where] and
    [fillna] on a column read from a file give them. *)
Definition setitem (df : DataFrame) (key : string) (s : Series) : result DataFrame :=
  setitem_as df key s None.

(** [l[mask]] for a boolean mask aligned with [l]. *)
Fixpoint select {A : Type} (mask : list bool) (l : list A) : list A :=
  match mask, l with
  | m :: mask', a :: l' => if m then a :: select mask' l' else select mask' l'
  | _, _ => []
  end.

(** [df[mask]]: the rows are selected, the columns keep their types, a
    categorical column all its categories. *)
Definition getitem_mask (df : DataFrame) (mask : list bool) : DataFrame :=
  mkDF (columns df) (select mask (rows df)) (categories df).

(** ** Series operations *)

(** [s.isin(values)]; a missing cell is a member when a missing value is
    listed. *)
Definition isin (s : Series) (values : list value) : list bool :=
  map (fun v => existsb (value_eqb v) values) s.

(** [s.fillna(v)] *)
Definition fillna (s : Series) (v : value) : Series :=
  map (fun x => if is_null x then v else x) s.

(** [np.where(mask, a, b)] for scalars [a] and [b]. *)
Definition np_where (mask : list bool) (a b : value) : Series :=
  map (fun m : bool => if m then a else b) mask.

(** Python's [a <= b] on two scalars: numbers (and booleans) compare by
    value, strings lexicographically, a comparison with [NaN] is false, and
    a string against a non-string raises [TypeError]. *)
Definition py_le (a b : value) : result bool :=
  match a, b with
  | VStr s, VStr t => Ok (String.leb s t)
  | VStr _, _ => Raise TypeError
  | _, VStr _ => Raise TypeError
  | _, _ =>
      match as_number a, as_number b with
      | Some p, Some q => Ok (Qle_bool p q)
      | _, _ => Ok false
      end
  end.

(** One cell of [s.between(left, right)], which pandas computes as
    [(s >= left) & (s <= right)]; a missing cell compares false. *)
Definition between_cell (left right x : value) : result bool :=
  if is_null x then Ok false
  else a <- py_le left x ;; b <- py_le x right ;; Ok (a && b).

Definition between (s : Series) (left right : value) : result (list bool) :=
  mapM (between_cell left right) s.

(** ** [pd.cut] *)

Definition Qc_ltb (a b : Qc) : bool := negb (Qle_bool b a).

(** [bins.searchsorted(x, side="left")] on increasing [bins]: the position
    of the first bin edge that is not below [x]. *)
Fixpoint searchsorted_left (bins : list Qc) (x : Qc) : nat :=
  match bins with
  | [] => 0
  | b :: bins' => if Qc_ltb b x then S (searchsorted_left bins' x) else 0
  end.

Fixpoint increasing (bins : list Qc) : bool :=
  match bins with
  | a :: ((b :: _) as bins') => Qc_ltb a b && increasing bins'
  | _ => true
  end.

(** One cell of [pd.cut(x, bins, labels)] with pandas' defaults
    [right=True, include_lowest=False]: the bin index is the insertion
    point of the cell among the edges, and a cell left of or on the first
    edge, right of the last edge, or missing, has no category. *)
Definition cut_cell (bins : list Qc) (labels : list string) (x : value)
  : result value :=
  match x with
  | VNull => Ok VNull
  | VNum q =>
      let id := searchsorted_left bins q in
      if (id =? 0)%nat || (id =? length bins)%nat then Ok VNull
      else Ok (nth (id - 1) (map VStr labels) VNull)
  | _ => Raise TypeError
  end.

Definition cut (x : Series) (bins : list Qc) (labels : list string)
  : result Series :=
  if negb (increasing bins) then Raise ValueError
  else if negb (length labels =? length bins - 1)%nat then Raise ValueError
  else mapM (cut_cell bins labels) x.

(** ** [read_and_process_allstops]: the age category (lines 79-80)

    [df[AGE_CAT] = pd.cut(x = df[DRIVER_AGE], bins = AGE_BINS,
                          labels = AGE_LABELS)]

    [pd.cut] returns a categorical series: its categories are the labels,
    in the order of the bins, whether a label is given to a row or not. *)
Definition add_age_category (df : DataFrame) : result DataFrame :=
  ages <- getitem df DRIVER_AGE ;;
  cats <- cut ages AGE_BINS AGE_LABELS ;;
  setitem_as df AGE_CAT cats (Some (map VStr AGE_LABELS)).

(** The category that [add_age_category] gives to one driver age. *)
Definition age_category (age : value) : result value :=
  cut_cell AGE_BINS AGE_LABELS age.

(** ** Task 2: filters *)

(** [apply_val_filters(df, filter_info)]; [filter_info] is a dictionary,
    walked in insertion order. *)
Fixpoint apply_val_filters (df : DataFrame) (filter_info : list (string * list value))
  : result (option DataFrame) :=
  match filter_info with
  | [] => Ok (Some df)
  | (key, value) :: filter_info' =>
      if negb (has_column df key) then Ok None
      else
        s <- getitem df key ;;
        apply_val_filters (getitem_mask df (isin s value)) filter_info'
  end.

(** [value[i]] on a Python list. *)
Definition py_index (l : list value) (i : nat) : result value :=
  match nth_error l i with
  | Some v => Ok v
  | None => Raise IndexError
  end.

(** [apply_range_filters(df, filter_info)] *)
Fixpoint apply_range_filters (df : DataFrame) (filter_info : list (string * list value))
  : result (option DataFrame) :=
  match filter_info with
  | [] => Ok (Some df)
  | (key, value) :: filter_info' =>
      if negb (has_column df key) then Ok None
      else
        s <- getitem df key ;;
        low <- py_index value 0 ;;
        high <- py_index value 1 ;;
        mask <- between s low high ;;
        apply_range_filters (getitem_mask df mask) filter_info'
  end.

(** ** Grouping *)

(** The order in which pandas lists group keys and pivoted labels:
    missing first, then numbers (booleans among them), then strings. *)
Definition value_leb (a b : value) : bool :=
  match a, b with
  | VNull, _ => true
  | _, VNull => false
  | VStr s, VStr t => String.leb s t
  | VStr _, _ => false
  | _, VStr _ => true
  | _, _ =>
      match as_number a, as_number b with
      | Some p, Some q => Qle_bool p q
      | _, _ => true
      end
  end.

Fixpoint key_leb (a b : list value) : bool :=
  match a, b with
  | [], _ => true
  | _ :: _, [] => false
  | x :: a', y :: b' => if value_eqb x y then key_leb a' b' else value_leb x y
  end.

Section Sorting.
Context {A : Type} (leb : A -> A -> bool).

Fixpoint insert_sorted (a : A) (l : list A) : list A :=
  match l with
  | [] => [a]
  | b :: l' => if leb a b then a :: l else b :: insert_sorted a l'
  end.

Fixpoint isort (l : list A) : list A :=
  match l with
  | [] => []
  | a :: l' => insert_sorted a (isort l')
  end.
End Sorting.

Definition key_of (keys : list string) (r : row) : list value := map r keys.

Definition has_null (k : list value) : bool := existsb is_null k.

(** The keys of the rows that take part in [df.groupby(keys)]: a row with
    a missing key cell is left out. *)
Definition group_keys (df : DataFrame) (keys : list string) : list (list value) :=
  filter (fun k => negb (has_null k)) (map (key_of keys) (rows df)).

(** The values that occur in a series, ascending, each once. *)
Definition occurring (s : Series) : list value :=
  isort value_leb (nodup value_eq_dec (filter (fun v => negb (is_null v)) s)).

(** The elements of a list, each once, in the order of their first
    occurrence. *)
Fixpoint distinct (l : list value) : list value :=
  match l with
  | [] => []
  | v :: l' => v :: filter (fun w => negb (value_eqb v w)) (distinct l')
  end.

(** The values a grouping lists for a key column: for a plain column the
    values that occur in it, ascending; for a categorical column its
    categories, in their order, whether they occur or not ([observed=False],
    the default of [groupby]).  pandas keeps the categories of a column
    distinct and not missing, and the cells of the column among them; a
    table that does not is read in the same way: a repeated or missing
    category is passed over, and a cell outside the categories is listed
    after them. *)
Definition level (df : DataFrame) (key : string) : list value :=
  let seen := occurring (map (fun r : row => r key) (rows df)) in
  match categories df key with
  | Some cats => distinct (filter (fun v => negb (is_null v)) cats ++ seen)
  | None => seen
  end.

(** All combinations of one value per level, in the order of the levels. *)
Fixpoint product (levels : list (list value)) : list (list value) :=
  match levels with
  | [] => [[]]
  | l :: levels' => flat_map (fun v => map (cons v) (product levels')) l
  end.

(** The keys that [df.groupby(keys)] lists, in their order.  With plain
    key columns these are the combinations that occur in a row; as soon as
    one key column is categorical they are all the combinations of the
    levels, those that occur in no row included. *)
Definition group_index (df : DataFrame) (keys : list string) : list (list value) :=
  let all := product (map (level df) keys) in
  if existsb (is_categorical df) keys then all
  else filter (fun k => if in_dec key_eq_dec k (group_keys df keys) then true else false)
              all.

(** A series indexed by group keys: the levels of the index, and the
    entries in the order of the index. *)
Record Indexed (B : Type) : Type := mkIndexed {
  levels : list (list value);
  entries : list (list value * B)
}.
Arguments mkIndexed {B} levels entries.
Arguments levels {B} i.
Arguments entries {B} i.

Fixpoint lookup {B : Type} (k : list value) (s : list (list value * B)) : option B :=
  match s with
  | [] => None
  | (k', b) :: s' => if key_eq_dec k k' then Some b else lookup k s'
  end.

(** The sizes of the groups: one entry per listed key, 0 for a key that
    occurs in no row. *)
Definition group_sizes (df : DataFrame) (keys : list string) : Indexed nat :=
  let ks := group_keys df keys in
  mkIndexed (map (level df) keys)
    (map (fun k => (k, count_occ key_eq_dec ks k)) (group_index df keys)).

(** [df.groupby(keys).size()] *)
Definition groupby_size (df : DataFrame) (keys : list string)
  : result (Indexed nat) :=
  match keys with
  | [] => Raise ValueError
  | _ =>
      if forallb (has_column df) keys then Ok (group_sizes df keys)
      else Raise KeyError
  end.

(** ** Floats

    A float result is an exact rational, or [NaN]. *)
Definition float := option Q.

Definition Qsum (l : list Q) : Q := fold_right Qplus 0%Q l.

Definition Q_of_nat (n : nat) : Q := inject_Z (Z.of_nat n).

(** The numeric cells of a series, missing cells skipped, as pandas'
    reductions see them. *)
Fixpoint numbers (s : Series) : result (list Q) :=
  match s with
  | [] => Ok []
  | VNull :: s' => numbers s'
  | v :: s' =>
      match as_number v with
      | Some q => qs <- numbers s' ;; Ok (this q :: qs)
      | None => Raise TypeError
      end
  end.

Definition mean (l : list Q) : float :=
  match l with
  | [] => None
  | _ => Some (Qsum l / Q_of_nat (length l))%Q
  end.

Definition median (l : list Q) : float :=
  let s := isort Qle_bool l in
  let n := length s in
  match n with
  | O => None
  | _ =>
      if Nat.even n
      then Some ((nth (n / 2 - 1)%nat s 0 + nth (n / 2)%nat s 0) / 2)%Q
      else Some (nth (n / 2) s 0%Q)
  end.

Definition float_sub (a b : float) : float :=
  match a, b with
  | Some x, Some y => Some (x - y)%Q
  | _, _ => None
  end.

(** ** Task 3: summary statistics *)

Record agg_row : Type := mkAgg {
  agg_key : list value;
  agg_median : float;
  agg_mean : float;
  mean_diff : float
}.

(** [get_summary_statistics(df, group_col_list, summary_col)] *)
Definition get_summary_statistics (df : DataFrame) (group_col_list : list string)
  (summary_col : string) : result (option (list agg_row)) :=
  if (length group_col_list =? 0)%nat then Ok None
  else if negb (forallb (has_column df) group_col_list) then Ok None
  else
    s <- getitem df summary_col ;;
    all <- numbers s ;;
    let global_mean := mean all in
    sizes <- groupby_size df group_col_list ;;
    df_agg <- mapM (fun k =>
                 g <- numbers (map (fun r : row => r summary_col)
                         (filter (fun r : row => if key_eq_dec (key_of group_col_list r) k
                                           then true else false) (rows df))) ;;
                 Ok (k, (median g, mean g))) (map fst (entries sizes)) ;;
    Ok (Some (map (fun e => mkAgg (fst e) (fst (snd e)) (snd (snd e))
                                  (float_sub (snd (snd e)) global_mean)) df_agg)).

(** ** Task 4: rates *)

(** A pivoted table: rows labelled by group keys, columns labelled by
    values, float cells. *)
Record Frame : Type := mkFrame {
  fcolumns : list value;
  frows : list (list value * (value -> float))
}.

(** The quotient of two counts, as floats: [0 / 0] is [NaN].  (A positive
    count over 0 would be [inf]; where the program divides, a count is at
    most the count it is divided by, so that there is no such quotient to
    represent.)  The quotient is kept in lowest terms. *)
Definition div_counts (n d : nat) : float :=
  if (d =? 0)%nat then None else Some (Qred (Q_of_nat n / Q_of_nat d)).

(** [num / den] for a series keyed by [cat_col + [outcome_col]] and one
    keyed by [cat_col]: each entry is divided by the entry of its group,
    and is [NaN] when the group has no entry. *)
Definition div_sizes (num den : Indexed nat) : Indexed float :=
  mkIndexed (levels num)
    (map (fun e =>
            (fst e,
             match lookup (removelast (fst e)) (entries den) with
             | Some d => div_counts (snd e) d
             | None => None
             end)) (entries num)).

(** [s.unstack()]: the last key level becomes the columns, the other
    levels stay as the index, both in the order of their levels; a
    combination without an entry is [NaN]. *)
Definition unstack (s : Indexed float) : Frame :=
  let idx :=
    filter (fun g => existsb (fun e => if key_eq_dec (removelast (fst e)) g
                                       then true else false) (entries s))
           (product (removelast (levels s))) in
  let cols :=
    filter (fun o => existsb (fun e => value_eqb (last (fst e) VNull) o) (entries s))
           (last (levels s) []) in
  mkFrame cols
    (map (fun g => (g, fun o => match lookup (g ++ [o]) (entries s) with
                                | Some x => x
                                | None => None
                                end)) idx).

(** [f.fillna(v)] *)
Definition frame_fillna (f : Frame) (v : Q) : Frame :=
  mkFrame (fcolumns f)
    (map (fun r => (fst r, fun o => match snd r o with
                                    | None => Some v
                                    | x => x
                                    end)) (frows f)).

(** [get_rates(df, cat_col, outcome_col)] *)
Definition get_rates (df : DataFrame) (cat_col : list string) (outcome_col : string)
  : result (option Frame) :=
  if existsb (fun i => negb (has_column df i) || negb (has_column df outcome_col)) cat_col
  then Ok None
  else
    counts_per_group <- groupby_size df cat_col ;;
    let groups := cat_col ++ [outcome_col] in
    outcome_per_group <- groupby_size df groups ;;
    let pct_per_group := div_sizes outcome_per_group counts_per_group in
    let pct_per_group_df := unstack pct_per_group in
    let pct_per_group_df := frame_fillna pct_per_group_df 0%Q in
    Ok (Some pct_per_group_df).

(** ** Task 5: search share *)

(** The label a column gets in a merge: [suffix] is added when the label
    also occurs among the columns of the other side. *)
Definition suffixed (others : list string) (suffix c : string) : string :=
  if existsb (String.eqb c) others then String.append c suffix else c.

(** The row of a merge made of the left row [l] and the matching right row
    [r], if any: each label of the result reads the column it comes from. *)
Definition joined_row (lcols rcols : list string) (l : row) (r : option row) : row :=
  fun c =>
    match find (fun c0 => String.eqb (suffixed rcols "_x" c0) c) lcols with
    | Some c0 => l c0
    | None =>
        match find (fun c0 => String.eqb (suffixed lcols "_y" c0) c) rcols, r with
        | Some c0, Some r => r c0
        | _, _ => VNull
        end
    end.

(** The types of the columns of a merge: each column keeps the type it
    has on its side; the key column stays categorical only when it has the
    same categories on both sides. *)
Definition joined_dtypes (left right : DataFrame) (on : string) : dtypes :=
  let lcols := columns left in
  let rcols := filter (fun c => negb (String.eqb c on)) (columns right) in
  fun c =>
    if String.eqb c on then
      match categories left on, categories right on with
      | Some a, Some b => if key_eq_dec a b then Some a else None
      | _, _ => None
      end
    else
      match find (fun c0 => String.eqb (suffixed rcols "_x" c0) c) lcols with
      | Some c0 => categories left c0
      | None =>
          match find (fun c0 => String.eqb (suffixed lcols "_y" c0) c) rcols with
          | Some c0 => categories right c0
          | None => None
          end
      end.

(** [pd.merge(left, right, on=on, how='left')]: every left row once per
    right row with an equal key, or once with missing right cells when
    there is none; a label other than the key that occurs on both sides
    gets the suffix [_x] on the left and [_y] on the right. *)
Definition merge_left (left right : DataFrame) (on : string) : result DataFrame :=
  if has_column left on && has_column right on then
    let lcols := columns left in
    let rcols := filter (fun c => negb (String.eqb c on)) (columns right) in
    Ok (mkDF (map (suffixed rcols "_x") lcols ++ map (suffixed lcols "_y") rcols)
          (flat_map
             (fun l : row =>
                match filter (fun r : row => value_eqb (l on) (r on)) (rows right) with
                | [] => [joined_row lcols rcols l None]
                | matches => map (fun r : row => joined_row lcols rcols l (Some r)) matches
                end) (rows left))
          (joined_dtypes left right on))
  else Raise KeyError.

(** Lines 233-237: the search-conducted column of the joined table. *)
Definition derive_search_conducted (merged_df : DataFrame) : result DataFrame :=
  if has_column merged_df SEARCH_CONDUCTED then
    s <- getitem merged_df SEARCH_CONDUCTED ;;
    setitem merged_df SEARCH_CONDUCTED (fillna s (VBool false))
  else
    s <- getitem merged_df SEARCH_TYPE ;;
    setitem merged_df SEARCH_CONDUCTED
      (np_where (isin s SEARCHING_TYPES) (VBool true) (VBool false)).

(** [s[mask]] for the mask [p] gives of the entries of [s]. *)
Definition getitem_where {B : Type} (p : B -> bool) (s : Indexed B) : Indexed B :=
  mkIndexed (levels s) (filter (fun e => p (snd e)) (entries s)).

(** The labels of a series grouped by a single key. *)
Definition index_values {B : Type} (s : Indexed B) : list value :=
  map (fun e => hd VNull (fst e)) (entries s).

(** Lines 239-246: the rows of the officers with at least [M_stops] rows,
    or [None] when there is no such officer. *)
Definition retain_officers (merged_df : DataFrame) (M_stops : Z)
  : result (option DataFrame) :=
  officer_count <- groupby_size merged_df [OFFICER_ID] ;;
  let officer_count :=
    getitem_where (fun n => (M_stops <=? Z.of_nat n)%Z) officer_count in
  if (length (entries officer_count) =? 0)%nat then Ok None
  else
    let index := index_values officer_count in
    ids <- getitem merged_df OFFICER_ID ;;
    Ok (Some (getitem_mask merged_df (isin ids index))).

(** [label in f.columns] *)
Definition frame_has_column (f : Frame) (label : value) : bool :=
  existsb (value_eqb label) (fcolumns f).

(** [f[label] = v] for a scalar [v]. *)
Definition frame_setitem (f : Frame) (label : value) (v : Q) : Frame :=
  mkFrame (if frame_has_column f label then fcolumns f else fcolumns f ++ [label])
    (map (fun r => (fst r, fun o => if value_eqb o label then Some v else snd r o))
         (frows f)).

(** Ascending order of floats, [NaN] last. *)
Definition float_leb (a b : float) : bool :=
  match a, b with
  | Some x, Some y => Qle_bool x y
  | _, None => true
  | None, Some _ => false
  end.

(** [f.sort_values(by=label)] *)
Definition sort_values (f : Frame) (label : value) : result Frame :=
  if frame_has_column f label then
    Ok (mkFrame (fcolumns f)
          (isort (fun r1 r2 => float_leb (snd r1 label) (snd r2 label)) (frows f)))
  else Raise KeyError.

(** Lines 249-255: both outcome columns, then the ranking.  [new_df] is
    what [get_rates] returned; reading [.shape] of [None] raises. *)
Definition rank_by_search_share (new_df : option Frame) : result Frame :=
  match new_df with
  | None => Raise AttributeError
  | Some new_df =>
      let new_df :=
        if (length (fcolumns new_df) =? 1)%nat then
          if frame_has_column new_df (VBool false)
          then frame_setitem new_df (VBool true) 0%Q
          else frame_setitem new_df (VBool false) 0%Q
        else new_df in
      sort_values new_df (VBool true)
  end.

(** [compute_search_share(stops_df, searches_df, cat_col, M_stops)] *)
Definition compute_search_share (stops_df searches_df : DataFrame)
  (cat_col : list string) (M_stops : Z) : result (option Frame) :=
  merged_df <- merge_left stops_df searches_df STOP_ID ;;
  merged_df <- derive_search_conducted merged_df ;;
  retained <- retain_officers merged_df M_stops ;;
  match retained with
  | None => Ok None
  | Some merged_df =>
      new_df <- get_rates merged_df cat_col SEARCH_CONDUCTED ;;
      sorted_df <- rank_by_search_share new_df ;;
      Ok (Some sorted_df)
  end.

(** ** Task 1a: the derived columns of the stops (lines 74-90)

    The table is taken as it stands after line 72, with the year and the
    month of the stop in columns of their own; reading the file and
    parsing the dates are outside the embedding. *)

Definition MONTH_COL := "stop_month".
Definition STOP_SEASON := "stop_season".
Definition ARREST_CITATION := "arrest_or_citation".

Definition SEASONS_MONTHS : list (string * list value) :=
  [("winter", [num 12; num 1; num 2]);
   ("spring", [num 3; num 4; num 5]);
   ("summer", [num 6; num 7; num 8]);
   ("fall", [num 9; num 10; num 11])].

Definition NA_DICT : list (string * value) :=
  [("drugs_related_stop", VBool false); ("search_basis", VStr "UNKNOWN")].

Definition SUCCESS_STOPS : list value := [VStr "Arrest"; VStr "Citation"].

Definition CATEGORICAL_COLS : list string :=
  [AGE_CAT; DRIVER_GENDER; DRIVER_RACE; STOP_SEASON; STOP_OUTCOME; VIOLATION].

(** [np.where(mask, a, s)] for a scalar [a] and a series [s]. *)
Fixpoint np_where_series (mask : list bool) (a : value) (s : Series) : Series :=
  match mask, s with
  | m :: mask', v :: s' => (if m then a else v) :: np_where_series mask' a s'
  | _, _ => []
  end.

(** [df[key] = v] for a scalar [v]. *)
Definition setitem_scalar (df : DataFrame) (key : string) (v : value)
  : result DataFrame :=
  setitem df key (repeat v (length (rows df))).

(** Lines 75-77: one season after the other overwrites the rows of its
    months. *)
Fixpoint season_loop (df : DataFrame) (items : list (string * list value))
  : result DataFrame :=
  match items with
  | [] => Ok df
  | (key, value) :: items' =>
      months <- getitem df MONTH_COL ;;
      current <- getitem df STOP_SEASON ;;
      df <- setitem df STOP_SEASON (np_where_series (isin months value) (VStr key) current) ;;
      season_loop df items'
  end.

(** Lines 74-77 *)
Definition add_stop_season (df : DataFrame) : result DataFrame :=
  df <- setitem_scalar df STOP_SEASON (VStr "default") ;;
  season_loop df SEASONS_MONTHS.

(** Lines 82-83 *)
Definition add_arrest_or_citation (df : DataFrame) : result DataFrame :=
  s <- getitem df STOP_OUTCOME ;;
  setitem df ARREST_CITATION (np_where (isin s SUCCESS_STOPS) (VBool true) (VBool false)).

(** Line 85 *)
Definition fill_officer_id (df : DataFrame) : result DataFrame :=
  s <- getitem df OFFICER_ID ;;
  setitem df OFFICER_ID (fillna s (VStr "UNKNOWN")).

(** The categories of [s.astype('category')]: those the series has when
    it is categorical already, and else the values that occur in it,
    ascending. *)
Definition astype_category (dtype : option (list value)) (s : Series) : list value :=
  match dtype with
  | Some cats => cats
  | None => occurring s
  end.

(** Lines 87-88: [df[i] = df[i].astype('category')].  The cells stay as
    they are, and the column becomes categorical. *)
Fixpoint mark_categorical (df : DataFrame) (cols : list string) : result DataFrame :=
  match cols with
  | [] => Ok df
  | i :: cols' =>
      s <- getitem df i ;;
      df <- setitem_as df i s (Some (astype_category (categories df i) s)) ;;
      mark_categorical df cols'
  end.

(** Lines 74-90 of [read_and_process_allstops]. *)
Definition derive_stop_columns (df : DataFrame) : result DataFrame :=
  df <- add_stop_season df ;;
  df <- add_age_category df ;;
  df <- add_arrest_or_citation df ;;
  df <- fill_officer_id df ;;
  mark_categorical df CATEGORICAL_COLS.

(** ** Task 1b: the searches

    A path is modelled by what it leads to: nothing when the file does not
    exist, the table [pd.read_csv] returns otherwise. *)

(** Lines 115-116 *)
Fixpoint fill_loop (df : DataFrame) (fill_na_dict : list (string * value))
  : result DataFrame :=
  match fill_na_dict with
  | [] => Ok df
  | (key, v) :: rest =>
      s <- getitem df key ;;
      df <- setitem df key (fillna s v) ;;
      fill_loop df rest
  end.

(** [read_and_process_searches(csv_file, fill_na_dict)] *)
Definition read_and_process_searches (csv_file : option DataFrame)
  (fill_na_dict : option (list (string * value))) : result (option DataFrame) :=
  let fill_na_dict :=
    match fill_na_dict with
    | None => NA_DICT
    | Some d => d
    end in
  match csv_file with
  | None => Ok None
  | Some df => df <- fill_loop df fill_na_dict ;; Ok (Some df)
  end.

(** ** Reference predicates

    The definitions below are not part of the program: they spell out the
    properties the theorems compare the program with. *)

(** A row given by its cells, for concrete tables. *)
Fixpoint row_of (l : list (string * value)) : row :=
  match l with
  | [] => fun _ => VNull
  | (c, v) :: l' => fun k => if String.eqb k c then v else row_of l' k
  end.

(** The age category by right-closed bins (0,21], (21,36], (36,50],
    (50,65], (65,100]; no category outside (0,100] or for a missing age. *)
Definition right_closed_bin (age : value) : value :=
  match age with
  | VNum q =>
      if Qle_bool q 0 then VNull
      else if Qle_bool q 21 then VStr "juvenile"
      else if Qle_bool q 36 then VStr "young_adult"
      else if Qle_bool q 50 then VStr "adult"
      else if Qle_bool q 65 then VStr "middle_aged"
      else if Qle_bool q 100 then VStr "senior"
      else VNull
  | _ => VNull
  end.

Definition is_age (v : value) : bool :=
  match v with VNull | VNum _ => true | _ => false end.

(** [a <= b] holds: between two numbers or between two strings. *)
Definition le_holds (a b : value) : bool :=
  match a, b with
  | VStr s, VStr t => String.leb s t
  | _, _ =>
      match as_number a, as_number b with
      | Some p, Some q => Qle_bool p q
      | _, _ => false
      end
  end.

(** The row passes one value filter. *)
Definition passes_val (r : row) (entry : string * list value) : bool :=
  existsb (value_eqb (r (fst entry))) (snd entry).

(** The row passes one range filter: [low <= r[key] <= high]. *)
Definition passes_range (r : row) (entry : string * list value) : bool :=
  match snd entry with
  | low :: high :: _ =>
      negb (is_null (r (fst entry)))
      && le_holds low (r (fst entry)) && le_holds (r (fst entry)) high
  | _ => false
  end.

(** Python can order the two values: both strings, or neither. *)
Definition orderable (a b : value) : bool :=
  match a, b with
  | VStr _, VStr _ => true
  | VStr _, _ => false
  | _, VStr _ => false
  | _, _ => true
  end.

(** The range filter has two bounds, and each cell of its column can be
    ordered against them. *)
Definition range_comparable (df : DataFrame) (entry : string * list value) : bool :=
  match snd entry with
  | low :: high :: _ =>
      forallb (fun r : row => is_null (r (fst entry))
                 || (orderable low (r (fst entry)) && orderable (r (fst entry)) high))
              (rows df)
  | _ => false
  end.



(** The sum of a list of floats; [NaN] is absorbing. *)
Fixpoint float_sum (l : list float) : float :=
  match l with
  | [] => Some 0%Q
  | x :: l' =>
      match x, float_sum l' with
      | Some a, Some b => Some (a + b)%Q
      | _, _ => None
      end
  end.

(** The cells of a pivoted row, in column order. *)
Definition cells_of (f : Frame) (r : list value * (value -> float)) : list float :=
  map (snd r) (fcolumns f).

(** No cell of the column is missing. *)
Definition no_missing (df : DataFrame) (key : string) : Prop :=
  Forall (fun r : row => r key <> VNull) (rows df).

(** The number of rows whose [keys] cells are [k]. *)
Definition count_rows (df : DataFrame) (keys : list string) (k : list value) : nat :=
  count_occ key_eq_dec (map (key_of keys) (rows df)) k.

(** The table [get_rates] builds once its column checks have passed. *)
Definition rates_frame (df : DataFrame) (cat_col : list string) (outcome_col : string)
  : Frame :=
  frame_fillna
    (unstack (div_sizes (group_sizes df (cat_col ++ [outcome_col]))
                        (group_sizes df cat_col))) 0%Q.

(** ** Concrete tables *)

Definition ages_table : DataFrame :=
  mkDF [DRIVER_AGE]
    [row_of [(DRIVER_AGE, num 21)]; row_of [(DRIVER_AGE, num 36)];
     row_of [(DRIVER_AGE, num 0)]; row_of [(DRIVER_AGE, num 100)];
     row_of [(DRIVER_AGE, VNull)]]
    plain.


Definition outcomes_table : DataFrame :=
  mkDF [OFFICER_ID; DRIVER_RACE; STOP_OUTCOME]
    [row_of [(OFFICER_ID, VStr "O1"); (DRIVER_RACE, VStr "White");
             (STOP_OUTCOME, VStr "Citation")];
     row_of [(OFFICER_ID, VStr "O1"); (DRIVER_RACE, VStr "Black");
             (STOP_OUTCOME, VStr "Arrest")];
     row_of [(OFFICER_ID, VStr "O2"); (DRIVER_RACE, VStr "Black");
             (STOP_OUTCOME, VStr "Citation")];
     row_of [(OFFICER_ID, VStr "O1"); (DRIVER_RACE, VStr "Black");
             (STOP_OUTCOME, VStr "Citation")]]
    plain.

Definition range_table : DataFrame :=
  mkDF [DRIVER_AGE]
    [row_of [(DRIVER_AGE, num 20)]; row_of [(DRIVER_AGE, num 21)];
     row_of [(DRIVER_AGE, num 36)]; row_of [(DRIVER_AGE, num 37)];
     row_of [(DRIVER_AGE, VNull)]]
    plain.

(** The cell is a boolean or missing. *)
Definition bool_or_null (v : value) : bool :=
  match v with VNull | VBool _ => true | _ => false end.

(** [search_type in SEARCHING_TYPES] *)
Definition is_searching_type (v : value) : bool :=
  existsb (value_eqb v) SEARCHING_TYPES.

(** The row belongs to an officer with at least [M_stops] rows in [df]. *)
Definition meets_threshold (df : DataFrame) (M_stops : Z) (r : row) : bool :=
  negb (is_null (r OFFICER_ID))
  && (M_stops <=? Z.of_nat (count_rows df [OFFICER_ID] [r OFFICER_ID]))%Z.

(** The rows are in ascending order of their rate in column [label]. *)
Definition rate_le (label : value) (r1 r2 : list value * (value -> float)) : Prop :=
  exists a b, snd r1 label = Some a /\ snd r2 label = Some b /\ (a <= b)%Q.

Definition stops_table : DataFrame :=
  mkDF [STOP_ID; OFFICER_ID; DRIVER_RACE]
    [row_of [(STOP_ID, num 1); (OFFICER_ID, VStr "O1"); (DRIVER_RACE, VStr "White")];
     row_of [(STOP_ID, num 2); (OFFICER_ID, VStr "O1"); (DRIVER_RACE, VStr "Black")];
     row_of [(STOP_ID, num 3); (OFFICER_ID, VStr "O2"); (DRIVER_RACE, VStr "Black")];
     row_of [(STOP_ID, num 4); (OFFICER_ID, VStr "O1"); (DRIVER_RACE, VStr "Black")]]
    plain.

Definition searches_by_type : DataFrame :=
  mkDF [STOP_ID; SEARCH_TYPE]
    [row_of [(STOP_ID, num 2); (SEARCH_TYPE, VStr "Probable Cause")];
     row_of [(STOP_ID, num 3); (SEARCH_TYPE, VStr "Probable Cause")];
     row_of [(STOP_ID, num 1); (SEARCH_TYPE, VStr "Vehicle Inventory")]]
    plain.

Definition searches_by_flag : DataFrame :=
  mkDF [STOP_ID; SEARCH_CONDUCTED]
    [row_of [(STOP_ID, num 2); (SEARCH_CONDUCTED, VBool true)];
     row_of [(STOP_ID, num 1); (SEARCH_CONDUCTED, VBool false)]]
    plain.

(** Stops that carry a search-conducted column of their own, and searches
    that supply the column next to the search type. *)
Definition stops_with_flag : DataFrame :=
  mkDF [STOP_ID; OFFICER_ID; SEARCH_CONDUCTED]
    [row_of [(STOP_ID, num 1); (OFFICER_ID, VStr "O1");
             (SEARCH_CONDUCTED, VBool false)];
     row_of [(STOP_ID, num 2); (OFFICER_ID, VStr "O1");
             (SEARCH_CONDUCTED, VBool true)]]
    plain.

Definition searches_flag_and_type : DataFrame :=
  mkDF [STOP_ID; SEARCH_CONDUCTED; SEARCH_TYPE]
    [row_of [(STOP_ID, num 1); (SEARCH_CONDUCTED, VBool false);
             (SEARCH_TYPE, VStr "Probable Cause")];
     row_of [(STOP_ID, num 2); (SEARCH_CONDUCTED, VBool true);
             (SEARCH_TYPE, VStr "Vehicle Inventory")]]
    plain.

(** The two joins of the concrete tables above. *)
Definition joined_by_type : DataFrame :=
  match merge_left stops_table searches_by_type STOP_ID with
  | Ok m => m
  | Raise _ => mkDF [] [] plain
  end.

Definition joined_by_flag : DataFrame :=
  match merge_left stops_table searches_by_flag STOP_ID with
  | Ok m => m
  | Raise _ => mkDF [] [] plain
  end.

(** The joined tables with their search-conducted column. *)
Definition prepared_by_type : DataFrame :=
  match derive_search_conducted joined_by_type with
  | Ok m => m
  | Raise _ => mkDF [] [] plain
  end.

Definition prepared_by_flag : DataFrame :=
  match derive_search_conducted joined_by_flag with
  | Ok m => m
  | Raise _ => mkDF [] [] plain
  end.

(** A table without rows whose officer column is categorical, with one
    category. *)
Definition officers_by_category : DataFrame :=
  mkDF [OFFICER_ID] [] (set_dtype plain OFFICER_ID (Some [VStr "O1"])).

(** The rows of the officers that meet the threshold. *)
Definition retained (df : DataFrame) (M_stops : Z) : DataFrame :=
  mkDF (columns df) (filter (meets_threshold df M_stops) (rows df)) (categories df).

(** The row [r] is the row [r0] as far as the columns [cols] go: the same
    group, the same cells. *)
Definition same_cells (cols : list value) (r r0 : list value * (value -> float))
  : Prop :=
  fst r = fst r0 /\ forall o, In o cols -> snd r o = snd r0 o.

(** The relation a boolean order decides. *)
Definition leb_rel {A : Type} (leb : A -> A -> bool) (a b : A) : Prop :=
  leb a b = true.

(** The ranking of the concrete stops by the supplied search flag. *)
Definition ranked_by_flag : Frame :=
  match compute_search_share stops_table searches_by_flag [OFFICER_ID] 1 with
  | Ok (Some t) => t
  | _ => mkFrame [] []
  end.

(** ** Reference definitions for the summary statistics *)

Definition is_string (v : value) : bool :=
  match v with VStr _ => true | _ => false end.

(** The numbers of a series: missing cells and strings are passed over. *)
Fixpoint values_of (s : Series) : list Q :=
  match s with
  | [] => []
  | v :: s' =>
      match as_number v with
      | Some q => this q :: values_of s'
      | None => values_of s'
      end
  end.

(** The rows of the group with key [k]. *)
Definition group_rows (df : DataFrame) (keys : list string) (k : list value)
  : list row :=
  filter (fun r : row => if key_eq_dec (key_of keys r) k then true else false)
         (rows df).

(** The numbers in column [col] of the group with key [k]. *)
Definition group_values (df : DataFrame) (keys : list string) (col : string)
  (k : list value) : list Q :=
  values_of (map (fun r : row => r col) (group_rows df keys k)).

(** A table with one group of three ages and a row without group. *)
Definition one_officer_table : DataFrame :=
  mkDF [OFFICER_ID; DRIVER_AGE]
    [row_of [(OFFICER_ID, VStr "O1"); (DRIVER_AGE, num 20)];
     row_of [(OFFICER_ID, VStr "O1"); (DRIVER_AGE, num 30)];
     row_of [(OFFICER_ID, VStr "O1"); (DRIVER_AGE, VNull)];
     row_of [(OFFICER_ID, VStr "O1"); (DRIVER_AGE, num 40)]]
    plain.

(** ** Reference definitions for the join *)

(** The number of search records with the given stop identifier. *)
Definition search_count (searches : DataFrame) (stop_id : value) : nat :=
  length (filter (fun r : row => value_eqb stop_id (r STOP_ID)) (rows searches)).

(** A stop with two search records, and one with none. *)
Definition searches_twice : DataFrame :=
  mkDF [STOP_ID; SEARCH_TYPE]
    [row_of [(STOP_ID, num 2); (SEARCH_TYPE, VStr "Probable Cause")];
     row_of [(STOP_ID, num 2); (SEARCH_TYPE, VStr "Vehicle Inventory")];
     row_of [(STOP_ID, num 3); (SEARCH_TYPE, VStr "Incident to Arrest")]]
    plain.

Definition joined_twice : DataFrame :=
  match merge_left stops_table searches_twice STOP_ID with
  | Ok m => m
  | Raise _ => mkDF [] [] plain
  end.

(** ** Reference definitions for the derived columns *)

(** The column [key] of the table, as a series. *)
Definition column (df : DataFrame) (key : string) : Series :=
  map (fun r : row => r key) (rows df).

(** The season whose months list the month, "default" when none does. *)
Definition season_of_month (m : value) : value :=
  match find (fun e : string * list value => existsb (value_eqb m) (snd e))
             SEASONS_MONTHS with
  | Some e => VStr (fst e)
  | None => VStr "default"
  end.

(** [stop_outcome in SUCCESS_STOPS] *)
Definition is_success (v : value) : bool := existsb (value_eqb v) SUCCESS_STOPS.

(** The stops of the concrete tables, as they stand after line 72. *)
Definition raw_stops : DataFrame :=
  mkDF [STOP_ID; OFFICER_ID; DRIVER_AGE; DRIVER_GENDER; DRIVER_RACE; VIOLATION;
        STOP_OUTCOME; MONTH_COL]
    [row_of [(STOP_ID, num 1); (OFFICER_ID, VStr "O1"); (DRIVER_AGE, num 21);
             (DRIVER_GENDER, VStr "F"); (DRIVER_RACE, VStr "White");
             (VIOLATION, VStr "Speeding"); (STOP_OUTCOME, VStr "Citation");
             (MONTH_COL, num 1)];
     row_of [(STOP_ID, num 2); (OFFICER_ID, VNull); (DRIVER_AGE, VNull);
             (DRIVER_GENDER, VStr "M"); (DRIVER_RACE, VStr "Black");
             (VIOLATION, VStr "Equipment"); (STOP_OUTCOME, VStr "Written Warning");
             (MONTH_COL, num 6)];
     row_of [(STOP_ID, num 3); (OFFICER_ID, VStr "O2"); (DRIVER_AGE, num 70);
             (DRIVER_GENDER, VStr "M"); (DRIVER_RACE, VStr "Asian");
             (VIOLATION, VStr "Speeding"); (STOP_OUTCOME, VNull);
             (MONTH_COL, num 9)]]
    plain.

Definition raw_searches : DataFrame :=
  mkDF [STOP_ID; SEARCH_TYPE; "drugs_related_stop"; "search_basis"]
    [row_of [(STOP_ID, num 1); (SEARCH_TYPE, VStr "Probable Cause");
             ("drugs_related_stop", VBool true); ("search_basis", VNull)];
     row_of [(STOP_ID, num 3); (SEARCH_TYPE, VNull);
             ("drugs_related_stop", VNull); ("search_basis", VStr "Odor")]]
    plain.

(** The season the loop leaves in a row: the last season that lists the
    month of the row. *)
Definition season_step (m : value) (current : value) (e : string * list value)
  : value :=
  if existsb (value_eqb m) (snd e) then VStr (fst e) else current.

(** The columns lines 74-88 read. *)
Definition stop_inputs : list string :=
  [MONTH_COL; DRIVER_AGE; STOP_OUTCOME; OFFICER_ID; DRIVER_GENDER; DRIVER_RACE;
   VIOLATION].

(** The columns lines 74-88 write with new cells. *)
Definition stop_outputs : list string :=
  [STOP_SEASON; AGE_CAT; ARREST_CITATION; OFFICER_ID].

(** What the fill dictionary makes of a cell of the column [c]: a missing
    cell of a listed column becomes the value listed for the column. *)
Definition fill_cell (fill_na_dict : list (string * value)) (c : string)
  (v : value) : value :=
  if is_null v then
    match find (fun e : string * value => String.eqb c (fst e)) fill_na_dict with
    | Some e => snd e
    | None => v
    end
  else v.

(** The dictionary the function works with (lines 106-108). *)
Definition fill_dict_used (fill_na_dict : option (list (string * value)))
  : list (string * value) :=
  match fill_na_dict with
  | None => NA_DICT
  | Some d => d
  end.

(** The fill values are values proper, none of them missing. *)
Definition proper_fills (d : list (string * value)) : bool :=
  forallb (fun e : string * value => negb (is_null (snd e))) d.

(** The stops without their violation column. *)
Definition stops_without_violation : DataFrame :=
  mkDF [STOP_ID; OFFICER_ID; DRIVER_AGE; DRIVER_GENDER; DRIVER_RACE;
        STOP_OUTCOME; MONTH_COL] (rows raw_stops)
    plain.

(** The searches without their basis column. *)
Definition searches_without_basis : DataFrame :=
  mkDF [STOP_ID; SEARCH_TYPE; "drugs_related_stop"] (rows raw_searches)
    plain.

(** [df'] is [df] with the column [key] written as [s]: the column is
    there, it holds [s], and every other column is as it was. *)
Definition writes (df df' : DataFrame) (key : string) (s : Series) : Prop :=
  (forall c, has_column df' c = has_column df c || String.eqb c key)
  /\ column df' key = s
  /\ (forall c, c <> key -> column df' c = column df c)
  /\ length (rows df') = length (rows df).

(** ** Reference definitions for the groups a grouping lists *)

(** The value is one a grouping lists for the column: a category of the
    column when it is categorical, or a value that occurs in the column;
    never a missing one. *)
Definition listed (df : DataFrame) (c : string) (v : value) : Prop :=
  v <> VNull
  /\ ((exists cats, categories df c = Some cats /\ In v cats)
      \/ exists r, In r (rows df) /\ r c = v).

(** Stops without a missing cell, as they stand after line 72, and what
    lines 74-88 make of them. *)
Definition complete_stops : DataFrame :=
  mkDF [STOP_ID; OFFICER_ID; DRIVER_AGE; DRIVER_GENDER; DRIVER_RACE; VIOLATION;
        STOP_OUTCOME; MONTH_COL]
    [row_of [(STOP_ID, num 1); (OFFICER_ID, VStr "O1"); (DRIVER_AGE, num 21);
             (DRIVER_GENDER, VStr "F"); (DRIVER_RACE, VStr "White");
             (VIOLATION, VStr "Speeding"); (STOP_OUTCOME, VStr "Citation");
             (MONTH_COL, num 1)];
     row_of [(STOP_ID, num 2); (OFFICER_ID, VStr "O1"); (DRIVER_AGE, num 30);
             (DRIVER_GENDER, VStr "M"); (DRIVER_RACE, VStr "Black");
             (VIOLATION, VStr "Equipment"); (STOP_OUTCOME, VStr "Arrest");
             (MONTH_COL, num 6)];
     row_of [(STOP_ID, num 3); (OFFICER_ID, VStr "O2"); (DRIVER_AGE, num 70);
             (DRIVER_GENDER, VStr "M"); (DRIVER_RACE, VStr "Black");
             (VIOLATION, VStr "Speeding"); (STOP_OUTCOME, VStr "Citation");
             (MONTH_COL, num 9)]]
    plain.

Definition normalised_stops : DataFrame :=
  match derive_stop_columns complete_stops with
  | Ok df => df
  | Raise _ => mkDF [] [] plain
  end.

(** * Properties *)

(** ** Results, masks and columns *)

Lemma bind_Ok {A B : Type} (a : A) (k : A -> result B) : bind (Ok a) k = k a.
Proof. reflexivity. Qed.

Lemma bind_Raise {A B : Type} (e : exn) (k : A -> result B) :
  bind (Raise e) k = Raise e.
Proof. reflexivity. Qed.

Lemma mapM_total {A B : Type} (f : A -> result B) (g : A -> B) (l : list A) :
  Forall (fun a => f a = Ok (g a)) l -> mapM f l = Ok (map g l).
Proof.
  induction 1 as [|a l Ha _ IH]; simpl; [reflexivity|].
  now rewrite Ha, IH.
Qed.

Lemma mapM_Ok {A B : Type} (f : A -> result B) (l : list A) (bs : list B) :
  mapM f l = Ok bs -> Forall2 (fun a b => f a = Ok b) l bs.
Proof.
  revert bs; induction l as [|a l IH]; simpl; intros bs H.
  - injection H as <-. constructor.
  - destruct (f a) as [b|e] eqn:Ha; simpl in H; [|discriminate].
    destruct (mapM f l) as [bs'|e] eqn:Hl; simpl in H; [|discriminate].
    injection H as <-. constructor; auto.
Qed.

Lemma select_map {A : Type} (p : A -> bool) (l : list A) :
  select (map p l) l = filter p l.
Proof.
  induction l as [|a l IH]; simpl; [reflexivity|].
  now rewrite IH.
Qed.

Lemma filter_filter {A : Type} (p q : A -> bool) (l : list A) :
  filter q (filter p l) = filter (fun a => p a && q a) l.
Proof.
  induction l as [|a l IH]; simpl; [reflexivity|].
  destruct (p a); simpl; [destruct (q a)|]; now rewrite IH.
Qed.

Lemma value_eqb_eq (a b : value) : value_eqb a b = true <-> a = b.
Proof.
  unfold value_eqb; destruct (value_eq_dec a b); split; congruence.
Qed.

Lemma value_eqb_refl (a : value) : value_eqb a a = true.
Proof. now apply value_eqb_eq. Qed.

Lemma has_column_In (df : DataFrame) (key : string) :
  has_column df key = true <-> In key (columns df).
Proof.
  unfold has_column. rewrite existsb_exists. split.
  - intros [c [Hc He]]. apply String.eqb_eq in He. now subst.
  - intros H. exists key. split; [assumption | apply String.eqb_refl].
Qed.

Lemma getitem_has (df : DataFrame) (key : string) :
  has_column df key = true ->
  getitem df key = Ok (map (fun r : row => r key) (rows df)).
Proof. unfold getitem. now intros ->. Qed.

Lemma set_cells_length (rs : list row) (key : string) (s : Series) :
  length s = length rs -> length (set_cells rs key s) = length rs.
Proof.
  revert s; induction rs as [|r rs IH]; intros [|v s]; simpl; try easy.
  intros H. f_equal. apply IH. lia.
Qed.

Lemma set_cells_column (rs : list row) (key : string) (s : Series) :
  length s = length rs -> map (fun r : row => r key) (set_cells rs key s) = s.
Proof.
  revert s; induction rs as [|r rs IH]; intros [|v s]; simpl; try easy.
  intros H. unfold set_cell at 1. rewrite String.eqb_refl. f_equal. apply IH. lia.
Qed.

Lemma set_cells_other (rs : list row) (key c : string) (s : Series) :
  length s = length rs -> c <> key ->
  map (fun r : row => r c) (set_cells rs key s) = map (fun r : row => r c) rs.
Proof.
  revert s; induction rs as [|r rs IH]; intros [|v s]; simpl; try easy.
  intros H Hc. unfold set_cell at 1.
  apply String.eqb_neq in Hc as Hc'. rewrite Hc'. f_equal. apply IH; [lia | assumption].
Qed.

Lemma set_cells_map (rs : list row) (key : string) (f : row -> value) :
  set_cells rs key (map f rs) = map (fun r : row => set_cell r key (f r)) rs.
Proof.
  induction rs as [|r rs IH]; simpl; [reflexivity|]. now rewrite IH.
Qed.

(** ** The age category *)

Lemma age_category_number (q : Qc) :
  age_category (VNum q) = Ok (right_closed_bin (VNum q)).
Proof.
  unfold age_category, cut_cell, right_closed_bin, AGE_BINS. simpl map.
  cbn [searchsorted_left]. unfold Qc_ltb.
  change (this (Q2Qc (inject_Z 0))) with 0%Q.
  change (this (Q2Qc (inject_Z 21))) with 21%Q.
  change (this (Q2Qc (inject_Z 36))) with 36%Q.
  change (this (Q2Qc (inject_Z 50))) with 50%Q.
  change (this (Q2Qc (inject_Z 65))) with 65%Q.
  change (this (Q2Qc (inject_Z 100))) with 100%Q.
  destruct (Qle_bool q 0); [reflexivity|]. cbn [negb].
  destruct (Qle_bool q 21); [reflexivity|]. cbn [negb].
  destruct (Qle_bool q 36); [reflexivity|]. cbn [negb].
  destruct (Qle_bool q 50); [reflexivity|]. cbn [negb].
  destruct (Qle_bool q 65); [reflexivity|]. cbn [negb].
  destruct (Qle_bool q 100); reflexivity.
Qed.

Lemma age_category_is_age (v : value) :
  is_age v = true -> age_category v = Ok (right_closed_bin v).
Proof.
  destruct v; simpl; try discriminate; intros _.
  - reflexivity.
  - apply age_category_number.
Qed.

(** C1, as the program has it.  [pd.cut] is called with its defaults, so
    the bins are closed on the right: (0,21], (21,36], (36,50], (50,65],
    (65,100].  For a table with a driver-age column holding numbers and
    missing values, the age category of every row is the label of the
    right-closed bin of its age; age 21 is [juvenile], age 36 is
    [young_adult], age 0 has no category, age 100 is [senior], and a missing
    age has no category. *)
Theorem age_category_right_closed (df : DataFrame) :
  has_column df DRIVER_AGE = true ->
  Forall (fun r : row => is_age (r DRIVER_AGE) = true) (rows df) ->
  (exists df',
      add_age_category df = Ok df'
      /\ map (fun r : row => r AGE_CAT) (rows df')
         = map (fun r : row => right_closed_bin (r DRIVER_AGE)) (rows df)
      /\ map (fun r : row => r DRIVER_AGE) (rows df')
         = map (fun r : row => r DRIVER_AGE) (rows df))
  /\ age_category (num 21) = Ok (VStr "juvenile")
  /\ age_category (num 36) = Ok (VStr "young_adult")
  /\ age_category (num 0) = Ok VNull
  /\ age_category (num 100) = Ok (VStr "senior")
  /\ age_category VNull = Ok VNull.
Proof.
  intros Hcol Hages. split; [|repeat split; reflexivity].
  assert (Hcut : cut (map (fun r : row => r DRIVER_AGE) (rows df)) AGE_BINS AGE_LABELS
                 = Ok (map (fun r : row => right_closed_bin (r DRIVER_AGE)) (rows df))).
  { unfold cut.
    replace (increasing AGE_BINS) with true by reflexivity.
    replace (length AGE_LABELS =? length AGE_BINS - 1)%nat with true by reflexivity.
    simpl negb. cbv iota.
    rewrite <- (map_map (fun r : row => r DRIVER_AGE) right_closed_bin).
    apply mapM_total. apply Forall_map.
    eapply Forall_impl; [|exact Hages].
    intros r Hr. now apply age_category_is_age. }
  eexists. split; [|split].
  - unfold add_age_category. rewrite (getitem_has _ _ Hcol), bind_Ok. cbv beta.
    rewrite Hcut, bind_Ok. cbv beta. unfold setitem_as.
    rewrite length_map, Nat.eqb_refl. simpl negb. cbv iota. reflexivity.
  - simpl rows. apply set_cells_column. now rewrite length_map.
  - simpl rows. apply set_cells_other; [now rewrite length_map | discriminate].
Qed.

Lemma age_category_right_closed_witness :
  exists df',
    add_age_category ages_table = Ok df'
    /\ map (fun r : row => r AGE_CAT) (rows df')
       = [VStr "juvenile"; VStr "young_adult"; VNull; VStr "senior"; VNull].
Proof.
  destruct (age_category_right_closed ages_table) as [[df' [H1 [H2 _]]] _].
  - reflexivity.
  - repeat constructor.
  - exists df'. split; [exact H1 | exact H2].
Defined.

(** C1, as it is stated, fails: with half-open bins [0,21), [21,36), ...
    age 21 would be [young_adult], age 36 [adult] and age 0 [juvenile]. *)
Lemma age_category_half_open_fails :
  age_category (num 21) <> Ok (VStr "young_adult")
  /\ age_category (num 36) <> Ok (VStr "adult")
  /\ age_category (num 0) <> Ok (VStr "juvenile").
Proof. repeat split; discriminate. Qed.

(** ** The filters *)

Lemma filter_all {A : Type} (l : list A) : filter (fun _ => true) l = l.
Proof. induction l as [|a l IH]; simpl; congruence. Qed.

Lemma forallb_filter {A : Type} (p q : A -> bool) (l : list A) :
  forallb p l = true -> forallb p (filter q l) = true.
Proof.
  rewrite !forallb_forall. intros H a Ha. apply filter_In in Ha. now apply H.
Qed.

Lemma mapM_determined {A B : Type} (f : A -> result B) (g : A -> B) (l : list A)
  (bs : list B) :
  (forall a b, In a l -> f a = Ok b -> b = g a) ->
  mapM f l = Ok bs -> bs = map g l.
Proof.
  intros Hg H. apply mapM_Ok in H.
  induction H as [|a b l bs Hab _ IH]; simpl; [reflexivity|].
  f_equal.
  - apply Hg; [now left | assumption].
  - apply IH. intros a' b' Ha'. apply Hg. now right.
Qed.

Lemma has_column_mask (df : DataFrame) (mask : list bool) (key : string) :
  has_column (getitem_mask df mask) key = has_column df key.
Proof. reflexivity. Qed.

Lemma columns_mask (df : DataFrame) (mask : list bool) (keys : list string) :
  forallb (has_column (getitem_mask df mask)) keys = forallb (has_column df) keys.
Proof. reflexivity. Qed.

Lemma apply_val_filters_spec (fi : list (string * list value)) (df : DataFrame) :
  apply_val_filters df fi
  = if forallb (has_column df) (map fst fi)
    then Ok (Some (mkDF (columns df)
                     (filter (fun r => forallb (passes_val r) fi) (rows df)) (categories df)))
    else Ok None.
Proof.
  revert df; induction fi as [|[key value] fi IH]; intros df.
  - simpl. rewrite filter_all. now destruct df.
  - simpl. destruct (has_column df key) eqn:Hkey; simpl; [|reflexivity].
    rewrite (getitem_has _ _ Hkey), bind_Ok, IH.
    rewrite columns_mask.
    destruct (forallb (has_column df) (map fst fi)); [|reflexivity].
    do 2 f_equal. unfold getitem_mask, isin. simpl.
    rewrite map_map, select_map, filter_filter. reflexivity.
Qed.

Lemma py_le_orderable (a b : value) :
  orderable a b = true -> py_le a b = Ok (le_holds a b).
Proof.
  destruct a as [| [|] | |], b as [| [|] | |]; simpl; try discriminate; reflexivity.
Qed.

Lemma py_le_Ok (a b : value) (c : bool) : py_le a b = Ok c -> c = le_holds a b.
Proof.
  destruct a as [| [|] | |], b as [| [|] | |]; simpl; congruence.
Qed.

Lemma between_cell_Ok (low high x : value) (b : bool) :
  between_cell low high x = Ok b ->
  b = negb (is_null x) && le_holds low x && le_holds x high.
Proof.
  unfold between_cell. destruct (is_null x); simpl; [congruence|].
  destruct (py_le low x) as [c|] eqn:H1; simpl; [|discriminate].
  destruct (py_le x high) as [d|] eqn:H2; simpl; [|discriminate].
  apply py_le_Ok in H1, H2. congruence.
Qed.

Lemma between_cell_comparable (low high x : value) :
  is_null x || (orderable low x && orderable x high) = true ->
  between_cell low high x
  = Ok (negb (is_null x) && le_holds low x && le_holds x high).
Proof.
  unfold between_cell. destruct (is_null x); simpl; [reflexivity|].
  intros H. apply andb_prop in H as [H1 H2].
  now rewrite (py_le_orderable _ _ H1), (py_le_orderable _ _ H2).
Qed.

(** What a range filter returns, it returns in full: every key is a
    column and exactly the rows passing every range are kept. *)
Lemma apply_range_filters_Some (fi : list (string * list value))
  (df t : DataFrame) :
  apply_range_filters df fi = Ok (Some t) ->
  forallb (has_column df) (map fst fi) = true
  /\ t = mkDF (columns df)
           (filter (fun r => forallb (passes_range r) fi) (rows df)) (categories df).
Proof.
  revert df; induction fi as [|[key value] fi IH]; intros df; simpl.
  - intros H. injection H as <-. rewrite filter_all. now destruct df.
  - destruct (has_column df key) eqn:Hkey; simpl; [|discriminate].
    rewrite (getitem_has _ _ Hkey), bind_Ok.
    destruct value as [|low [|high rest]]; simpl; try discriminate.
    destruct (between _ low high) as [mask|] eqn:Hb; simpl; [|discriminate].
    intros H. apply IH in H as [Hcols ->].
    rewrite columns_mask in Hcols.
    split; [assumption|]. f_equal. simpl.
    unfold between in Hb.
    apply (mapM_determined _
             (fun x => negb (is_null x) && le_holds low x && le_holds x high)) in Hb.
    2:{ intros a b _. apply between_cell_Ok. }
    subst mask. rewrite map_map, select_map, filter_filter. reflexivity.
Qed.

(** With comparable ranges the range filter never raises. *)
Lemma apply_range_filters_spec (fi : list (string * list value)) (df : DataFrame) :
  Forall (fun e => has_column df (fst e) = true -> range_comparable df e = true) fi ->
  apply_range_filters df fi
  = if forallb (has_column df) (map fst fi)
    then Ok (Some (mkDF (columns df)
                     (filter (fun r => forallb (passes_range r) fi) (rows df)) (categories df)))
    else Ok None.
Proof.
  revert df; induction fi as [|[key value] fi IH]; intros df Hcmp.
  - simpl. rewrite filter_all. now destruct df.
  - simpl. destruct (has_column df key) eqn:Hkey; simpl; [|reflexivity].
    rewrite (getitem_has _ _ Hkey), bind_Ok.
    inversion Hcmp as [|e fi' He Hfi]; subst. specialize (He Hkey).
    unfold range_comparable in He. simpl in He.
    destruct value as [|low [|high rest]]; try discriminate. simpl.
    assert (Hb : between (map (fun r : row => r key) (rows df)) low high
                 = Ok (map (fun r : row => passes_range r (key, low :: high :: rest))
                         (rows df))).
    { unfold between, passes_range. simpl.
      rewrite <- (map_map (fun r : row => r key)
                    (fun x => negb (is_null x) && le_holds low x && le_holds x high)).
      apply mapM_total, Forall_map, Forall_forall. intros r Hr.
      apply between_cell_comparable.
      rewrite forallb_forall in He. now apply He. }
    rewrite Hb, bind_Ok. rewrite IH.
    + rewrite columns_mask.
      destruct (forallb (has_column df) (map fst fi)); [|reflexivity].
      do 2 f_equal. unfold getitem_mask. simpl.
      rewrite select_map, filter_filter. reflexivity.
    + eapply Forall_impl; [|exact Hfi]. intros [k v] Hk Hcol.
      rewrite has_column_mask in Hcol. specialize (Hk Hcol).
      unfold range_comparable in *. simpl in *.
      destruct v as [|lo [|hi rest']]; try discriminate.
      rewrite select_map. now apply forallb_filter.
Qed.

(** ** Sorting keeps the elements *)

Lemma insert_sorted_perm {A : Type} (leb : A -> A -> bool) (a : A) (l : list A) :
  Permutation (insert_sorted leb a l) (a :: l).
Proof.
  induction l as [|b l IH]; simpl; [reflexivity|].
  destruct (leb a b); [reflexivity|].
  rewrite IH. apply perm_swap.
Qed.

Lemma isort_perm {A : Type} (leb : A -> A -> bool) (l : list A) :
  Permutation (isort leb l) l.
Proof.
  induction l as [|a l IH]; simpl; [reflexivity|].
  rewrite insert_sorted_perm. now constructor.
Qed.

Lemma isort_In {A : Type} (leb : A -> A -> bool) (l : list A) (a : A) :
  In a (isort leb l) <-> In a l.
Proof.
  split; apply Permutation_in; [|symmetry]; apply isort_perm.
Qed.

Lemma isort_NoDup {A : Type} (leb : A -> A -> bool) (l : list A) :
  NoDup l -> NoDup (isort leb l).
Proof.
  apply Permutation_NoDup. symmetry. apply isort_perm.
Qed.

(** ** Grouped series *)

Lemma lookup_map {B : Type} (f : list value -> B) (l : list (list value))
  (k : list value) :
  lookup k (map (fun k' => (k', f k')) l)
  = if in_dec key_eq_dec k l then Some (f k) else None.
Proof.
  induction l as [|k' l IH]; simpl; [reflexivity|].
  destruct (key_eq_dec k k') as [->|Hne].
  - destruct (key_eq_dec k' k'); [reflexivity | congruence].
  - rewrite IH. destruct (key_eq_dec k' k); [congruence|].
    now destruct (in_dec key_eq_dec k l).
Qed.

Lemma lookup_map_snd {B C : Type} (h : list value -> B -> C)
  (l : list (list value * B)) (k : list value) :
  lookup k (map (fun e => (fst e, h (fst e) (snd e))) l)
  = option_map (h k) (lookup k l).
Proof.
  induction l as [|[k' b] l IH]; cbn [map lookup fst snd]; [reflexivity|].
  destruct (key_eq_dec k k') as [->|]; [reflexivity | exact IH].
Qed.

Lemma existsb_map {A B : Type} (p : B -> bool) (f : A -> B) (l : list A) :
  existsb p (map f l) = existsb (fun a => p (f a)) l.
Proof. induction l as [|a l IH]; simpl; [reflexivity | now rewrite IH]. Qed.

Lemma is_null_false (v : value) : is_null v = false <-> v <> VNull.
Proof. destruct v; simpl; split; congruence. Qed.

Lemma has_null_app (a b : list value) :
  has_null (a ++ b) = has_null a || has_null b.
Proof. apply existsb_app. Qed.

Lemma key_of_app (keys : list string) (c : string) (r : row) :
  key_of (keys ++ [c]) r = key_of keys r ++ [r c].
Proof. unfold key_of. now rewrite map_app. Qed.

Lemma group_keys_In (df : DataFrame) (keys : list string) (k : list value) :
  In k (group_keys df keys)
  <-> exists r, In r (rows df) /\ key_of keys r = k /\ has_null k = false.
Proof.
  unfold group_keys. rewrite filter_In, in_map_iff, negb_true_iff. split.
  - intros [[r [Hk Hr]] Hn]. now exists r.
  - intros [r [Hr [Hk Hn]]]. split; [now exists r | assumption].
Qed.

(** *** Levels *)

Lemma distinct_In (v : value) (l : list value) : In v (distinct l) <-> In v l.
Proof.
  induction l as [|a l IH]; cbn [distinct]; [reflexivity|].
  cbn [In]. rewrite filter_In, IH, negb_true_iff. split.
  - intros [->|[H _]]; auto.
  - intros [->|H]; [now left|].
    destruct (value_eq_dec a v) as [->|Hne]; [now left|].
    right. split; [assumption|]. apply not_true_iff_false.
    now rewrite value_eqb_eq.
Qed.

Lemma distinct_NoDup (l : list value) : NoDup (distinct l).
Proof.
  induction l as [|a l IH]; cbn [distinct]; constructor.
  - rewrite filter_In, negb_true_iff. intros [_ H].
    now rewrite value_eqb_refl in H.
  - now apply NoDup_filter.
Qed.

Lemma occurring_In (v : value) (s : Series) :
  In v (occurring s) <-> In v s /\ v <> VNull.
Proof.
  unfold occurring.
  now rewrite isort_In, nodup_In, filter_In, negb_true_iff, is_null_false.
Qed.

Lemma occurring_NoDup (s : Series) : NoDup (occurring s).
Proof. apply isort_NoDup, NoDup_nodup. Qed.

Lemma level_In (df : DataFrame) (c : string) (v : value) :
  In v (level df c) <-> listed df c v.
Proof.
  unfold level, listed. destruct (categories df c) as [cats|].
  - rewrite distinct_In, in_app_iff, filter_In, negb_true_iff, is_null_false,
      occurring_In, in_map_iff.
    split.
    + intros [[Hin Hv]|[[r [E Hr]] Hv]]; (split; [exact Hv|]).
      * left. now exists cats.
      * right. now exists r.
    + intros [Hv [[cats' [E Hin]]|[r [Hr E]]]].
      * injection E as <-. now left.
      * right. split; [now exists r | exact Hv].
  - rewrite occurring_In, in_map_iff. split.
    + intros [[r [E Hr]] Hv]. split; [exact Hv|]. right. now exists r.
    + intros [Hv [[cats' [E _]]|[r [Hr E]]]]; [discriminate|].
      split; [now exists r | exact Hv].
Qed.

Lemma level_NoDup (df : DataFrame) (c : string) : NoDup (level df c).
Proof.
  unfold level. destruct (categories df c);
    [apply distinct_NoDup | apply occurring_NoDup].
Qed.

Lemma product_In (ls : list (list value)) (k : list value) :
  In k (product ls) <-> Forall2 (fun v l => In v l) k ls.
Proof.
  revert k; induction ls as [|l ls IH]; intros k; cbn [product].
  - split.
    + intros [<-|[]]. constructor.
    + intros H. inversion H. now left.
  - rewrite in_flat_map. split.
    + intros [v [Hv Hin]]. apply in_map_iff in Hin as [k' [<- Hk']].
      constructor; [assumption | now apply IH].
    + intros H. inversion H as [|v l' k' ls' Hv Hk']; subst.
      exists v. split; [assumption|]. apply in_map. now apply IH.
Qed.

Lemma product_NoDup (ls : list (list value)) :
  Forall (@NoDup value) ls -> NoDup (product ls).
Proof.
  induction 1 as [|l ls Hl _ IH]; cbn [product]; [repeat constructor; intros []|].
  induction Hl as [|v l Hv _ IHl]; cbn [flat_map]; [constructor|].
  apply NoDup_app.
  - apply Finite.Injective_map_NoDup; [|exact IH]. intros a b E. now injection E.
  - exact IHl.
  - intros k Hk Hk'. apply in_map_iff in Hk as [k0 [<- _]].
    apply in_flat_map in Hk' as [v' [Hv' Hin]].
    apply in_map_iff in Hin as [k1 [E _]]. injection E as -> _. contradiction.
Qed.

Lemma product_snoc (ls : list (list value)) (l : list value) (k : list value) :
  In k (product (ls ++ [l]))
  <-> exists g o, k = g ++ [o] /\ In g (product ls) /\ In o l.
Proof.
  rewrite product_In. split.
  - intros H. apply Forall2_app_inv_r in H as [g [t [Hg [Ht ->]]]].
    inversion Ht as [|o l' t' ls' Ho Hnil]; subst. inversion Hnil; subst.
    exists g, o. split; [reflexivity|]. split; [now apply product_In | exact Ho].
  - intros [g [o [-> [Hg Ho]]]]. apply Forall2_app; [now apply product_In|].
    now repeat constructor.
Qed.

Lemma levels_listed (df : DataFrame) (keys : list string) (k : list value) :
  In k (product (map (level df) keys)) <-> Forall2 (listed df) keys k.
Proof.
  rewrite product_In. revert k; induction keys as [|c keys IH]; intros k; cbn [map].
  - split; intros H; inversion H; constructor.
  - split; intros H; inversion H; subst; constructor;
      try (now apply level_In); now apply IH.
Qed.

Lemma group_keys_product (df : DataFrame) (keys : list string) (k : list value) :
  In k (group_keys df keys) -> In k (product (map (level df) keys)).
Proof.
  rewrite group_keys_In, levels_listed. intros [r [Hr [<- Hn]]].
  induction keys as [|c keys IH]; cbn [key_of map]; constructor.
  - unfold key_of, has_null in Hn. cbn [map existsb] in Hn.
    apply orb_false_iff in Hn as [Hc _]. split; [now apply is_null_false|].
    right. now exists r.
  - apply IH. unfold key_of, has_null in Hn. cbn [map existsb] in Hn.
    now apply orb_false_iff in Hn as [_ Hn].
Qed.

Lemma listed_no_null (df : DataFrame) (keys : list string) (k : list value) :
  Forall2 (listed df) keys k -> has_null k = false.
Proof.
  induction 1 as [|c v keys k [Hv _] _ IH]; [reflexivity|].
  unfold has_null. cbn [existsb]. apply orb_false_iff. split; [|exact IH].
  now apply is_null_false.
Qed.

(** *** The keys a grouping lists *)

Lemma group_index_In (df : DataFrame) (keys : list string) (k : list value) :
  In k (group_index df keys)
  <-> Forall2 (listed df) keys k
      /\ (existsb (is_categorical df) keys = true \/ In k (group_keys df keys)).
Proof.
  unfold group_index. rewrite <- levels_listed.
  destruct (existsb (is_categorical df) keys).
  - intuition.
  - rewrite filter_In. destruct (in_dec key_eq_dec k (group_keys df keys)).
    + intuition.
    + intuition discriminate.
Qed.

Lemma group_keys_index (df : DataFrame) (keys : list string) (k : list value) :
  In k (group_keys df keys) -> In k (group_index df keys).
Proof.
  intros H. apply group_index_In. split; [|now right].
  now apply levels_listed, group_keys_product.
Qed.

Lemma group_index_plain (df : DataFrame) (keys : list string) (k : list value) :
  existsb (is_categorical df) keys = false ->
  In k (group_index df keys) <-> In k (group_keys df keys).
Proof.
  intros Hp. split; [|apply group_keys_index].
  rewrite group_index_In, Hp. intros [_ [H|H]]; [discriminate | exact H].
Qed.

Lemma group_index_NoDup (df : DataFrame) (keys : list string) :
  NoDup (group_index df keys).
Proof.
  assert (H : NoDup (product (map (level df) keys))).
  { apply product_NoDup, Forall_map, Forall_forall. intros c _. apply level_NoDup. }
  unfold group_index. destruct (existsb _ keys); [exact H | now apply NoDup_filter].
Qed.

Lemma group_index_no_null (df : DataFrame) (keys : list string) (k : list value) :
  In k (group_index df keys) -> has_null k = false.
Proof. rewrite group_index_In. intros [H _]. now apply (listed_no_null df keys). Qed.

Lemma groupby_size_Ok (df : DataFrame) (keys : list string) :
  keys <> [] -> forallb (has_column df) keys = true ->
  groupby_size df keys = Ok (group_sizes df keys).
Proof.
  intros Hne Hcols. unfold groupby_size. rewrite Hcols.
  destruct keys; [contradiction | reflexivity].
Qed.

Lemma groupby_size_empty (df : DataFrame) : groupby_size df [] = Raise ValueError.
Proof. reflexivity. Qed.

Lemma group_sizes_keys (df : DataFrame) (keys : list string) :
  map fst (entries (group_sizes df keys)) = group_index df keys.
Proof. unfold group_sizes. cbn [entries]. rewrite map_map. simpl. apply map_id. Qed.

Lemma group_sizes_lookup (df : DataFrame) (keys : list string) (k : list value) :
  lookup k (entries (group_sizes df keys))
  = if in_dec key_eq_dec k (group_index df keys)
    then Some (count_occ key_eq_dec (group_keys df keys) k)
    else None.
Proof. unfold group_sizes. cbn [entries]. apply lookup_map. Qed.

(** A key that is not listed has no row. *)
Lemma unlisted_count (df : DataFrame) (keys : list string) (k : list value) :
  ~ In k (group_index df keys) ->
  count_occ key_eq_dec (group_keys df keys) k = 0%nat.
Proof.
  intros Hk. apply count_occ_not_In. intros H. now apply Hk, group_keys_index.
Qed.

Lemma count_occ_filter_keep (p : list value -> bool) (l : list (list value))
  (x : list value) :
  p x = true -> count_occ key_eq_dec (filter p l) x = count_occ key_eq_dec l x.
Proof.
  intros Hx. induction l as [|a l IH]; [reflexivity|]. simpl.
  destruct (p a) eqn:Ha; simpl; destruct (key_eq_dec a x) as [->|]; congruence.
Qed.

(** For a key without a missing cell, the rows of the group are the rows
    with these cells. *)
Lemma group_count_rows (df : DataFrame) (keys : list string) (k : list value) :
  has_null k = false ->
  count_occ key_eq_dec (group_keys df keys) k = count_rows df keys k.
Proof.
  intros Hk. unfold group_keys, count_rows. apply count_occ_filter_keep.
  now rewrite Hk.
Qed.
(** ** The rate table *)

Lemma get_rates_Ok (df : DataFrame) (cat_col : list string) (outcome_col : string) :
  cat_col <> [] ->
  forallb (has_column df) cat_col = true ->
  has_column df outcome_col = true ->
  get_rates df cat_col outcome_col = Ok (Some (rates_frame df cat_col outcome_col)).
Proof.
  intros Hne Hcat Hout. unfold get_rates.
  assert (Hex : existsb (fun i => negb (has_column df i)
                                  || negb (has_column df outcome_col)) cat_col = false).
  { apply not_true_is_false. intros H. apply existsb_exists in H as [i [Hi H]].
    rewrite forallb_forall in Hcat. rewrite (Hcat i Hi), Hout in H. discriminate. }
  rewrite Hex, (groupby_size_Ok _ _ Hne Hcat), bind_Ok. cbv beta.
  rewrite groupby_size_Ok, bind_Ok; [reflexivity | |].
  - now destruct cat_col.
  - rewrite forallb_app, Hcat. simpl. now rewrite Hout.
Qed.

(** A missing column among the named ones, with a group column to look at,
    makes [get_rates] return [None]. *)
Lemma get_rates_None (df : DataFrame) (cat_col : list string) (outcome_col : string) :
  cat_col <> [] ->
  forallb (has_column df) cat_col && has_column df outcome_col = false ->
  get_rates df cat_col outcome_col = Ok None.
Proof.
  intros Hne Hmiss. unfold get_rates.
  assert (Hex : existsb (fun i => negb (has_column df i)
                                  || negb (has_column df outcome_col)) cat_col = true).
  { apply andb_false_iff in Hmiss as [Hcat|Hout].
    - assert (H : exists i, In i cat_col /\ has_column df i = false).
      { induction cat_col as [|c l IH]; [discriminate|]. simpl in Hcat.
        destruct (has_column df c) eqn:Hc.
        - destruct l as [|c' l']; [discriminate|].
          destruct IH as [i [Hi H]]; [discriminate | assumption |].
          exists i. split; [now right | assumption].
        - exists c. split; [now left | assumption]. }
      destruct H as [i [Hi H]]. apply existsb_exists. exists i.
      split; [assumption|]. now rewrite H.
    - destruct cat_col as [|c l]; [contradiction|]. simpl.
      rewrite Hout. simpl. now rewrite orb_true_r. }
  now rewrite Hex.
Qed.

Lemma group_keys_outcome (df : DataFrame) (cat_col : list string)
  (outcome_col : string) (k : list value) :
  In k (group_keys df (cat_col ++ [outcome_col]))
  <-> exists r, In r (rows df)
                /\ k = key_of cat_col r ++ [r outcome_col]
                /\ has_null (key_of cat_col r) = false
                /\ r outcome_col <> VNull.
Proof.
  rewrite group_keys_In. split.
  - intros [r [Hr [Hk Hn]]]. exists r. rewrite key_of_app in Hk. subst k.
    rewrite has_null_app in Hn. apply orb_false_iff in Hn as [Hg Ho].
    repeat split; try assumption. intros E. rewrite E in Ho. discriminate.
  - intros [r [Hr [Hk [Hg Ho]]]]. exists r. rewrite key_of_app. subst k.
    repeat split; try assumption. rewrite has_null_app, Hg. simpl.
    destruct (r outcome_col); simpl; congruence.
Qed.

Lemma group_keys_of_outcome (df : DataFrame) (cat_col : list string)
  (outcome_col : string) (g : list value) (o : value) :
  In (g ++ [o]) (group_keys df (cat_col ++ [outcome_col])) ->
  In g (group_keys df cat_col).
Proof.
  rewrite group_keys_outcome, group_keys_In.
  intros [r [Hr [Hk [Hg Ho]]]]. apply app_inj_tail in Hk as [-> ->].
  now exists r.
Qed.

(** ** Counting rows by outcome *)

Lemma count_occ_cons_add (x y : list value) (l : list (list value)) :
  count_occ key_eq_dec (x :: l) y
  = ((if key_eq_dec x y then 1 else 0) + count_occ key_eq_dec l y)%nat.
Proof. simpl. now destruct (key_eq_dec x y). Qed.

Lemma list_sum_map_add {A : Type} (f h : A -> nat) (l : list A) :
  list_sum (map (fun a => f a + h a)%nat l)
  = (list_sum (map f l) + list_sum (map h l))%nat.
Proof. induction l as [|a l IH]; simpl; [reflexivity | lia]. Qed.

Lemma list_sum_map_zero {A : Type} (l : list A) :
  list_sum (map (fun _ => 0%nat) l) = 0%nat.
Proof. induction l; simpl; [reflexivity | assumption]. Qed.

Lemma indicator_sum (kg g : list value) (ro : value) (cols : list value) :
  NoDup cols ->
  list_sum (map (fun o => if key_eq_dec (kg ++ [ro]) (g ++ [o]) then 1 else 0)%nat cols)
  = if key_eq_dec kg g
    then if in_dec value_eq_dec ro cols then 1%nat else 0%nat
    else 0%nat.
Proof.
  induction 1 as [|o cols Hno Hnd IH]; simpl.
  - now destruct (key_eq_dec kg g).
  - rewrite IH. destruct (key_eq_dec (kg ++ [ro]) (g ++ [o])) as [E|Hne].
    + apply app_inj_tail in E as [-> ->].
      destruct (key_eq_dec g g); [|congruence].
      destruct (value_eq_dec o o); [|congruence].
      destruct (in_dec value_eq_dec o cols); [contradiction | reflexivity].
    + destruct (key_eq_dec kg g) as [->|]; [|reflexivity].
      destruct (value_eq_dec o ro) as [->|]; [congruence|].
      now destruct (in_dec value_eq_dec ro cols).
Qed.

(** Summed over all outcomes, the rows of a group with each outcome are
    the rows of the group. *)
Lemma outcome_counts_sum (df : DataFrame) (cat_col : list string)
  (outcome_col : string) (cols : list value) (g : list value) :
  NoDup cols ->
  Forall (fun r : row =>
            r outcome_col <> VNull
            /\ (has_null (key_of cat_col r) = false -> In (r outcome_col) cols))
         (rows df) ->
  list_sum (map (fun o => count_occ key_eq_dec
                            (group_keys df (cat_col ++ [outcome_col])) (g ++ [o])) cols)
  = count_occ key_eq_dec (group_keys df cat_col) g.
Proof.
  intros Hnd. unfold group_keys. induction 1 as [|r rs [Ho Hin] _ IH]; simpl.
  - apply list_sum_map_zero.
  - rewrite key_of_app, has_null_app.
    replace (has_null [r outcome_col]) with false
      by (destruct (r outcome_col); simpl; congruence).
    rewrite orb_false_r.
    destruct (has_null (key_of cat_col r)) eqn:Hg; simpl; [exact IH|].
    erewrite map_ext by (intros; apply count_occ_cons_add).
    rewrite list_sum_map_add, IH, indicator_sum by assumption.
    destruct (key_eq_dec (key_of cat_col r) g); [|reflexivity].
    destruct (in_dec value_eq_dec (r outcome_col) cols) as [|Hn]; [reflexivity|].
    exfalso. apply Hn, Hin. reflexivity.
Qed.

Lemma Q_of_nat_add (a b : nat) (d : Q) :
  (Q_of_nat (a + b) / d == Q_of_nat a / d + Q_of_nat b / d)%Q.
Proof.
  unfold Q_of_nat. rewrite Nat2Z.inj_add, inject_Z_plus. unfold Qdiv. ring.
Qed.

Lemma Q_of_nat_self (c : nat) : (0 < c)%nat -> (Q_of_nat c / Q_of_nat c == 1)%Q.
Proof.
  intros Hc. unfold Qdiv. apply Qmult_inv_r. unfold Q_of_nat.
  change 0%Q with (inject_Z 0). rewrite inject_Z_injective. lia.
Qed.

Lemma float_sum_shares (cols : list value) (cells : value -> float)
  (f : value -> nat) (d : Q) :
  (forall o, In o cols -> exists q, cells o = Some q /\ (q == Q_of_nat (f o) / d)%Q) ->
  exists q, float_sum (map cells cols) = Some q
            /\ (q == Q_of_nat (list_sum (map f cols)) / d)%Q.
Proof.
  induction cols as [|o cols IH]; intros H; simpl.
  - exists 0%Q. split; [reflexivity|]. unfold Qdiv, Q_of_nat. simpl. ring.
  - destruct (H o (or_introl eq_refl)) as [q [Hq Eq]].
    destruct IH as [q' [Hq' Eq']]; [intros o' Ho'; apply H; now right|].
    rewrite Hq, Hq'. exists (q + q')%Q. split; [reflexivity|].
    now rewrite Q_of_nat_add, Eq, Eq'.
Qed.




Lemma div_sizes_lookup (num den : Indexed nat) (k : list value) :
  lookup k (entries (div_sizes num den))
  = match lookup k (entries num) with
    | Some n =>
        Some match lookup (removelast k) (entries den) with
             | Some d => div_counts n d
             | None => None
             end
    | None => None
    end.
Proof.
  unfold div_sizes. cbn [entries].
  induction (entries num) as [|[k' n] l IH]; cbn [map lookup fst snd]; [reflexivity|].
  destruct (key_eq_dec k k') as [->|]; [reflexivity | exact IH].
Qed.

Lemma rates_frame_index (df : DataFrame) (cat_col : list string)
  (outcome_col : string) :
  map fst (frows (rates_frame df cat_col outcome_col))
  = filter (fun g => existsb (fun k => if key_eq_dec (removelast k) g
                                       then true else false)
                             (group_index df (cat_col ++ [outcome_col])))
           (product (map (level df) cat_col)).
Proof.
  unfold rates_frame, frame_fillna, unstack. cbn [frows].
  rewrite !map_map. cbn [fst]. rewrite map_id.
  unfold div_sizes. cbn [levels entries]. unfold group_sizes. cbn [levels entries].
  rewrite map_app. cbn [map]. rewrite removelast_last.
  apply filter_ext. intros g. now rewrite !existsb_map.
Qed.

Lemma rates_frame_columns (df : DataFrame) (cat_col : list string)
  (outcome_col : string) :
  fcolumns (rates_frame df cat_col outcome_col)
  = filter (fun o => existsb (fun k => value_eqb (last k VNull) o)
                             (group_index df (cat_col ++ [outcome_col])))
           (level df outcome_col).
Proof.
  unfold rates_frame, frame_fillna, unstack. cbn [fcolumns].
  unfold div_sizes. cbn [levels entries]. unfold group_sizes. cbn [levels entries].
  rewrite map_app. cbn [map]. rewrite last_last.
  apply filter_ext. intros o. now rewrite !existsb_map.
Qed.

Lemma listed_snoc (df : DataFrame) (keys : list string) (c : string)
  (k : list value) :
  Forall2 (listed df) (keys ++ [c]) k
  <-> exists g o, k = g ++ [o] /\ Forall2 (listed df) keys g /\ listed df c o.
Proof.
  rewrite <- levels_listed, map_app. cbn [map]. rewrite product_snoc.
  split; intros [g [o [E [Hg Ho]]]]; exists g, o; (split; [exact E|]);
    rewrite levels_listed in *; rewrite level_In in *; now split.
Qed.

Lemma rates_frame_index_In (df : DataFrame) (cat_col : list string)
  (outcome_col : string) (g : list value) :
  In g (map fst (frows (rates_frame df cat_col outcome_col)))
  <-> exists o, In (g ++ [o]) (group_index df (cat_col ++ [outcome_col])).
Proof.
  rewrite rates_frame_index, filter_In, existsb_exists. split.
  - intros [_ [k [Hk E]]]. destruct (key_eq_dec (removelast k) g) as [<-|]; [|discriminate].
    pose proof Hk as Hl. apply group_index_In in Hl as [Hl _].
    apply listed_snoc in Hl as [g [o [-> _]]]. exists o.
    now rewrite removelast_last.
  - intros [o Hk]. split.
    + apply group_index_In in Hk as [Hl _].
      apply listed_snoc in Hl as [g' [o' [E [Hg _]]]].
      apply app_inj_tail in E as [-> _]. now apply levels_listed.
    + exists (g ++ [o]). split; [exact Hk|]. rewrite removelast_last.
      now destruct (key_eq_dec g g).
Qed.

Lemma rates_frame_column_In (df : DataFrame) (cat_col : list string)
  (outcome_col : string) (o : value) :
  In o (fcolumns (rates_frame df cat_col outcome_col))
  <-> exists g, In (g ++ [o]) (group_index df (cat_col ++ [outcome_col])).
Proof.
  rewrite rates_frame_columns, filter_In, existsb_exists. split.
  - intros [_ [k [Hk E]]]. apply value_eqb_eq in E.
    pose proof Hk as Hl. apply group_index_In in Hl as [Hl _].
    apply listed_snoc in Hl as [g [o' [-> _]]]. exists g.
    rewrite last_last in E. now subst.
  - intros [g Hk]. split.
    + apply group_index_In in Hk as [Hl _].
      apply listed_snoc in Hl as [g' [o' [E [_ Ho]]]].
      apply app_inj_tail in E as [_ ->]. now apply level_In.
    + exists (g ++ [o]). split; [exact Hk|]. rewrite last_last.
      apply value_eqb_refl.
Qed.

Lemma rates_frame_columns_NoDup (df : DataFrame) (cat_col : list string)
  (outcome_col : string) :
  NoDup (fcolumns (rates_frame df cat_col outcome_col)).
Proof. rewrite rates_frame_columns. apply NoDup_filter, level_NoDup. Qed.

Lemma rates_frame_index_NoDup (df : DataFrame) (cat_col : list string)
  (outcome_col : string) :
  NoDup (map fst (frows (rates_frame df cat_col outcome_col))).
Proof.
  rewrite rates_frame_index. apply NoDup_filter, product_NoDup, Forall_map, Forall_forall.
  intros c _. apply level_NoDup.
Qed.

(** A listed group has no missing cell. *)
Lemma rates_frame_index_no_null (df : DataFrame) (cat_col : list string)
  (outcome_col : string) (g : list value) :
  In g (map fst (frows (rates_frame df cat_col outcome_col))) -> has_null g = false.
Proof.
  rewrite rates_frame_index_In. intros [o Hk]. apply group_index_no_null in Hk.
  rewrite has_null_app in Hk. now apply orb_false_iff in Hk as [Hg _].
Qed.

Lemma Qred_zero (d : Q) : Qred (Q_of_nat 0 / d) = 0%Q.
Proof.
  change 0%Q with (Qred 0). apply Qred_complete.
  unfold Qdiv, Q_of_nat. simpl. ring.
Qed.

(** The rows of a group with a given outcome are among the rows of the
    group. *)
Lemma outcome_count_le (df : DataFrame) (cat_col : list string)
  (outcome_col : string) (g : list value) (o : value) :
  (count_occ key_eq_dec (group_keys df (cat_col ++ [outcome_col])) (g ++ [o])
   <= count_occ key_eq_dec (group_keys df cat_col) g)%nat.
Proof.
  unfold group_keys. induction (rows df) as [|r rs IH]; [cbn; lia|].
  cbn [map filter]. rewrite key_of_app, has_null_app.
  destruct (has_null (key_of cat_col r)) eqn:Hg; cbn [orb negb]; [exact IH|].
  destruct (has_null [r outcome_col]); cbn [negb];
    rewrite ?count_occ_cons_add.
  - destruct (key_eq_dec (key_of cat_col r) g); lia.
  - destruct (key_eq_dec (key_of cat_col r ++ [r outcome_col]) (g ++ [o])) as [E|_].
    + apply app_inj_tail in E as [-> _].
      destruct (key_eq_dec g g); [lia | congruence].
    + destruct (key_eq_dec (key_of cat_col r) g); lia.
Qed.

Lemma unstack_cell (s : Indexed float) (v : Q) (g : list value)
  (cells : value -> float) (o : value) :
  In (g, cells) (frows (frame_fillna (unstack s) v)) ->
  cells o
  = match lookup (g ++ [o]) (entries s) with
    | Some (Some x) => Some x
    | _ => Some v
    end.
Proof.
  unfold frame_fillna, unstack. cbn [frows]. rewrite map_map. cbn [fst snd].
  intros Hin. apply in_map_iff in Hin as [g' [E _]]. injection E as -> <-.
  destruct (lookup (g ++ [o]) (entries s)) as [[x|]|]; reflexivity.
Qed.

(** The cell of a group and an outcome: the share of the rows of the group
    that have the outcome, and 0 when the group has no row. *)
Lemma rates_frame_cell (df : DataFrame) (cat_col : list string)
  (outcome_col : string) (g : list value) (cells : value -> float) (o : value) :
  In (g, cells) (frows (rates_frame df cat_col outcome_col)) ->
  cells o
  = Some (if (count_occ key_eq_dec (group_keys df cat_col) g =? 0)%nat then 0%Q
          else Qred (Q_of_nat (count_occ key_eq_dec
                                 (group_keys df (cat_col ++ [outcome_col])) (g ++ [o]))
                     / Q_of_nat (count_occ key_eq_dec (group_keys df cat_col) g))).
Proof.
  unfold rates_frame. intros Hin. rewrite (unstack_cell _ _ _ _ o Hin).
  rewrite div_sizes_lookup, !group_sizes_lookup, removelast_last.
  pose proof (outcome_count_le df cat_col outcome_col g o) as Hle.
  destruct (in_dec key_eq_dec (g ++ [o]) (group_index df (cat_col ++ [outcome_col])))
    as [Hk|Hk].
  - destruct (in_dec key_eq_dec g (group_index df cat_col)) as [Hg|Hg].
    + unfold div_counts. now destruct (_ =? 0)%nat.
    + now rewrite (unlisted_count _ _ _ Hg).
  - rewrite (unlisted_count _ _ _ Hk). rewrite Qred_zero.
    now destruct (_ =? 0)%nat.
Qed.

Lemma rate_value (n d : nat) :
  ((if (d =? 0)%nat then 0 else Qred (Q_of_nat n / Q_of_nat d))
   == Q_of_nat n / Q_of_nat d)%Q.
Proof.
  destruct (d =? 0)%nat eqn:E.
  - apply Nat.eqb_eq in E. subst d. unfold Qdiv.
    change (/ Q_of_nat 0)%Q with 0%Q. ring.
  - apply Qred_correct.
Qed.

Lemma no_missing_key (df : DataFrame) (keys : list string) (r : row) :
  (forall c, In c keys -> no_missing df c) -> In r (rows df) ->
  has_null (key_of keys r) = false.
Proof.
  intros Hk Hr. unfold has_null, key_of. apply not_true_is_false. intros H.
  apply existsb_exists in H as [v [Hv Hn]]. apply in_map_iff in Hv as [c [<- Hc]].
  specialize (Hk c Hc). unfold no_missing in Hk. rewrite Forall_forall in Hk.
  specialize (Hk r Hr). destruct (r c); simpl in Hn; congruence.
Qed.

Lemma no_missing_forallb (df : DataFrame) (key : string) :
  forallb (fun r : row => negb (is_null (r key))) (rows df) = true ->
  no_missing df key.
Proof.
  intros H. unfold no_missing. apply Forall_forall. intros r Hr.
  rewrite forallb_forall in H. specialize (H r Hr).
  now apply is_null_false, negb_true_iff.
Qed.

(** The cells of a row of the rate table add up to the rows of the group
    over the rows of the group. *)
Lemma rates_frame_row_sum (df : DataFrame) (cat_col : list string)
  (outcome_col : string) (g : list value) (cells : value -> float) :
  no_missing df outcome_col ->
  In (g, cells) (frows (rates_frame df cat_col outcome_col)) ->
  exists q,
    float_sum (map cells (fcolumns (rates_frame df cat_col outcome_col))) = Some q
    /\ (q == Q_of_nat (count_occ key_eq_dec (group_keys df cat_col) g)
             / Q_of_nat (count_occ key_eq_dec (group_keys df cat_col) g))%Q.
Proof.
  intros Hmiss Hr.
  destruct (float_sum_shares (fcolumns (rates_frame df cat_col outcome_col)) cells
              (fun o => count_occ key_eq_dec
                          (group_keys df (cat_col ++ [outcome_col])) (g ++ [o]))
              (Q_of_nat (count_occ key_eq_dec (group_keys df cat_col) g)))
    as [q [Hq Eq]].
  - intros o _. eexists. split; [apply (rates_frame_cell _ _ _ _ _ o Hr)|].
    apply rate_value.
  - exists q. split; [exact Hq|]. rewrite Eq, outcome_counts_sum; [reflexivity| |].
    + apply rates_frame_columns_NoDup.
    + unfold no_missing in Hmiss. rewrite Forall_forall in *. intros x Hx.
      split; [now apply Hmiss|]. intros Hnull.
      apply rates_frame_column_In. exists (key_of cat_col x).
      apply group_keys_index, group_keys_outcome. exists x.
      repeat split; try assumption. now apply Hmiss.
Qed.

Lemma group_has_rows (df : DataFrame) (cat_col : list string)
  (outcome_col : string) (g : list value) :
  In g (map fst (frows (rates_frame df cat_col outcome_col))) ->
  (exists x, In x (rows df) /\ key_of cat_col x = g)
  <-> (0 < count_occ key_eq_dec (group_keys df cat_col) g)%nat.
Proof.
  intros Hg. apply rates_frame_index_no_null in Hg. split.
  - intros [x [Hx Hk]]. apply count_occ_In, group_keys_In. now exists x.
  - intros Hpos. apply count_occ_In, group_keys_In in Hpos as [x [Hx [Hk _]]].
    now exists x.
Qed.

Lemma Q_zero_over_zero : (Q_of_nat 0 / Q_of_nat 0 == 0)%Q.
Proof. reflexivity. Qed.

(** C5, as the program has it.  Take a table, a non-empty list of group
    columns and an outcome column, all of them columns of the table, with
    no missing outcome.  Then [get_rates] returns a table, and in every row
    of it that stands for a group with at least one row in the input the
    cells of all outcome columns add up to 1.  A row that stands for a
    group without a row in the input, as the grouping lists it for the
    categories of a categorical column that occur in no row, holds 0 in
    every cell and adds up to 0.  When none of the columns is categorical
    every row has its group in the input, and adds up to 1.  (Rates are
    exact rationals here, so the sums are exact; rows with a missing group
    cell are left out of the grouping and do not matter.) *)
Theorem get_rates_rows_sum_to_one (df : DataFrame) (cat_col : list string)
  (outcome_col : string) :
  cat_col <> [] ->
  forallb (has_column df) cat_col = true ->
  has_column df outcome_col = true ->
  no_missing df outcome_col ->
  exists f,
    get_rates df cat_col outcome_col = Ok (Some f)
    /\ (forall r, In r (frows f) ->
          exists q,
            float_sum (cells_of f r) = Some q
            /\ ((exists x, In x (rows df) /\ key_of cat_col x = fst r) -> (q == 1)%Q)
            /\ ((~ exists x, In x (rows df) /\ key_of cat_col x = fst r) ->
                (q == 0)%Q /\ forall o, snd r o = Some 0%Q))
    /\ (existsb (is_categorical df) (cat_col ++ [outcome_col]) = false ->
        forall r, In r (frows f) ->
          exists q, float_sum (cells_of f r) = Some q /\ (q == 1)%Q).
Proof.
  intros Hne Hcat Hout Hmiss.
  exists (rates_frame df cat_col outcome_col).
  split; [now apply get_rates_Ok|].
  assert (Hrow : forall r, In r (frows (rates_frame df cat_col outcome_col)) ->
            exists q,
              float_sum (cells_of (rates_frame df cat_col outcome_col) r) = Some q
              /\ ((exists x, In x (rows df) /\ key_of cat_col x = fst r) -> (q == 1)%Q)
              /\ ((~ exists x, In x (rows df) /\ key_of cat_col x = fst r) ->
                  (q == 0)%Q /\ forall o, snd r o = Some 0%Q)).
  { intros [g cells] Hr. cbn [fst snd].
    assert (Hg : In g (map fst (frows (rates_frame df cat_col outcome_col)))).
    { apply in_map_iff. now exists (g, cells). }
    destruct (rates_frame_row_sum df cat_col outcome_col g cells Hmiss Hr)
      as [q [Hq Eq]].
    exists q. split; [exact Hq|]. rewrite (group_has_rows _ _ _ _ Hg). split.
    - intros Hpos. rewrite Eq. now apply Q_of_nat_self.
    - intros Hzero.
      assert (E : count_occ key_eq_dec (group_keys df cat_col) g = 0%nat) by lia.
      split.
      + rewrite Eq, E. apply Q_zero_over_zero.
      + intros o. rewrite (rates_frame_cell _ _ _ _ _ o Hr), E. reflexivity. }
  split; [exact Hrow|].
  intros Hplain [g cells] Hr. destruct (Hrow _ Hr) as [q [Hq [Hone _]]].
  exists q. split; [exact Hq|]. apply Hone. cbn [fst].
  assert (Hg : In g (map fst (frows (rates_frame df cat_col outcome_col)))).
  { apply in_map_iff. now exists (g, cells). }
  apply rates_frame_index_In in Hg as [o Hk].
  apply (group_index_plain _ _ _ Hplain), group_keys_outcome in Hk
    as [x [Hx [E _]]].
  apply app_inj_tail in E as [-> _]. now exists x.
Qed.

Lemma get_rates_rows_sum_to_one_witness :
  exists f,
    get_rates outcomes_table [OFFICER_ID; DRIVER_RACE] STOP_OUTCOME = Ok (Some f)
    /\ forall r, In r (frows f) ->
         exists q, float_sum (cells_of f r) = Some q /\ (q == 1)%Q.
Proof.
  destruct (get_rates_rows_sum_to_one outcomes_table [OFFICER_ID; DRIVER_RACE]
              STOP_OUTCOME) as [f [Hf [_ Hplain]]].
  - discriminate.
  - reflexivity.
  - reflexivity.
  - apply no_missing_forallb. reflexivity.
  - exists f. split; [exact Hf|]. apply Hplain. reflexivity.
Defined.

(** The column types lines 79-80 and 87-88 leave in the concrete stops:
    the age category has the five labels as its categories, whether a
    driver of that age occurs or not; the race has the values that occur;
    the officer column is plain. *)
Lemma normalised_stops_categories :
  categories normalised_stops AGE_CAT = Some (map VStr AGE_LABELS)
  /\ categories normalised_stops DRIVER_RACE = Some [VStr "Black"; VStr "White"]
  /\ categories normalised_stops OFFICER_ID = None
  /\ column normalised_stops AGE_CAT
     = [VStr "juvenile"; VStr "young_adult"; VStr "senior"].
Proof.
  split; [reflexivity|]. split; [reflexivity|]. split; reflexivity.
Qed.

(** C5, as it is stated, fails on the tables the program makes: the age
    category is a categorical column, no stop of the table has an adult
    driver, and the row of the adults adds up to 0, not to 1. *)
Lemma get_rates_row_of_zeros :
  no_missing normalised_stops AGE_CAT
  /\ no_missing normalised_stops STOP_OUTCOME
  /\ exists f,
       get_rates normalised_stops [AGE_CAT] STOP_OUTCOME = Ok (Some f)
       /\ exists r, In r (frows f)
                    /\ fst r = [VStr "adult"]
                    /\ float_sum (cells_of f r) = Some 0%Q.
Proof.
  split; [apply no_missing_forallb; vm_compute; reflexivity|].
  split; [apply no_missing_forallb; vm_compute; reflexivity|].
  exists (rates_frame normalised_stops [AGE_CAT] STOP_OUTCOME).
  split; [apply get_rates_Ok; [discriminate | vm_compute; reflexivity
                               | vm_compute; reflexivity]|].
  exists (nth 2 (frows (rates_frame normalised_stops [AGE_CAT] STOP_OUTCOME))
            ([], fun _ => None)).
  split; [apply nth_In; vm_compute; lia|].
  split; vm_compute; reflexivity.
Qed.

(** C8, as the program has it.  Take a table, a non-empty list of group
    columns and an outcome column, all of them columns of the table, with
    no missing value in any of them.  Then [get_rates] returns a table with
    distinct rows and distinct columns.  It has a row for each combination
    of group values that occurs in the input and a column for each outcome
    that occurs; when one of the columns involved is categorical it has,
    beyond these, a row for every combination of values the grouping lists
    for the group columns and a column for every value it lists for the
    outcome column (the categories of a categorical column, whether they
    occur or not); and it has no other row or column.  The cell is 0 (not
    [NaN]) wherever no row of the input has the group and the outcome, and
    elsewhere the share of the rows of the group that have the outcome. *)
Theorem get_rates_shape (df : DataFrame) (cat_col : list string)
  (outcome_col : string) :
  cat_col <> [] ->
  forallb (has_column df) cat_col = true ->
  has_column df outcome_col = true ->
  (forall c, In c cat_col -> no_missing df c) ->
  no_missing df outcome_col ->
  exists f,
    get_rates df cat_col outcome_col = Ok (Some f)
    /\ NoDup (map fst (frows f))
    /\ (forall g, In g (map fst (frows f))
                  <-> (exists r, In r (rows df) /\ key_of cat_col r = g)
                      \/ (existsb (is_categorical df) (cat_col ++ [outcome_col]) = true
                          /\ Forall2 (listed df) cat_col g
                          /\ exists o, listed df outcome_col o))
    /\ NoDup (fcolumns f)
    /\ (forall o, In o (fcolumns f)
                  <-> (exists r, In r (rows df) /\ r outcome_col = o)
                      \/ (existsb (is_categorical df) (cat_col ++ [outcome_col]) = true
                          /\ listed df outcome_col o
                          /\ exists g, Forall2 (listed df) cat_col g))
    /\ (forall g cells o,
          In (g, cells) (frows f) ->
          (~ exists r, In r (rows df) /\ key_of cat_col r = g /\ r outcome_col = o) ->
          cells o = Some 0%Q)
    /\ (forall g cells o,
          In (g, cells) (frows f) ->
          (exists r, In r (rows df) /\ key_of cat_col r = g /\ r outcome_col = o) ->
          cells o
          = Some (Qred (Q_of_nat (count_rows df (cat_col ++ [outcome_col]) (g ++ [o]))
                        / Q_of_nat (count_rows df cat_col g)))).
Proof.
  intros Hne Hcat Hout Hmg Hmo.
  assert (Hnull : forall r, In r (rows df) -> has_null (key_of cat_col r) = false).
  { intros r Hr. now apply (no_missing_key df). }
  assert (Hom : forall r, In r (rows df) -> r outcome_col <> VNull).
  { unfold no_missing in Hmo. now rewrite Forall_forall in Hmo. }
  assert (Hcomb : forall g o,
             In (g ++ [o]) (group_keys df (cat_col ++ [outcome_col]))
             <-> exists r, In r (rows df) /\ key_of cat_col r = g /\ r outcome_col = o).
  { intros g o. rewrite group_keys_outcome. split.
    - intros [r [Hr [Hk _]]]. apply app_inj_tail in Hk as [-> ->]. now exists r.
    - intros [r [Hr [<- <-]]]. exists r. repeat split; auto. }
  assert (Hidx : forall g o,
             In (g ++ [o]) (group_index df (cat_col ++ [outcome_col]))
             <-> (exists r, In r (rows df) /\ key_of cat_col r = g /\ r outcome_col = o)
                 \/ (existsb (is_categorical df) (cat_col ++ [outcome_col]) = true
                     /\ Forall2 (listed df) cat_col g /\ listed df outcome_col o)).
  { intros g o. split.
    - intros H. pose proof H as H'. apply group_index_In in H' as [Hl [Hc|Hk]].
      + right. split; [exact Hc|]. apply listed_snoc in Hl as [g' [o' [E Hl]]].
        now apply app_inj_tail in E as [-> ->].
      + left. now apply Hcomb.
    - intros [Hr|[Hc [Hg Ho]]].
      + now apply group_keys_index, Hcomb.
      + apply group_index_In. split; [|now left].
        apply listed_snoc. now exists g, o. }
  exists (rates_frame df cat_col outcome_col).
  split; [now apply get_rates_Ok|].
  split; [apply rates_frame_index_NoDup|].
  split; [|split; [apply rates_frame_columns_NoDup|split; [|split]]].
  - intros g. rewrite rates_frame_index_In. split.
    + intros [o Hk]. apply Hidx in Hk as [[r [Hr [Hk _]]]|[Hc [Hg Ho]]].
      * left. now exists r.
      * right. split; [exact Hc|]. split; [exact Hg|]. now exists o.
    + intros [[r [Hr <-]]|[Hc [Hg [o Ho]]]].
      * exists (r outcome_col). apply Hidx. left. now exists r.
      * exists o. apply Hidx. now right.
  - intros o. rewrite rates_frame_column_In. split.
    + intros [g Hk]. apply Hidx in Hk as [[r [Hr [_ Ho]]]|[Hc [Hg Ho]]].
      * left. now exists r.
      * right. split; [exact Hc|]. split; [exact Ho|]. now exists g.
    + intros [[r [Hr <-]]|[Hc [Ho [g Hg]]]].
      * exists (key_of cat_col r). apply Hidx. left. now exists r.
      * exists g. apply Hidx. now right.
  - intros g cells o Hr Habs. rewrite (rates_frame_cell _ _ _ _ _ o Hr).
    rewrite <- Hcomb in Habs.
    rewrite (proj1 (count_occ_not_In key_eq_dec _ _) Habs), Qred_zero.
    now destruct (_ =? 0)%nat.
  - intros g cells o Hr Hpres. rewrite (rates_frame_cell _ _ _ _ _ o Hr).
    destruct Hpres as [r [Hin [Hk Ho]]].
    assert (Hg : has_null g = false) by (subst g; now apply Hnull).
    assert (Hgo : has_null (g ++ [o]) = false).
    { rewrite has_null_app, Hg. subst o. unfold has_null. cbn [existsb orb].
      apply orb_false_iff. split; [|reflexivity].
      now apply is_null_false, Hom. }
    rewrite !group_count_rows by assumption.
    assert (Hpos : (0 < count_rows df cat_col g)%nat).
    { unfold count_rows. apply count_occ_In, in_map_iff. now exists r. }
    destruct (count_rows df cat_col g =? 0)%nat eqn:E; [|reflexivity].
    apply Nat.eqb_eq in E. lia.
Qed.

Lemma get_rates_shape_witness :
  exists f,
    get_rates outcomes_table [OFFICER_ID] STOP_OUTCOME = Ok (Some f)
    /\ map fst (frows f) = [[VStr "O1"]; [VStr "O2"]]
    /\ fcolumns f = [VStr "Arrest"; VStr "Citation"]
    /\ (forall cells, In ([VStr "O2"], cells) (frows f) ->
                      cells (VStr "Arrest") = Some 0%Q).
Proof.
  destruct (get_rates_shape outcomes_table [OFFICER_ID] STOP_OUTCOME)
    as [f [Hf [_ [_ [_ [_ [Hzero _]]]]]]].
  - discriminate.
  - reflexivity.
  - reflexivity.
  - intros c [<-|[]]. apply no_missing_forallb. reflexivity.
  - apply no_missing_forallb. reflexivity.
  - exists f.
    assert (E : get_rates outcomes_table [OFFICER_ID] STOP_OUTCOME
                = Ok (Some (rates_frame outcomes_table [OFFICER_ID] STOP_OUTCOME))).
    { apply get_rates_Ok; [discriminate | reflexivity | reflexivity]. }
    rewrite Hf in E. injection E as E.
    split; [exact Hf|]. split; [subst f; vm_compute; reflexivity|].
    split; [subst f; vm_compute; reflexivity|].
    intros cells Hin. apply (Hzero _ cells (VStr "Arrest") Hin).
    intros [r [Hr [Hk Ho]]]. simpl in Hr.
    destruct Hr as [<-|[<-|[<-|[<-|[]]]]]; discriminate.
Defined.

(** C8, as it is stated, fails on the tables the program makes: no stop
    of the table has an adult driver, yet the rate table has a row for the
    adults, the age category being a categorical column. *)
Lemma get_rates_row_without_group :
  (forall c, In c [AGE_CAT] -> no_missing normalised_stops c)
  /\ no_missing normalised_stops STOP_OUTCOME
  /\ exists f,
       get_rates normalised_stops [AGE_CAT] STOP_OUTCOME = Ok (Some f)
       /\ In [VStr "adult"] (map fst (frows f))
       /\ ~ exists r, In r (rows normalised_stops)
                      /\ key_of [AGE_CAT] r = [VStr "adult"].
Proof.
  split; [intros c [<-|[]]; apply no_missing_forallb; vm_compute; reflexivity|].
  split; [apply no_missing_forallb; vm_compute; reflexivity|].
  exists (rates_frame normalised_stops [AGE_CAT] STOP_OUTCOME).
  split; [apply get_rates_Ok; [discriminate | vm_compute; reflexivity
                               | vm_compute; reflexivity]|].
  split.
  - replace (map fst (frows (rates_frame normalised_stops [AGE_CAT] STOP_OUTCOME)))
      with [[VStr "juvenile"]; [VStr "young_adult"]; [VStr "adult"];
            [VStr "middle_aged"]; [VStr "senior"]]
      by (vm_compute; reflexivity).
    cbn [In]. tauto.
  - intros [r [Hr Hk]].
    assert (Hall : forallb (fun r : row =>
                              negb (value_eqb (r AGE_CAT) (VStr "adult")))
                           (rows normalised_stops) = true)
      by (vm_compute; reflexivity).
    rewrite forallb_forall in Hall. specialize (Hall r Hr).
    unfold key_of in Hk. cbn [map] in Hk. injection Hk as Hk.
    rewrite Hk, value_eqb_refl in Hall. discriminate.
Qed.

(** ** Range filters keep both endpoints *)




(** ** Unknown columns *)

Lemma py_le_Raise (a b : value) (e : exn) : py_le a b = Raise e -> e = TypeError.
Proof.
  destruct a as [| [|] | |], b as [| [|] | |]; simpl; congruence.
Qed.

Lemma between_cell_Raise (low high x : value) (e : exn) :
  between_cell low high x = Raise e -> e = TypeError.
Proof.
  unfold between_cell. destruct (is_null x); [discriminate|].
  destruct (py_le low x) as [a|e1] eqn:H1; simpl.
  - destruct (py_le x high) as [b|e2] eqn:H2; simpl; [discriminate|].
    intros H. injection H as <-. now apply py_le_Raise in H2.
  - intros H. injection H as <-. now apply py_le_Raise in H1.
Qed.

Lemma mapM_Raise {A B : Type} (f : A -> result B) (l : list A) (e : exn) :
  (forall a e', In a l -> f a = Raise e' -> e' = e) ->
  (exists a e', In a l /\ f a = Raise e') ->
  mapM f l = Raise e.
Proof.
  intros Honly [a [e' [Hin Ha]]]. induction l as [|b l IH]; [contradiction|].
  simpl. destruct (f b) as [y|e1] eqn:Hb; simpl.
  - destruct Hin as [->|Hin]; [congruence|].
    rewrite IH; [reflexivity | | assumption].
    intros a0 e0 H0. apply Honly. now right.
  - f_equal. apply (Honly b); [now left | assumption].
Qed.





Lemma forallb_has_column_missing (df : DataFrame) (keys : list string) (key : string) :
  has_column df key = false -> In key keys -> forallb (has_column df) keys = false.
Proof.
  intros Hkey Hin. apply not_true_is_false. intros H.
  rewrite forallb_forall in H. rewrite (H key Hin) in Hkey. discriminate.
Qed.




(** ** Summary statistics *)

(** C2, as the program has it.  [get_summary_statistics] returns [None],
    without raising, when the list of group columns is empty or names a
    column the table does not have.  The column to aggregate is not
    checked: with group columns that all exist, an unknown column to
    aggregate raises [KeyError]. *)
Theorem get_summary_statistics_None (df : DataFrame) (group_col_list : list string)
  (summary_col : string) :
  (group_col_list = []
   \/ (exists c, In c group_col_list /\ has_column df c = false) ->
   get_summary_statistics df group_col_list summary_col = Ok None)
  /\ (group_col_list <> [] ->
      forallb (has_column df) group_col_list = true ->
      has_column df summary_col = false ->
      get_summary_statistics df group_col_list summary_col = Raise KeyError).
Proof.
  unfold get_summary_statistics. split.
  - intros [->|[c [Hin Hc]]]; [reflexivity|].
    destruct (length group_col_list =? 0)%nat; [reflexivity|].
    now rewrite (forallb_has_column_missing df _ c).
  - intros Hne Hcols Hsum. destruct group_col_list; [contradiction|].
    simpl length. simpl Nat.eqb. cbv iota. rewrite Hcols. simpl negb. cbv iota.
    unfold getitem. now rewrite Hsum.
Qed.

Lemma get_summary_statistics_None_witness :
  get_summary_statistics outcomes_table [] STOP_OUTCOME = Ok None
  /\ get_summary_statistics outcomes_table [OFFICER_ID; DRIVER_AGE] STOP_OUTCOME
     = Ok None
  /\ get_summary_statistics outcomes_table [OFFICER_ID] DRIVER_AGE = Raise KeyError.
Proof.
  split; [|split].
  - apply (proj1 (get_summary_statistics_None outcomes_table [] STOP_OUTCOME)).
    now left.
  - apply (proj1 (get_summary_statistics_None outcomes_table
                    [OFFICER_ID; DRIVER_AGE] STOP_OUTCOME)).
    right. exists DRIVER_AGE. split; [simpl; auto | reflexivity].
  - apply (proj2 (get_summary_statistics_None outcomes_table [OFFICER_ID] DRIVER_AGE));
      [discriminate | reflexivity | reflexivity].
Defined.

(** C2, as it is stated, fails: the column to aggregate is unknown, and the
    call raises instead of returning [None]. *)
Lemma get_summary_statistics_unknown_value_column :
  get_summary_statistics outcomes_table [OFFICER_ID] DRIVER_AGE <> Ok None.
Proof. discriminate. Qed.

(** ** The join and the search-conducted column *)

Lemma append_x_search_conducted (c : string) :
  String.append c "_x" <> SEARCH_CONDUCTED.
Proof.
  unfold SEARCH_CONDUCTED. intros H.
  repeat (destruct c as [|? c]; simpl in H; [discriminate H|];
          try discriminate H; injection H as Ha H; clear Ha).
Qed.

Lemma append_y_search_conducted (c : string) :
  String.append c "_y" <> SEARCH_CONDUCTED.
Proof.
  unfold SEARCH_CONDUCTED. intros H.
  repeat (destruct c as [|? c]; simpl in H; [discriminate H|];
          try discriminate H; injection H as Ha H; clear Ha).
Qed.

Lemma suffixed_search_conducted (others : list string) (suffix c : string) :
  suffix = "_x" \/ suffix = "_y" ->
  suffixed others suffix c = SEARCH_CONDUCTED ->
  c = SEARCH_CONDUCTED /\ existsb (String.eqb c) others = false.
Proof.
  unfold suffixed. intros Hs H. destruct (existsb (String.eqb c) others).
  - exfalso. destruct Hs as [-> | ->].
    + exact (append_x_search_conducted c H).
    + exact (append_y_search_conducted c H).
  - now split.
Qed.

Lemma existsb_eqb_In (c : string) (l : list string) :
  existsb (String.eqb c) l = true <-> In c l.
Proof.
  rewrite existsb_exists. split.
  - intros [c' [Hc He]]. apply String.eqb_eq in He. now subst.
  - intros H. exists c. split; [assumption | apply String.eqb_refl].
Qed.

(** The search-conducted cell of a joined row, when the left table has no
    such column: the cell of the matching right row, or missing. *)
Lemma joined_row_search_conducted (lcols rcols : list string) (l : row)
  (r : option row) :
  existsb (String.eqb SEARCH_CONDUCTED) lcols = false ->
  joined_row lcols rcols l r SEARCH_CONDUCTED
  = match r with
    | Some r =>
        if existsb (String.eqb SEARCH_CONDUCTED) rcols then r SEARCH_CONDUCTED
        else VNull
    | None => VNull
    end.
Proof.
  intros Hl. unfold joined_row.
  destruct (find _ lcols) as [c0|] eqn:Hfl.
  - apply find_some in Hfl as [Hin He]. apply String.eqb_eq in He.
    apply suffixed_search_conducted in He as [-> _]; [|now left].
    apply existsb_eqb_In in Hin. congruence.
  - destruct (find _ rcols) as [c0|] eqn:Hfr.
    + apply find_some in Hfr as [Hin He]. apply String.eqb_eq in He.
      apply suffixed_search_conducted in He as [-> _]; [|now right].
      apply existsb_eqb_In in Hin. rewrite Hin. reflexivity.
    + destruct r as [r|]; [|reflexivity].
      destruct (existsb (String.eqb SEARCH_CONDUCTED) rcols) eqn:Hr; [|reflexivity].
      apply existsb_eqb_In in Hr.
      apply (find_none _ _ Hfr) in Hr. unfold suffixed in Hr. rewrite Hl in Hr.
      now rewrite String.eqb_refl in Hr.
Qed.

Lemma merge_left_search_conducted (stops searches merged : DataFrame) :
  merge_left stops searches STOP_ID = Ok merged ->
  has_column stops SEARCH_CONDUCTED = false ->
  has_column merged SEARCH_CONDUCTED = has_column searches SEARCH_CONDUCTED
  /\ Forall (fun m : row =>
               m SEARCH_CONDUCTED = VNull
               \/ exists r, In r (rows searches)
                            /\ m SEARCH_CONDUCTED = r SEARCH_CONDUCTED)
            (rows merged).
Proof.
  unfold merge_left. intros Hm Hs.
  destruct (has_column stops STOP_ID && has_column searches STOP_ID); [|discriminate].
  injection Hm as <-. cbn [columns rows]. split.
  - unfold has_column at 1. cbn [columns]. apply eq_iff_eq_true.
    rewrite existsb_app, orb_true_iff, !existsb_eqb_In, !in_map_iff.
    unfold has_column. rewrite existsb_eqb_In. split.
    + intros [[c [Hc Hin]]|[c [Hc Hin]]].
      * apply suffixed_search_conducted in Hc as [-> _]; [|now left].
        apply existsb_eqb_In in Hin. unfold has_column in Hs. congruence.
      * apply suffixed_search_conducted in Hc as [-> _]; [|now right].
        now apply filter_In in Hin.
    + intros Hin. right. exists SEARCH_CONDUCTED. split.
      * unfold suffixed. unfold has_column in Hs. now rewrite Hs.
      * apply filter_In. split; [assumption | reflexivity].
  - apply Forall_forall. intros m Hin. apply in_flat_map in Hin as [l [_ Hin]].
    destruct (filter _ (rows searches)) as [|r0 rs] eqn:Hf.
    + destruct Hin as [<-|[]]. left. now rewrite joined_row_search_conducted.
    + assert (Hex : exists r, In r (r0 :: rs)
                                /\ joined_row (columns stops)
                                     (filter (fun c => negb (String.eqb c STOP_ID))
                                             (columns searches)) l (Some r) = m).
      { destruct Hin as [<-|Hin]; [exists r0; split; [now left | reflexivity]|].
        apply in_map_iff in Hin as [r [<- Hr]].
        exists r. split; [now right | reflexivity]. }
      destruct Hex as [r [Hr <-]].
      rewrite joined_row_search_conducted by exact Hs.
      destruct (existsb _ _); [|now left]. right. exists r. split; [|reflexivity].
      rewrite <- Hf in Hr. now apply filter_In in Hr.
Qed.

(** When both tables carry a search-conducted column the join renames
    both, and the joined table has no column of that name. *)
Lemma merge_left_both_supplied (stops searches merged : DataFrame) :
  merge_left stops searches STOP_ID = Ok merged ->
  has_column stops SEARCH_CONDUCTED = true ->
  has_column searches SEARCH_CONDUCTED = true ->
  has_column merged SEARCH_CONDUCTED = false.
Proof.
  unfold merge_left. intros Hm Hs Hr.
  destruct (has_column stops STOP_ID && has_column searches STOP_ID); [|discriminate].
  injection Hm as <-. unfold has_column at 1. cbn [columns].
  apply not_true_is_false. intros H.
  rewrite existsb_app, orb_true_iff, !existsb_eqb_In, !in_map_iff in H.
  destruct H as [[c [Hc Hin]]|[c [Hc Hin]]].
  - apply suffixed_search_conducted in Hc as [-> Hno]; [|now left].
    apply not_true_iff_false in Hno. apply Hno. apply existsb_eqb_In.
    apply filter_In. split; [|reflexivity].
    now apply existsb_eqb_In.
  - apply suffixed_search_conducted in Hc as [-> Hno]; [|now right].
    unfold has_column in Hs. congruence.
Qed.

Lemma derive_without_type (merged : DataFrame) :
  has_column merged SEARCH_CONDUCTED = false ->
  has_column merged SEARCH_TYPE = false ->
  derive_search_conducted merged = Raise KeyError.
Proof.
  intros Hc Ht. unfold derive_search_conducted, getitem. now rewrite Hc, Ht.
Qed.

Lemma is_searching_type_iff (v : value) :
  is_searching_type v = true
  <-> v = VStr "Probable Cause" \/ v = VStr "Incident to Arrest".
Proof.
  unfold is_searching_type, SEARCHING_TYPES. simpl.
  rewrite !orb_true_iff, !value_eqb_eq. intuition discriminate.
Qed.

Lemma derive_supplied (merged : DataFrame) :
  has_column merged SEARCH_CONDUCTED = true ->
  derive_search_conducted merged
  = Ok (mkDF (columns merged)
          (map (fun r : row =>
                  set_cell r SEARCH_CONDUCTED
                    (if is_null (r SEARCH_CONDUCTED) then VBool false
                     else r SEARCH_CONDUCTED))
               (rows merged))
          (set_dtype (categories merged) SEARCH_CONDUCTED None)).
Proof.
  intros Hc. unfold derive_search_conducted. rewrite Hc.
  rewrite (getitem_has _ _ Hc), bind_Ok. cbv beta. unfold setitem, setitem_as, fillna.
  rewrite !length_map, Nat.eqb_refl, Hc. simpl negb. cbv iota.
  rewrite map_map.
  now rewrite (set_cells_map (rows merged) SEARCH_CONDUCTED
                 (fun r => if is_null (r SEARCH_CONDUCTED) then VBool false
                           else r SEARCH_CONDUCTED)).
Qed.

Lemma derive_from_type (merged : DataFrame) :
  has_column merged SEARCH_CONDUCTED = false ->
  has_column merged SEARCH_TYPE = true ->
  derive_search_conducted merged
  = Ok (mkDF (columns merged ++ [SEARCH_CONDUCTED])
          (map (fun r : row =>
                  set_cell r SEARCH_CONDUCTED (VBool (is_searching_type (r SEARCH_TYPE))))
               (rows merged))
          (set_dtype (categories merged) SEARCH_CONDUCTED None)).
Proof.
  intros Hc Ht. unfold derive_search_conducted. rewrite Hc.
  rewrite (getitem_has _ _ Ht), bind_Ok. cbv beta.
  unfold setitem, setitem_as, np_where, isin.
  rewrite !length_map, Nat.eqb_refl, Hc. simpl negb. cbv iota.
  rewrite !map_map.
  rewrite (set_cells_map (rows merged) SEARCH_CONDUCTED
             (fun r => if existsb (value_eqb (r SEARCH_TYPE)) SEARCHING_TYPES
                       then VBool true else VBool false)).
  do 2 f_equal. apply map_ext. intros r. unfold is_searching_type.
  now destruct (existsb _ _).
Qed.

Lemma map_set_cell_same (rs : list row) (key : string) (f : row -> value) :
  map (fun r : row => r key) (map (fun r : row => set_cell r key (f r)) rs)
  = map f rs.
Proof.
  rewrite map_map. apply map_ext. intros r. unfold set_cell.
  now rewrite String.eqb_refl.
Qed.

Lemma map_set_cell_other (rs : list row) (key c : string) (f : row -> value) :
  c <> key ->
  map (fun r : row => r c) (map (fun r : row => set_cell r key (f r)) rs)
  = map (fun r : row => r c) rs.
Proof.
  intros Hc. rewrite map_map. apply map_ext. intros r. unfold set_cell.
  apply String.eqb_neq in Hc. now rewrite Hc.
Qed.

(** C6.  In the join of the stops with the searches.  Where the stops
    carry no search-conducted column of their own: if the searches supply a
    [search_conducted] column, that column is kept (each joined cell is the
    cell of the matching search, or missing) with every missing cell
    replaced by [False]; otherwise a [search_conducted] column is appended
    that is [True] exactly on the rows whose search type is "Probable
    Cause" or "Incident to Arrest", and [False] on every other row,
    "Vehicle Inventory" and a missing search type included; the other
    columns are left as they are.  Where the stops and the searches both
    carry a [search_conducted] column, the join renames both and the joined
    table has no column of that name (line 233 is false): the supplied
    column is not kept, the column is derived from the search type when the
    joined table has one, and the call raises [KeyError] when it has
    none. *)
Theorem search_conducted_column (stops searches merged : DataFrame) :
  merge_left stops searches STOP_ID = Ok merged ->
  (has_column stops SEARCH_CONDUCTED = false ->
   (has_column searches SEARCH_CONDUCTED = true ->
    Forall (fun m : row =>
              m SEARCH_CONDUCTED = VNull
              \/ exists r, In r (rows searches)
                           /\ m SEARCH_CONDUCTED = r SEARCH_CONDUCTED)
           (rows merged)
    /\ exists prepared,
         derive_search_conducted merged = Ok prepared
         /\ columns prepared = columns merged
         /\ map (fun r : row => r SEARCH_CONDUCTED) (rows prepared)
            = map (fun r : row => if is_null (r SEARCH_CONDUCTED) then VBool false
                                  else r SEARCH_CONDUCTED) (rows merged)
         /\ forall c, c <> SEARCH_CONDUCTED ->
              map (fun r : row => r c) (rows prepared)
              = map (fun r : row => r c) (rows merged))
   /\ (has_column searches SEARCH_CONDUCTED = false ->
       has_column merged SEARCH_TYPE = true ->
       exists prepared,
         derive_search_conducted merged = Ok prepared
         /\ columns prepared = columns merged ++ [SEARCH_CONDUCTED]
         /\ map (fun r : row => r SEARCH_CONDUCTED) (rows prepared)
            = map (fun r : row => VBool (is_searching_type (r SEARCH_TYPE)))
                (rows merged)
         /\ forall c, c <> SEARCH_CONDUCTED ->
              map (fun r : row => r c) (rows prepared)
              = map (fun r : row => r c) (rows merged)))
  /\ (has_column stops SEARCH_CONDUCTED = true ->
      has_column searches SEARCH_CONDUCTED = true ->
      has_column merged SEARCH_CONDUCTED = false
      /\ (has_column merged SEARCH_TYPE = true ->
          exists prepared,
            derive_search_conducted merged = Ok prepared
            /\ columns prepared = columns merged ++ [SEARCH_CONDUCTED]
            /\ map (fun r : row => r SEARCH_CONDUCTED) (rows prepared)
               = map (fun r : row => VBool (is_searching_type (r SEARCH_TYPE)))
                   (rows merged)
            /\ forall c, c <> SEARCH_CONDUCTED ->
                 map (fun r : row => r c) (rows prepared)
                 = map (fun r : row => r c) (rows merged))
      /\ (has_column merged SEARCH_TYPE = false ->
          derive_search_conducted merged = Raise KeyError))
  /\ (forall v, is_searching_type v = true
                <-> v = VStr "Probable Cause" \/ v = VStr "Incident to Arrest")
  /\ is_searching_type (VStr "Vehicle Inventory") = false
  /\ is_searching_type VNull = false.
Proof.
  intros Hm.
  assert (Hderive : has_column merged SEARCH_CONDUCTED = false ->
                    has_column merged SEARCH_TYPE = true ->
                    exists prepared,
                      derive_search_conducted merged = Ok prepared
                      /\ columns prepared = columns merged ++ [SEARCH_CONDUCTED]
                      /\ map (fun r : row => r SEARCH_CONDUCTED) (rows prepared)
                         = map (fun r : row =>
                                  VBool (is_searching_type (r SEARCH_TYPE)))
                             (rows merged)
                      /\ forall c, c <> SEARCH_CONDUCTED ->
                           map (fun r : row => r c) (rows prepared)
                           = map (fun r : row => r c) (rows merged)).
  { intros Hsup Htype.
    eexists. split; [now apply derive_from_type|]. cbn [columns rows].
    split; [reflexivity|]. split.
    - apply (map_set_cell_same (rows merged) SEARCH_CONDUCTED
               (fun r => VBool (is_searching_type (r SEARCH_TYPE)))).
    - intros c Hc.
      now apply (map_set_cell_other (rows merged) SEARCH_CONDUCTED c
                   (fun r => VBool (is_searching_type (r SEARCH_TYPE)))). }
  split; [|split; [|split; [apply is_searching_type_iff | split; reflexivity]]].
  - intros Hs. destruct (merge_left_search_conducted _ _ _ Hm Hs) as [Hcol Hcells].
    split.
    + intros Hsup. split; [exact Hcells|]. rewrite <- Hcol in Hsup.
      eexists. split; [now apply derive_supplied|]. cbn [columns rows].
      split; [reflexivity|]. split.
      * apply (map_set_cell_same (rows merged) SEARCH_CONDUCTED
                 (fun r => if is_null (r SEARCH_CONDUCTED) then VBool false
                           else r SEARCH_CONDUCTED)).
      * intros c Hc.
        now apply (map_set_cell_other (rows merged) SEARCH_CONDUCTED c
                     (fun r => if is_null (r SEARCH_CONDUCTED) then VBool false
                               else r SEARCH_CONDUCTED)).
    + intros Hsup Htype. rewrite <- Hcol in Hsup. now apply Hderive.
  - intros Hs Hr.
    pose proof (merge_left_both_supplied _ _ _ Hm Hs Hr) as Hno.
    split; [exact Hno|]. split.
    + now apply Hderive.
    + now apply derive_without_type.
Qed.

Lemma search_conducted_column_witness :
  (exists prepared,
      derive_search_conducted joined_by_type = Ok prepared
      /\ map (fun r : row => r SEARCH_CONDUCTED) (rows prepared)
         = [VBool false; VBool true; VBool true; VBool false])
  /\ (exists prepared,
        derive_search_conducted joined_by_flag = Ok prepared
        /\ map (fun r : row => r SEARCH_CONDUCTED) (rows prepared)
           = [VBool false; VBool true; VBool false; VBool false]).
Proof.
  split.
  - destruct (search_conducted_column stops_table searches_by_type joined_by_type
                eq_refl) as [Hplain _].
    destruct (Hplain eq_refl) as [_ Hderived].
    destruct (Hderived eq_refl eq_refl) as [prepared [Hp [_ [Hcells _]]]].
    exists prepared. split; [exact Hp|]. rewrite Hcells. reflexivity.
  - destruct (search_conducted_column stops_table searches_by_flag joined_by_flag
                eq_refl) as [Hplain _].
    destruct (Hplain eq_refl) as [Hsupplied _].
    destruct (Hsupplied eq_refl) as [_ [prepared [Hp [_ [Hcells _]]]]].
    exists prepared. split; [exact Hp|]. rewrite Hcells. reflexivity.
Defined.

(** The searches supply the flags [False] and [True] for two stops that
    carry a flag of their own: the joined table holds the two columns under
    the labels [search_conducted_x] and [search_conducted_y], and the
    column the function works with is derived from the search types, here
    [True] and [False].  With searches that have no search type the call
    raises [KeyError]. *)
Lemma supplied_search_conducted_not_kept :
  has_column searches_flag_and_type SEARCH_CONDUCTED = true
  /\ column searches_flag_and_type SEARCH_CONDUCTED = [VBool false; VBool true]
  /\ (exists merged prepared,
        merge_left stops_with_flag searches_flag_and_type STOP_ID = Ok merged
        /\ columns merged
           = [STOP_ID; OFFICER_ID; "search_conducted_x"; "search_conducted_y";
              SEARCH_TYPE]
        /\ column merged "search_conducted_y" = [VBool false; VBool true]
        /\ derive_search_conducted merged = Ok prepared
        /\ column prepared SEARCH_CONDUCTED = [VBool true; VBool false])
  /\ compute_search_share stops_with_flag searches_by_flag [OFFICER_ID] 1
     = Raise KeyError.
Proof.
  split; [reflexivity|]. split; [reflexivity|]. split; [|reflexivity].
  eexists. eexists. split; [reflexivity|]. split; [reflexivity|].
  split; [reflexivity|]. split; reflexivity.
Qed.

(** ** The officers that are kept *)

Lemma group_index_single (df : DataFrame) (c : string) (k : list value) :
  In k (group_index df [c]) <-> exists v, k = [v] /\ listed df c v.
Proof.
  rewrite group_index_In. cbn [existsb]. rewrite orb_false_r. split.
  - intros [Hl _]. inversion Hl as [|c' v l k' Hv Hnil]; subst.
    inversion Hnil; subst. now exists v.
  - intros [v [-> Hv]]. split; [constructor; [exact Hv | constructor]|].
    unfold is_categorical. destruct Hv as [Hn [[cats [E _]]|[r [Hr Hrv]]]].
    + left. now rewrite E.
    + right. apply group_keys_In. exists r. split; [exact Hr|].
      unfold key_of, has_null. cbn [map existsb]. rewrite Hrv.
      split; [reflexivity|]. rewrite orb_false_r. now apply is_null_false.
Qed.

Lemma officer_count_In (df : DataFrame) (M_stops : Z) (e : list value * nat) :
  In e (entries (getitem_where (fun n => (M_stops <=? Z.of_nat n)%Z)
                   (group_sizes df [OFFICER_ID])))
  <-> exists v, listed df OFFICER_ID v
                /\ e = ([v], count_rows df [OFFICER_ID] [v])
                /\ (M_stops <= Z.of_nat (count_rows df [OFFICER_ID] [v]))%Z.
Proof.
  assert (Hcount : forall v, v <> VNull ->
            count_occ key_eq_dec (group_keys df [OFFICER_ID]) [v]
            = count_rows df [OFFICER_ID] [v]).
  { intros v Hv. apply group_count_rows. unfold has_null. cbn [existsb].
    rewrite orb_false_r. now apply is_null_false. }
  unfold getitem_where, group_sizes. cbn [entries].
  rewrite filter_In, in_map_iff. split.
  - intros [[k [<- Hk]] Hle]. apply group_index_single in Hk as [v [-> Hv]].
    cbn [snd] in Hle. apply Z.leb_le in Hle. exists v.
    rewrite (Hcount v (proj1 Hv)) in Hle |- *.
    split; [exact Hv|]. split; [reflexivity | exact Hle].
  - intros [v [Hv [-> Hle]]]. cbn [snd]. split.
    + exists [v]. split; [now rewrite (Hcount v (proj1 Hv))|].
      apply group_index_single. now exists v.
    + now apply Z.leb_le.
Qed.

Lemma meets_threshold_iff (df : DataFrame) (M_stops : Z) (r : row) :
  meets_threshold df M_stops r = true
  <-> r OFFICER_ID <> VNull
      /\ (M_stops <= Z.of_nat (count_rows df [OFFICER_ID] [r OFFICER_ID]))%Z.
Proof.
  unfold meets_threshold. rewrite andb_true_iff, negb_true_iff, Z.leb_le.
  destruct (r OFFICER_ID); simpl; intuition congruence.
Qed.

(** What lines 239-246 return: the rows of the officers with enough
    rows, when an officer the grouping lists has enough rows. *)
Lemma retain_officers_spec (df : DataFrame) (M_stops : Z) :
  has_column df OFFICER_ID = true ->
  retain_officers df M_stops
  = if existsb (fun v => (M_stops <=? Z.of_nat (count_rows df [OFFICER_ID] [v]))%Z)
               (level df OFFICER_ID)
    then Ok (Some (retained df M_stops))
    else Ok None.
Proof.
  intros Hcol. unfold retain_officers.
  rewrite groupby_size_Ok; [|discriminate | cbn [forallb]; now rewrite Hcol].
  rewrite bind_Ok. cbv beta.
  set (oc := getitem_where (fun n => (M_stops <=? Z.of_nat n)%Z)
               (group_sizes df [OFFICER_ID])).
  assert (Hidx : forall r, In r (rows df) ->
            existsb (value_eqb (r OFFICER_ID)) (index_values oc)
            = meets_threshold df M_stops r).
  { intros r Hr. apply eq_iff_eq_true.
    rewrite existsb_exists, meets_threshold_iff. split.
    - intros [v [Hv He]]. apply value_eqb_eq in He. subst v.
      unfold index_values in Hv. apply in_map_iff in Hv as [e [He Hin]].
      apply officer_count_In in Hin as [v [Hl [-> Hle]]].
      cbn [fst hd] in He. subst v. split; [exact (proj1 Hl) | exact Hle].
    - intros [Hn Hle]. exists (r OFFICER_ID). split; [|apply value_eqb_refl].
      unfold index_values. apply in_map_iff.
      exists ([r OFFICER_ID], count_rows df [OFFICER_ID] [r OFFICER_ID]).
      split; [reflexivity|]. apply officer_count_In. exists (r OFFICER_ID).
      split; [|now split]. split; [exact Hn|]. right. now exists r. }
  destruct (existsb _ (level df OFFICER_ID)) eqn:Hex.
  - apply existsb_exists in Hex as [v [Hv Hle]]. apply level_In in Hv.
    apply Z.leb_le in Hle.
    assert (Hin : In ([v], count_rows df [OFFICER_ID] [v]) (entries oc)).
    { apply officer_count_In. now exists v. }
    destruct (entries oc) as [|e oc'] eqn:Hoc; [contradiction|].
    cbn [length Nat.eqb]. rewrite (getitem_has _ _ Hcol), bind_Ok.
    do 2 f_equal. unfold getitem_mask, retained, isin. f_equal.
    rewrite map_map, select_map. apply filter_ext_in. exact Hidx.
  - destruct (entries oc) as [|e oc'] eqn:Hoc; [reflexivity|]. exfalso.
    assert (Hin : In e (entries oc)) by (rewrite Hoc; now left).
    apply officer_count_In in Hin as [v [Hv [_ Hle]]].
    apply not_true_iff_false in Hex. apply Hex, existsb_exists.
    exists v. split; [now apply level_In | now apply Z.leb_le].
Qed.

(** An officer that occurs in a row has at least that row. *)
Lemma officer_has_a_row (df : DataFrame) (r : row) :
  In r (rows df) -> (1 <= count_rows df [OFFICER_ID] [r OFFICER_ID])%nat.
Proof.
  intros Hr. unfold count_rows. apply count_occ_In.
  apply in_map_iff. now exists r.
Qed.

(** An officer with enough rows among the listed ones, and a row of an
    officer with enough rows: the same thing when the officers are a plain
    column, or the threshold is positive; and the second gives the first
    in any case. *)
Lemma listed_officer_rows (df : DataFrame) (M_stops : Z) :
  (existsb (meets_threshold df M_stops) (rows df) = true ->
   existsb (fun v => (M_stops <=? Z.of_nat (count_rows df [OFFICER_ID] [v]))%Z)
           (level df OFFICER_ID) = true)
  /\ (categories df OFFICER_ID = None \/ (0 < M_stops)%Z ->
      existsb (fun v => (M_stops <=? Z.of_nat (count_rows df [OFFICER_ID] [v]))%Z)
              (level df OFFICER_ID)
      = existsb (meets_threshold df M_stops) (rows df)).
Proof.
  assert (Hrow : existsb (meets_threshold df M_stops) (rows df) = true ->
            existsb (fun v => (M_stops <=? Z.of_nat (count_rows df [OFFICER_ID] [v]))%Z)
                    (level df OFFICER_ID) = true).
  { intros H. apply existsb_exists in H as [r [Hr Hmeet]].
    apply meets_threshold_iff in Hmeet as [Hn Hle]. apply existsb_exists.
    exists (r OFFICER_ID). split; [|now apply Z.leb_le].
    apply level_In. split; [exact Hn|]. right. now exists r. }
  split; [exact Hrow|]. intros Hguard. apply eq_iff_eq_true. split; [|exact Hrow].
  intros H. apply existsb_exists in H as [v [Hv Hle]]. apply level_In in Hv.
  apply Z.leb_le in Hle. apply existsb_exists.
  assert (Hocc : exists r, In r (rows df) /\ r OFFICER_ID = v).
  { destruct Hv as [Hn [[cats [E _]]|Hr]]; [|exact Hr].
    destruct Hguard as [Hplain|Hpos]; [congruence|].
    assert (Hc : (0 < count_rows df [OFFICER_ID] [v])%nat) by lia.
    unfold count_rows in Hc. apply count_occ_In, in_map_iff in Hc as [r [E' Hr]].
    exists r. split; [exact Hr|]. unfold key_of in E'. cbn [map] in E'.
    now injection E'. }
  destruct Hocc as [r [Hr <-]]. exists r. split; [exact Hr|].
  apply meets_threshold_iff. split; [exact (proj1 Hv) | exact Hle].
Qed.

Lemma compute_search_share_steps (stops searches : DataFrame) (cat_col : list string)
  (M_stops : Z) (merged prepared : DataFrame) :
  merge_left stops searches STOP_ID = Ok merged ->
  derive_search_conducted merged = Ok prepared ->
  has_column prepared OFFICER_ID = true ->
  compute_search_share stops searches cat_col M_stops
  = if existsb (fun v => (M_stops <=? Z.of_nat (count_rows prepared [OFFICER_ID] [v]))%Z)
               (level prepared OFFICER_ID)
    then new_df <- get_rates (retained prepared M_stops) cat_col SEARCH_CONDUCTED ;;
         sorted_df <- rank_by_search_share new_df ;;
         Ok (Some sorted_df)
    else Ok None.
Proof.
  intros Hm Hd Hcol. unfold compute_search_share.
  rewrite Hm, bind_Ok. cbv beta. rewrite Hd, bind_Ok. cbv beta.
  rewrite (retain_officers_spec _ _ Hcol).
  now destruct (existsb _ _).
Qed.

(** C7.  Let the join succeed and carry the officer column.  Then
    [compute_search_share] returns [None] exactly when no officer has at
    least [M_stops] joined rows: no officer the grouping lists, which for
    officers in a plain column, as the program reads them, or for a
    positive [M_stops], is to say that no row of the joined table belongs
    to an officer with at least [M_stops] joined rows.  Otherwise, when
    some listed officer has that many rows, the table handed to the rate
    computation holds exactly the joined rows of the officers with at least
    [M_stops] joined rows: every row of such an officer is in, every other
    row is out. *)
Theorem compute_search_share_threshold (stops searches : DataFrame)
  (cat_col : list string) (M_stops : Z) (merged prepared : DataFrame) :
  merge_left stops searches STOP_ID = Ok merged ->
  derive_search_conducted merged = Ok prepared ->
  has_column prepared OFFICER_ID = true ->
  (compute_search_share stops searches cat_col M_stops = Ok None
   <-> forall v, listed prepared OFFICER_ID v ->
         ~ (M_stops <= Z.of_nat (count_rows prepared [OFFICER_ID] [v]))%Z)
  /\ (categories prepared OFFICER_ID = None \/ (0 < M_stops)%Z ->
      (compute_search_share stops searches cat_col M_stops = Ok None
       <-> forall r, In r (rows prepared) ->
             ~ (r OFFICER_ID <> VNull
                /\ (M_stops
                    <= Z.of_nat (count_rows prepared [OFFICER_ID] [r OFFICER_ID]))%Z)))
  /\ ((exists v, listed prepared OFFICER_ID v
                 /\ (M_stops <= Z.of_nat (count_rows prepared [OFFICER_ID] [v]))%Z) ->
      retain_officers prepared M_stops = Ok (Some (retained prepared M_stops))
      /\ compute_search_share stops searches cat_col M_stops
         = (new_df <- get_rates (retained prepared M_stops) cat_col SEARCH_CONDUCTED ;;
            sorted_df <- rank_by_search_share new_df ;;
            Ok (Some sorted_df)))
  /\ (forall r, In r (rows (retained prepared M_stops))
                <-> In r (rows prepared)
                    /\ r OFFICER_ID <> VNull
                    /\ (M_stops
                        <= Z.of_nat (count_rows prepared [OFFICER_ID]
                                       [r OFFICER_ID]))%Z).
Proof.
  intros Hm Hd Hcol.
  pose proof (compute_search_share_steps _ _ cat_col M_stops _ _ Hm Hd Hcol) as Hsteps.
  destruct (listed_officer_rows prepared M_stops) as [Hrow Hsame].
  assert (Hnone : compute_search_share stops searches cat_col M_stops = Ok None
                  <-> existsb (fun v => (M_stops <=? Z.of_nat
                                           (count_rows prepared [OFFICER_ID] [v]))%Z)
                              (level prepared OFFICER_ID) = false).
  { rewrite Hsteps. destruct (existsb _ (level prepared OFFICER_ID)).
    - split; [|discriminate]. intros H. exfalso.
      destruct (get_rates _ _ _) as [new_df|]; [|discriminate].
      rewrite bind_Ok in H.
      destruct (rank_by_search_share new_df); discriminate.
    - now split. }
  split; [|split; [|split]].
  - rewrite Hnone. split.
    + intros Hex v Hv Hle. apply not_true_iff_false in Hex. apply Hex, existsb_exists.
      exists v. split; [now apply level_In | now apply Z.leb_le].
    + intros H. apply not_true_is_false. intros Hex.
      apply existsb_exists in Hex as [v [Hv Hle]].
      apply (H v); [now apply level_In | now apply Z.leb_le].
  - intros Hguard. rewrite Hnone, (Hsame Hguard). split.
    + intros Hex r Hr Hmeet. apply not_true_iff_false in Hex. apply Hex, existsb_exists.
      exists r. split; [assumption|]. now apply meets_threshold_iff.
    + intros H. apply not_true_is_false. intros Hex.
      apply existsb_exists in Hex as [r [Hr Hmeet]].
      apply (H r Hr). now apply meets_threshold_iff.
  - intros [v [Hv Hle]].
    assert (Hex : existsb (fun v => (M_stops <=? Z.of_nat
                                       (count_rows prepared [OFFICER_ID] [v]))%Z)
                          (level prepared OFFICER_ID) = true).
    { apply existsb_exists. exists v.
      split; [now apply level_In | now apply Z.leb_le]. }
    rewrite (retain_officers_spec _ _ Hcol), Hsteps, Hex. now split.
  - intros r. unfold retained. cbn [rows].
    now rewrite filter_In, meets_threshold_iff.
Qed.

Lemma compute_search_share_threshold_witness :
  compute_search_share stops_table searches_by_type [DRIVER_RACE] 5 = Ok None
  /\ map (fun r : row => r STOP_ID) (rows (retained prepared_by_type 2))
     = [num 1; num 2; num 4].
Proof.
  assert (Hm : merge_left stops_table searches_by_type STOP_ID = Ok joined_by_type)
    by (vm_compute; reflexivity).
  assert (Hd : derive_search_conducted joined_by_type = Ok prepared_by_type)
    by (vm_compute; reflexivity).
  assert (Hc : has_column prepared_by_type OFFICER_ID = true)
    by (vm_compute; reflexivity).
  destruct (compute_search_share_threshold stops_table searches_by_type
              [DRIVER_RACE] 5 joined_by_type prepared_by_type Hm Hd Hc)
    as [_ [Hrows _]].
  split.
  - apply Hrows; [right; lia|]. intros r Hr Hmeet. apply meets_threshold_iff in Hmeet.
    assert (Hall : forallb (fun r => negb (meets_threshold prepared_by_type 5 r))
                           (rows prepared_by_type) = true)
      by (vm_compute; reflexivity).
    rewrite forallb_forall in Hall. specialize (Hall r Hr).
    rewrite Hmeet in Hall. discriminate.
  - vm_compute. reflexivity.
Defined.

(** C10.  Let the join succeed and carry the officer column, let some
    officer have at least [M_stops] joined rows, and let some name in the
    list of group columns not be a column of the joined table.  Then
    [compute_search_share] raises: [get_rates] returns [None], and the
    shape of [None] is read ([AttributeError]). *)
Theorem compute_search_share_unknown_group_column (stops searches : DataFrame)
  (cat_col : list string) (M_stops : Z) (merged prepared : DataFrame) :
  merge_left stops searches STOP_ID = Ok merged ->
  derive_search_conducted merged = Ok prepared ->
  has_column prepared OFFICER_ID = true ->
  (exists r, In r (rows prepared)
             /\ r OFFICER_ID <> VNull
             /\ (M_stops
                 <= Z.of_nat (count_rows prepared [OFFICER_ID] [r OFFICER_ID]))%Z) ->
  (exists c, In c cat_col /\ has_column prepared c = false) ->
  get_rates (retained prepared M_stops) cat_col SEARCH_CONDUCTED = Ok None
  /\ compute_search_share stops searches cat_col M_stops = Raise AttributeError.
Proof.
  intros Hm Hd Hcol [r [Hr Hmeet]] [c [Hc Hmiss]].
  assert (Hnone : get_rates (retained prepared M_stops) cat_col SEARCH_CONDUCTED
                  = Ok None).
  { apply get_rates_None; [intros ->; contradiction|].
    apply andb_false_iff. left.
    now apply (forallb_has_column_missing (retained prepared M_stops) _ c). }
  split; [exact Hnone|].
  rewrite (compute_search_share_steps _ _ cat_col M_stops _ _ Hm Hd Hcol).
  assert (Hex : existsb (meets_threshold prepared M_stops) (rows prepared) = true).
  { apply existsb_exists. exists r. split; [assumption|].
    now apply meets_threshold_iff. }
  apply (proj1 (listed_officer_rows prepared M_stops)) in Hex.
  rewrite Hex, Hnone. reflexivity.
Qed.

Lemma compute_search_share_unknown_group_column_witness :
  compute_search_share stops_table searches_by_type [DRIVER_RACE; DRIVER_GENDER] 2
  = Raise AttributeError.
Proof.
  assert (Hm : merge_left stops_table searches_by_type STOP_ID = Ok joined_by_type)
    by (vm_compute; reflexivity).
  assert (Hd : derive_search_conducted joined_by_type = Ok prepared_by_type)
    by (vm_compute; reflexivity).
  assert (Hc : has_column prepared_by_type OFFICER_ID = true)
    by (vm_compute; reflexivity).
  assert (Hex : existsb (meets_threshold prepared_by_type 2)
                        (rows prepared_by_type) = true)
    by (vm_compute; reflexivity).
  apply existsb_exists in Hex as [r [Hr Hmeet]].
  apply meets_threshold_iff in Hmeet.
  assert (Hg : has_column prepared_by_type DRIVER_GENDER = false)
    by (vm_compute; reflexivity).
  destruct (compute_search_share_unknown_group_column stops_table searches_by_type
              [DRIVER_RACE; DRIVER_GENDER] 2 joined_by_type prepared_by_type Hm Hd Hc)
    as [_ Hraise].
  - now exists r.
  - exists DRIVER_GENDER. split; [right; now left | exact Hg].
  - exact Hraise.
Defined.

(** ** The ranking *)

Section InsertionSort.
Context {A : Type} (leb : A -> A -> bool).
Hypothesis leb_total : forall a b, leb a b = false -> leb b a = true.

Lemma insert_sorted_HdRel (a b : A) (l : list A) :
  HdRel (leb_rel leb) b l -> leb_rel leb b a ->
  HdRel (leb_rel leb) b (insert_sorted leb a l).
Proof.
  intros Hl Hba. destruct l as [|c l]; simpl; [now constructor|].
  destruct (leb a c); constructor; [assumption|]. now inversion Hl.
Qed.

Lemma insert_sorted_Sorted (a : A) (l : list A) :
  Sorted (leb_rel leb) l -> Sorted (leb_rel leb) (insert_sorted leb a l).
Proof.
  induction 1 as [|b l Hs IH Hhd]; simpl; [repeat constructor|].
  destruct (leb a b) eqn:Hab.
  - constructor; [now constructor | now constructor].
  - constructor; [assumption|].
    apply insert_sorted_HdRel; [assumption | now apply leb_total].
Qed.

Lemma isort_Sorted (l : list A) : Sorted (leb_rel leb) (isort leb l).
Proof.
  induction l as [|a l IH]; simpl; [constructor | now apply insert_sorted_Sorted].
Qed.
End InsertionSort.

Lemma Sorted_impl_In {A : Type} (R1 R2 : A -> A -> Prop) (l : list A) :
  (forall a b, In a l -> In b l -> R1 a b -> R2 a b) ->
  Sorted R1 l -> Sorted R2 l.
Proof.
  intros Himp Hs. induction Hs as [|a l Hs IH Hhd]; [constructor|].
  constructor.
  - apply IH. intros x y Hx Hy. apply Himp; now right.
  - destruct Hhd as [|b l' Hab]; constructor.
    apply Himp; [now left | right; now left | assumption].
Qed.

Lemma float_leb_total (a b : float) : float_leb a b = false -> float_leb b a = true.
Proof.
  destruct a as [x|], b as [y|]; simpl; try congruence. intros H.
  apply Qle_bool_iff. apply not_true_iff_false in H.
  rewrite Qle_bool_iff in H. apply Qnot_le_lt in H. now apply Qlt_le_weak.
Qed.

Lemma rate_le_trans (label : value) (r1 r2 r3 : list value * (value -> float)) :
  rate_le label r1 r2 -> rate_le label r2 r3 -> rate_le label r1 r3.
Proof.
  intros [a [b [Ha [Hb Hab]]]] [b' [c [Hb' [Hc Hbc]]]].
  rewrite Hb in Hb'. injection Hb' as <-.
  exists a, c. repeat split; try assumption. now apply Qle_trans with b.
Qed.

(** Sorting by a column without [NaN] puts the rows in ascending order. *)
Lemma sort_values_sorted (f t : Frame) (label : value) :
  sort_values f label = Ok t ->
  (forall r, In r (frows f) -> exists q, snd r label = Some q) ->
  In label (fcolumns f)
  /\ fcolumns t = fcolumns f
  /\ Permutation (frows t) (frows f)
  /\ StronglySorted (rate_le label) (frows t).
Proof.
  unfold sort_values. intros H Hsome.
  destruct (frame_has_column f label) eqn:Hhas; [|discriminate].
  injection H as <-. cbn [fcolumns frows]. split; [|split; [|split]].
  - unfold frame_has_column in Hhas. apply existsb_exists in Hhas as [o [Ho He]].
    apply value_eqb_eq in He. now subst.
  - reflexivity.
  - apply isort_perm.
  - apply Sorted_StronglySorted.
    + intros r1 r2 r3. apply rate_le_trans.
    + eapply Sorted_impl_In; [|apply isort_Sorted].
      * intros r1 r2 H1 H2 Hle. unfold leb_rel in Hle. apply isort_In in H1, H2.
        destruct (Hsome r1 H1) as [a Ha]. destruct (Hsome r2 H2) as [b Hb].
        exists a, b. repeat split; try assumption.
        rewrite Ha, Hb in Hle. now apply Qle_bool_iff.
      * intros r1 r2. apply float_leb_total.
Qed.

Lemma frame_setitem_cell (f : Frame) (label : value) (v : Q)
  (r : list value * (value -> float)) :
  In r (frows (frame_setitem f label v)) ->
  snd r label = Some v
  /\ exists r0, In r0 (frows f) /\ fst r = fst r0
                /\ forall o, o <> label -> snd r o = snd r0 o.
Proof.
  unfold frame_setitem. cbn [frows]. intros H.
  apply in_map_iff in H as [r0 [<- Hr0]]. cbn [fst snd]. split.
  - now rewrite value_eqb_refl.
  - exists r0. repeat split; [assumption|]. intros o Ho.
    destruct (value_eqb o label) eqn:E; [|reflexivity].
    apply value_eqb_eq in E. contradiction.
Qed.

Lemma frame_setitem_index (f : Frame) (label : value) (v : Q) :
  map fst (frows (frame_setitem f label v)) = map fst (frows f).
Proof. unfold frame_setitem. cbn [frows]. now rewrite map_map. Qed.

Lemma get_rates_Some (df : DataFrame) (cat_col : list string) (outcome_col : string)
  (f : Frame) :
  get_rates df cat_col outcome_col = Ok (Some f) ->
  f = rates_frame df cat_col outcome_col.
Proof.
  unfold get_rates. destruct (existsb _ cat_col); [discriminate|].
  unfold groupby_size. destruct cat_col as [|c cat_col]; [discriminate|].
  destruct (forallb (has_column df) (c :: cat_col)); [|discriminate].
  rewrite bind_Ok. cbv beta. rewrite <- app_comm_cons.
  destruct (forallb (has_column df) (c :: cat_col ++ [outcome_col])); [|discriminate].
  rewrite bind_Ok. intros H. injection H as <-. reflexivity.
Qed.

Lemma retain_officers_Some (df kept : DataFrame) (M_stops : Z) :
  retain_officers df M_stops = Ok (Some kept) -> kept = retained df M_stops.
Proof.
  intros H. destruct (has_column df OFFICER_ID) eqn:Hcol.
  - rewrite (retain_officers_spec _ _ Hcol) in H.
    destruct (existsb _ _); [|discriminate]. now injection H as <-.
  - unfold retain_officers, groupby_size in H. cbn [forallb] in H.
    rewrite Hcol in H. discriminate.
Qed.

Lemma rates_frame_cell_Some (df : DataFrame) (cat_col : list string)
  (outcome_col : string) (r : list value * (value -> float)) (o : value) :
  In r (frows (rates_frame df cat_col outcome_col)) -> exists q, snd r o = Some q.
Proof.
  destruct r as [g cells]. intros Hr. cbn [snd]. eexists.
  apply (rates_frame_cell _ _ _ _ _ o Hr).
Qed.

(** After the derivation every search-conducted cell is a boolean, when
    the cells of a supplied column are booleans or missing. *)
Lemma derive_search_conducted_bool (merged prepared : DataFrame) :
  derive_search_conducted merged = Ok prepared ->
  (has_column merged SEARCH_CONDUCTED = true ->
   Forall (fun m : row => bool_or_null (m SEARCH_CONDUCTED) = true) (rows merged)) ->
  Forall (fun r : row => exists b, r SEARCH_CONDUCTED = VBool b) (rows prepared).
Proof.
  intros Hd Hty. destruct (has_column merged SEARCH_CONDUCTED) eqn:Hc.
  - rewrite (derive_supplied _ Hc) in Hd. injection Hd as <-. cbn [rows].
    apply Forall_map. eapply Forall_impl; [|exact (Hty eq_refl)].
    intros m Hm. unfold set_cell. rewrite String.eqb_refl.
    cbv beta in Hm. revert Hm. destruct (m SEARCH_CONDUCTED); cbn [bool_or_null is_null];
      intros Hm; try discriminate Hm; eauto.
  - destruct (has_column merged SEARCH_TYPE) eqn:Ht.
    + rewrite (derive_from_type _ Hc Ht) in Hd. injection Hd as <-. cbn [rows].
      apply Forall_map, Forall_forall. intros m _. unfold set_cell.
      rewrite String.eqb_refl. eauto.
    + unfold derive_search_conducted, getitem in Hd. rewrite Hc, Ht in Hd.
      discriminate.
Qed.

Lemma two_labels (cols : list value) :
  NoDup cols ->
  (forall o, In o cols -> exists b, o = VBool b) ->
  In (VBool true) cols -> length cols <> 1%nat -> In (VBool false) cols.
Proof.
  intros Hnd Hb Ht Hlen.
  destruct cols as [|a [|b rest]]; [contradiction | contradiction|].
  destruct (Hb a (or_introl eq_refl)) as [[|] ->]; [|now left].
  destruct (Hb b (or_intror (or_introl eq_refl))) as [[|] ->]; [|right; now left].
  exfalso. inversion Hnd as [|x l Hnot _]; subst. apply Hnot. now left.
Qed.

Lemma same_cells_refl (cols : list value) (l : list (list value * (value -> float))) :
  Forall2 (same_cells cols) l l.
Proof. induction l; constructor; [now split | assumption]. Qed.

Lemma frame_setitem_rows (f : Frame) (label : value) (v : Q) :
  ~ In label (fcolumns f) ->
  Forall2 (same_cells (fcolumns f)) (frows (frame_setitem f label v)) (frows f).
Proof.
  intros Hno. unfold frame_setitem. cbn [frows].
  induction (frows f) as [|r l IH]; cbn [map]; constructor; [|exact IH].
  split; [reflexivity|]. intros o Ho. cbn [snd].
  destruct (value_eqb o label) eqn:E; [|reflexivity].
  apply value_eqb_eq in E. subst o. contradiction.
Qed.

Lemma Forall2_Permutation {A B : Type} (R : A -> B -> Prop) (l l' : list A)
  (m : list B) :
  Permutation l' l -> Forall2 R l m ->
  exists m', Permutation m' m /\ Forall2 R l' m'.
Proof.
  intros Hp. revert m. induction Hp as [|a l' l Hp IH|a b l|l1 l2 l3 H12 IH12 H23 IH23];
    intros m H.
  - inversion H; subst. exists []. split; constructor.
  - inversion H as [|a' x l0 m0 Hax Hlm]; subst.
    destruct (IH _ Hlm) as [m' [Hpm Hf]]. exists (x :: m').
    split; [now constructor | now constructor].
  - inversion H as [|b' x l0 m0 Hbx Hlm]; subst.
    inversion Hlm as [|a' y l1 m1 Hay Hlm']; subst.
    exists (y :: x :: m1). split; [apply perm_swap | now repeat constructor].
  - destruct (IH23 _ H) as [m2 [Hp2 Hf2]]. destruct (IH12 _ Hf2) as [m1 [Hp1 Hf1]].
    exists m1. split; [now transitivity m2 | exact Hf1].
Qed.

(** What the ranking returns, given a rate table whose columns are
    booleans. *)
Lemma rank_by_search_share_spec (f t : Frame) :
  rank_by_search_share (Some f) = Ok t ->
  NoDup (fcolumns f) ->
  (forall o, In o (fcolumns f) -> exists b, o = VBool b) ->
  (forall r o, In r (frows f) -> exists q, snd r o = Some q) ->
  In (VBool true) (fcolumns t)
  /\ In (VBool false) (fcolumns t)
  /\ StronglySorted (rate_le (VBool true)) (frows t)
  /\ (forall o, In o (fcolumns t)
                <-> In o (fcolumns f) \/ o = VBool true \/ o = VBool false)
  /\ (exists rs, Permutation rs (frows f)
                 /\ Forall2 (same_cells (fcolumns f)) (frows t) rs)
  /\ (~ In (VBool true) (fcolumns f) ->
      forall r, In r (frows t) -> snd r (VBool true) = Some 0%Q)
  /\ (~ In (VBool false) (fcolumns f) ->
      forall r, In r (frows t) -> snd r (VBool false) = Some 0%Q).
Proof.
  unfold rank_by_search_share. intros Hrank Hnd Hbool Hsome.
  set (f' := if (length (fcolumns f) =? 1)%nat
             then if frame_has_column f (VBool false)
                  then frame_setitem f (VBool true) 0%Q
                  else frame_setitem f (VBool false) 0%Q
             else f) in Hrank.
  assert (Hsome' : forall r, In r (frows f') -> exists q, snd r (VBool true) = Some q).
  { intros r Hr. subst f'.
    destruct (length (fcolumns f) =? 1)%nat; [|now apply Hsome].
    destruct (frame_has_column f (VBool false));
      apply frame_setitem_cell in Hr as [Hl [r0 [Hr0 [_ Hother]]]]; [eauto|].
    rewrite Hother by discriminate. now apply Hsome. }
  destruct (sort_values_sorted _ _ _ Hrank Hsome') as [Hin [Hcols [Hperm Hsorted]]].
  rewrite Hcols.
  assert (Hrows : forall r, In r (frows t) -> In r (frows f')).
  { intros r. apply Permutation_in. exact Hperm. }
  assert (Hhas : forall o, frame_has_column f o = true <-> In o (fcolumns f)).
  { intros o. unfold frame_has_column. rewrite existsb_exists. split.
    - intros [o' [Ho He]]. apply value_eqb_eq in He. now subst.
    - intros Ho. exists o. split; [assumption | apply value_eqb_refl]. }
  assert (Hone : (length (fcolumns f) =? 1)%nat = true ->
                 frame_has_column f (VBool false) = true ->
                 ~ In (VBool true) (fcolumns f)).
  { intros Hlen Hf Ht. apply Nat.eqb_eq in Hlen. apply Hhas in Hf.
    destruct (fcolumns f) as [|a [|b rest]]; try discriminate.
    destruct Hf as [->|[]]. destruct Ht as [E|[]]. discriminate. }
  assert (Hfalse : In (VBool false) (fcolumns f')).
  { subst f'. destruct (length (fcolumns f) =? 1)%nat eqn:Hlen.
    - destruct (frame_has_column f (VBool false)) eqn:Hf.
      + unfold frame_setitem. cbn [fcolumns].
        apply Hhas in Hf. destruct (frame_has_column f (VBool true));
          [assumption | apply in_or_app; now left].
      + unfold frame_setitem. cbn [fcolumns]. rewrite Hf.
        apply in_or_app. right. now left.
    - apply Nat.eqb_neq in Hlen. now apply two_labels. }
  assert (Hcolumns : forall o, In o (fcolumns f')
                               <-> In o (fcolumns f) \/ o = VBool true \/ o = VBool false).
  { intros o. split.
    - subst f'. destruct (length (fcolumns f) =? 1)%nat; [|now left].
      destruct (frame_has_column f (VBool false)) eqn:Hf;
        unfold frame_setitem; cbn [fcolumns].
      + destruct (frame_has_column f (VBool true)); [now left|].
        intros H. apply in_app_or in H as [H|[<-|[]]]; auto.
      + rewrite Hf. intros H. apply in_app_or in H as [H|[<-|[]]]; auto.
    - intros [Ho|[->| ->]]; [|exact Hin|exact Hfalse].
      subst f'. destruct (length (fcolumns f) =? 1)%nat; [|exact Ho].
      destruct (frame_has_column f (VBool false)) eqn:Hf;
        unfold frame_setitem; cbn [fcolumns].
      + destruct (frame_has_column f (VBool true));
          [exact Ho | apply in_or_app; now left].
      + rewrite Hf. apply in_or_app. now left. }
  assert (Hsame : Forall2 (same_cells (fcolumns f)) (frows f') (frows f)).
  { subst f'. destruct (length (fcolumns f) =? 1)%nat eqn:Hlen;
      [|apply same_cells_refl].
    destruct (frame_has_column f (VBool false)) eqn:Hf.
    - apply frame_setitem_rows. now apply Hone.
    - apply frame_setitem_rows. intros H. apply Hhas in H. congruence. }
  split; [exact Hin|]. split; [exact Hfalse|]. split; [exact Hsorted|].
  split; [exact Hcolumns|]. split; [|split].
  - apply (Forall2_Permutation _ _ _ _ Hperm Hsame).
  - intros Hno r Hr. apply Hrows in Hr. subst f'.
    destruct (length (fcolumns f) =? 1)%nat; [|contradiction].
    destruct (frame_has_column f (VBool false)) eqn:Hf.
    + now apply frame_setitem_cell in Hr as [Hl _].
    + exfalso. unfold frame_setitem in Hin. cbn [fcolumns] in Hin. rewrite Hf in Hin.
      apply in_app_or in Hin as [Hin|[Hin|[]]]; [contradiction | discriminate].
  - intros Hno r Hr. apply Hrows in Hr. subst f'.
    destruct (length (fcolumns f) =? 1)%nat eqn:Hlen.
    + destruct (frame_has_column f (VBool false)) eqn:Hf.
      * apply Hhas in Hf. contradiction.
      * now apply frame_setitem_cell in Hr as [Hl _].
    + exfalso. apply Nat.eqb_neq in Hlen. apply Hno. now apply two_labels.
Qed.

(** The search-conducted column is a plain column once it is derived. *)
Lemma derive_search_conducted_plain (merged prepared : DataFrame) :
  derive_search_conducted merged = Ok prepared ->
  categories prepared SEARCH_CONDUCTED = None.
Proof.
  unfold derive_search_conducted, setitem, setitem_as. intros H.
  destruct (has_column merged SEARCH_CONDUCTED).
  - destruct (getitem merged SEARCH_CONDUCTED) as [s|]; [|discriminate].
    rewrite bind_Ok in H. destruct (negb _); [discriminate|].
    injection H as <-. cbn [categories]. unfold set_dtype.
    now rewrite String.eqb_refl.
  - destruct (getitem merged SEARCH_TYPE) as [s|]; [|discriminate].
    rewrite bind_Ok in H. destruct (negb _); [discriminate|].
    injection H as <-. cbn [categories]. unfold set_dtype.
    now rewrite String.eqb_refl.
Qed.

(** The outcomes a rate table lists for a plain outcome column occur in
    the table. *)
Lemma rates_frame_column_plain (df : DataFrame) (cat_col : list string)
  (outcome_col : string) (o : value) :
  categories df outcome_col = None ->
  In o (fcolumns (rates_frame df cat_col outcome_col)) ->
  exists r, In r (rows df) /\ r outcome_col = o.
Proof.
  intros Hplain Ho. rewrite rates_frame_columns in Ho. apply filter_In in Ho as [Ho _].
  apply level_In in Ho as [_ [[cats [E _]]|Hr]]; [congruence | exact Hr].
Qed.

(** What [compute_search_share] is made of, when it returns a table. *)
Lemma compute_search_share_Some (stops searches : DataFrame) (cat_col : list string)
  (M_stops : Z) (t : Frame) :
  compute_search_share stops searches cat_col M_stops = Ok (Some t) ->
  exists merged prepared,
    merge_left stops searches STOP_ID = Ok merged
    /\ derive_search_conducted merged = Ok prepared
    /\ get_rates (retained prepared M_stops) cat_col SEARCH_CONDUCTED
       = Ok (Some (rates_frame (retained prepared M_stops) cat_col SEARCH_CONDUCTED))
    /\ rank_by_search_share
         (Some (rates_frame (retained prepared M_stops) cat_col SEARCH_CONDUCTED))
       = Ok t.
Proof.
  unfold compute_search_share.
  destruct (merge_left stops searches STOP_ID) as [merged|] eqn:Hm; [|discriminate].
  rewrite bind_Ok. cbv beta.
  destruct (derive_search_conducted merged) as [prepared|] eqn:Hd; [|discriminate].
  rewrite bind_Ok. cbv beta.
  destruct (retain_officers prepared M_stops) as [[kept|]|] eqn:Hr;
    [|discriminate|discriminate].
  rewrite bind_Ok. cbv beta.
  destruct (get_rates kept cat_col SEARCH_CONDUCTED) as [[f|]|] eqn:Hg;
    [|discriminate|discriminate].
  rewrite bind_Ok. cbv beta.
  destruct (rank_by_search_share (Some f)) as [sorted_df|] eqn:Hrank; [|discriminate].
  rewrite bind_Ok. intros H. injection H as <-.
  pose proof (get_rates_Some _ _ _ _ Hg) as Hf.
  pose proof (retain_officers_Some _ _ _ Hr) as Hk. subst kept f.
  exists merged, prepared. now repeat split.
Qed.

(** The search-conducted cells of the rows handed to the rate computation
    are booleans, under the conditions of the data model. *)
Lemma retained_search_conducted (stops searches merged prepared : DataFrame)
  (M_stops : Z) :
  has_column stops SEARCH_CONDUCTED = false ->
  (has_column searches SEARCH_CONDUCTED = true ->
   Forall (fun r : row => bool_or_null (r SEARCH_CONDUCTED) = true) (rows searches)) ->
  merge_left stops searches STOP_ID = Ok merged ->
  derive_search_conducted merged = Ok prepared ->
  categories (retained prepared M_stops) SEARCH_CONDUCTED = None
  /\ Forall (fun r : row => exists b, r SEARCH_CONDUCTED = VBool b)
            (rows (retained prepared M_stops)).
Proof.
  intros Hstops Hty Hm Hd. split.
  - unfold retained. cbn [categories]. now apply (derive_search_conducted_plain merged).
  - destruct (merge_left_search_conducted _ _ _ Hm Hstops) as [Hcol Hcells].
    assert (Hbool : Forall (fun r : row => exists b, r SEARCH_CONDUCTED = VBool b)
                           (rows prepared)).
    { apply (derive_search_conducted_bool merged); [assumption|].
      intros Hc. rewrite Hcol in Hc. specialize (Hty Hc).
      rewrite Forall_forall in *. intros m Hin.
      destruct (Hcells m Hin) as [E|[r [Hin' E]]]; rewrite E; [reflexivity|].
      now apply Hty. }
    unfold retained. cbn [rows]. rewrite Forall_forall in *. intros r Hr.
    apply filter_In in Hr as [Hr _]. now apply Hbool.
Qed.



(** * Further properties *)

(** ** The filters: repetition, order and composition *)

Lemma has_column_rows (df : DataFrame) (rs : list row) (keys : list string) :
  forallb (has_column (mkDF (columns df) rs (categories df))) keys
  = forallb (has_column df) keys.
Proof. reflexivity. Qed.

Lemma filter_twice {A : Type} (p : A -> bool) (l : list A) :
  filter p (filter p l) = filter p l.
Proof.
  rewrite filter_filter. apply filter_ext. intros a. apply andb_diag.
Qed.

Lemma le_holds_orderable (a b : value) : le_holds a b = true -> orderable a b = true.
Proof.
  destruct a as [| [|] | |], b as [| [|] | |]; simpl; congruence.
Qed.

(** A range filter that returns has found two bounds in every entry. *)
Lemma apply_range_filters_bounds (fi : list (string * list value))
  (df : DataFrame) (r : option DataFrame) :
  apply_range_filters df fi = Ok r ->
  forallb (has_column df) (map fst fi) = true ->
  Forall (fun e => exists low high rest, snd e = low :: high :: rest) fi.
Proof.
  revert df; induction fi as [|[key value] fi IH]; intros df; simpl; [constructor|].
  destruct (has_column df key) eqn:Hkey; simpl; [|discriminate].
  rewrite (getitem_has _ _ Hkey), bind_Ok.
  destruct value as [|low [|high rest]]; simpl; try discriminate.
  destruct (between _ low high) as [mask|]; simpl; [|discriminate].
  intros H Hcols. constructor; [cbn [snd]; eauto|].
  apply (IH _ H). now rewrite columns_mask.
Qed.

Lemma passes_range_comparable (df : DataFrame) (fi : list (string * list value))
  (e : string * list value) :
  In e fi ->
  (exists low high rest, snd e = low :: high :: rest) ->
  range_comparable
    (mkDF (columns df) (filter (fun r => forallb (passes_range r) fi) (rows df)) (categories df)) e
  = true.
Proof.
  intros Hin [low [high [rest Hb]]]. unfold range_comparable. rewrite Hb.
  cbn [rows]. apply forallb_forall. intros r Hr. apply filter_In in Hr as [_ Hr].
  rewrite forallb_forall in Hr. specialize (Hr e Hin).
  unfold passes_range in Hr. rewrite Hb in Hr.
  apply andb_prop in Hr as [Hr Hhi]. apply andb_prop in Hr as [_ Hlo].
  rewrite (le_holds_orderable _ _ Hlo), (le_holds_orderable _ _ Hhi).
  apply orb_true_r.
Qed.

(** Applying a filter map a second time changes nothing: the table a
    filter returns is returned again when the same filter is applied to
    it.  This holds for value filters and for range filters. *)
Theorem filters_idempotent (df t : DataFrame)
  (filter_info : list (string * list value)) :
  (apply_val_filters df filter_info = Ok (Some t) ->
   apply_val_filters t filter_info = Ok (Some t))
  /\ (apply_range_filters df filter_info = Ok (Some t) ->
      apply_range_filters t filter_info = Ok (Some t)).
Proof.
  split; intros H.
  - rewrite apply_val_filters_spec in H.
    destruct (forallb (has_column df) (map fst filter_info)) eqn:Hc; [|discriminate].
    injection H as <-. rewrite apply_val_filters_spec. cbn [columns rows].
    now rewrite has_column_rows, Hc, filter_twice.
  - pose proof (apply_range_filters_Some _ _ _ H) as [Hc Ht].
    pose proof (apply_range_filters_bounds _ _ _ H Hc) as Hb.
    subst t. rewrite apply_range_filters_spec.
    + cbn [columns rows]. now rewrite has_column_rows, Hc, filter_twice.
    + rewrite Forall_forall in *. intros e He _.
      apply passes_range_comparable; [assumption | now apply Hb].
Qed.

Lemma filters_idempotent_witness :
  apply_val_filters
    (mkDF (columns outcomes_table)
       (filter (fun r => forallb (passes_val r) [(OFFICER_ID, [VStr "O1"])])
               (rows outcomes_table)) (categories outcomes_table))
    [(OFFICER_ID, [VStr "O1"])]
  = Ok (Some (mkDF (columns outcomes_table)
                (filter (fun r => forallb (passes_val r) [(OFFICER_ID, [VStr "O1"])])
                        (rows outcomes_table)) (categories outcomes_table)))
  /\ apply_range_filters
       (mkDF (columns range_table)
          (filter (fun r => forallb (passes_range r) [(DRIVER_AGE, [num 21; num 36])])
                  (rows range_table)) (categories range_table))
       [(DRIVER_AGE, [num 21; num 36])]
     = Ok (Some (mkDF (columns range_table)
                   (filter (fun r => forallb (passes_range r)
                                       [(DRIVER_AGE, [num 21; num 36])])
                           (rows range_table)) (categories range_table))).
Proof.
  split.
  - apply (proj1 (filters_idempotent outcomes_table _ [(OFFICER_ID, [VStr "O1"])])).
    reflexivity.
  - apply (proj2 (filters_idempotent range_table _ [(DRIVER_AGE, [num 21; num 36])])).
    reflexivity.
Defined.




(** A filter map made of two parts filters like the first part followed by
    the second: the second part is applied to the table the first part
    returns, and [None] or an exception of the first part is the result. *)
Theorem filters_compose (df : DataFrame)
  (first second : list (string * list value)) :
  apply_val_filters df (first ++ second)
  = match apply_val_filters df first with
    | Ok (Some t) => apply_val_filters t second
    | other => other
    end
  /\ apply_range_filters df (first ++ second)
     = match apply_range_filters df first with
       | Ok (Some t) => apply_range_filters t second
       | other => other
       end.
Proof.
  split.
  - revert df; induction first as [|[key value] first IH]; intros df; [reflexivity|].
    simpl. destruct (has_column df key) eqn:Hkey; simpl; [|reflexivity].
    rewrite (getitem_has _ _ Hkey), !bind_Ok. apply IH.
  - revert df; induction first as [|[key value] first IH]; intros df; [reflexivity|].
    simpl. destruct (has_column df key) eqn:Hkey; simpl; [|reflexivity].
    rewrite (getitem_has _ _ Hkey), !bind_Ok.
    destruct (py_index value 0) as [low|]; [|reflexivity]. rewrite !bind_Ok.
    destruct (py_index value 1) as [high|]; [|reflexivity]. rewrite !bind_Ok.
    destruct (between _ low high) as [mask|]; [|reflexivity]. rewrite !bind_Ok.
    apply IH.
Qed.

(** ** Range filters: what is kept, and what raises *)

Lemma le_holds_numbers (a b : value) :
  le_holds a b = true ->
  (exists s t, a = VStr s /\ b = VStr t)
  \/ (exists p q, as_number a = Some p /\ as_number b = Some q /\ (p <= q)%Q).
Proof.
  destruct a as [| [|] | |], b as [| [|] | |]; simpl; try discriminate;
    intros H; try (left; eauto; fail);
    right; do 2 eexists; (split; [reflexivity|]); (split; [reflexivity|]);
    now apply Qle_bool_iff.
Qed.

(** A range filter never keeps a row whose cell in a filtered column is
    missing, and a numeric range whose upper bound is below its lower
    bound keeps no row at all. *)
Theorem range_filter_kept_rows (df t : DataFrame)
  (filter_info : list (string * list value)) :
  apply_range_filters df filter_info = Ok (Some t) ->
  (forall r e, In r (rows t) -> In e filter_info -> r (fst e) <> VNull)
  /\ (forall key (low high : Qc) rest,
        In (key, VNum low :: VNum high :: rest) filter_info ->
        (high < low)%Q -> rows t = []).
Proof.
  intros H. apply apply_range_filters_Some in H as [_ ->]. cbn [rows].
  assert (Hpass : forall r e,
             In r (filter (fun r => forallb (passes_range r) filter_info) (rows df)) ->
             In e filter_info -> passes_range r e = true).
  { intros r e Hr He. apply filter_In in Hr as [_ Hr].
    rewrite forallb_forall in Hr. now apply Hr. }
  split.
  - intros r e Hr He Hnull. specialize (Hpass r e Hr He).
    unfold passes_range in Hpass. rewrite Hnull in Hpass.
    destruct (snd e) as [|low [|high rest]]; discriminate.
  - intros key low high rest He Hlt.
    destruct (filter _ (rows df)) as [|r rs] eqn:Hf; [reflexivity|]. exfalso.
    specialize (Hpass r _ (or_introl eq_refl) He). unfold passes_range in Hpass. cbn [fst snd] in Hpass.
    apply andb_prop in Hpass as [Hp Hhi]. apply andb_prop in Hp as [_ Hlo].
    apply le_holds_numbers in Hlo as [[s [t' [E _]]]|[p [q [Ep [Eq Hpq]]]]];
      [discriminate|].
    apply le_holds_numbers in Hhi as [[s [t' [_ E]]]|[p' [q' [Ep' [Eq' Hpq']]]]];
      [discriminate|].
    cbn [as_number] in Ep, Eq'. injection Ep as <-. injection Eq' as <-.
    rewrite Eq in Ep'. injection Ep' as <-.
    apply (Qlt_irrefl low). apply Qle_lt_trans with high; [|assumption].
    now apply Qle_trans with q.
Qed.

Lemma range_filter_kept_rows_witness :
  exists t,
    apply_range_filters range_table [(DRIVER_AGE, [num 36; num 21])] = Ok (Some t)
    /\ rows t = [].
Proof.
  assert (H : apply_range_filters range_table [(DRIVER_AGE, [num 36; num 21])]
              = Ok (Some (mkDF [DRIVER_AGE] [] plain))) by reflexivity.
  exists (mkDF [DRIVER_AGE] [] plain). split; [exact H|].
  destruct (range_filter_kept_rows _ _ _ H) as [_ Hempty].
  apply (Hempty DRIVER_AGE (Q2Qc (inject_Z 36)) (Q2Qc (inject_Z 21)) []).
  - now left.
  - reflexivity.
Defined.

(** Errors of a range filter whose column exists.  A range with fewer than
    two bounds raises [IndexError], whatever the rows are.  Numeric bounds
    on a column that holds a string, and string bounds on a column that
    holds a number, raise [TypeError]. *)
Theorem range_filter_errors (df : DataFrame) (key : string) (bounds : list value)
  (rest : list (string * list value)) :
  has_column df key = true ->
  ((length bounds < 2)%nat ->
   apply_range_filters df ((key, bounds) :: rest) = Raise IndexError)
  /\ (forall (low high : Qc) more,
        bounds = VNum low :: VNum high :: more ->
        (exists r s, In r (rows df) /\ r key = VStr s) ->
        apply_range_filters df ((key, bounds) :: rest) = Raise TypeError)
  /\ (forall low high more,
        bounds = VStr low :: VStr high :: more ->
        (exists r (q : Qc), In r (rows df) /\ r key = VNum q) ->
        apply_range_filters df ((key, bounds) :: rest) = Raise TypeError).
Proof.
  intros Hkey. cbn [apply_range_filters]. rewrite Hkey. cbn [negb].
  rewrite (getitem_has _ _ Hkey), bind_Ok.
  split; [|split].
  - intros Hlen. destruct bounds as [|low [|high more]]; [reflexivity | reflexivity|].
    simpl in Hlen. lia.
  - intros low high more -> [r [s [Hr Hs]]]. cbn [py_index nth_error]. rewrite !bind_Ok.
    unfold between. rewrite mapM_Raise with (e := TypeError); [reflexivity | |].
    + intros a e' _. apply between_cell_Raise.
    + exists (r key), TypeError. split; [apply in_map_iff; now exists r|].
      rewrite Hs. reflexivity.
  - intros low high more -> [r [q [Hr Hq]]]. cbn [py_index nth_error]. rewrite !bind_Ok.
    unfold between. rewrite mapM_Raise with (e := TypeError); [reflexivity | |].
    + intros a e' _. apply between_cell_Raise.
    + exists (r key), TypeError. split; [apply in_map_iff; now exists r|].
      rewrite Hq. reflexivity.
Qed.

Lemma range_filter_errors_witness :
  apply_range_filters outcomes_table [(DRIVER_RACE, [num 1])] = Raise IndexError
  /\ apply_range_filters outcomes_table [(DRIVER_RACE, [num 1; num 5])]
     = Raise TypeError
  /\ apply_range_filters range_table [(DRIVER_AGE, [VStr "a"; VStr "z"])]
     = Raise TypeError.
Proof.
  split; [|split].
  - apply (proj1 (range_filter_errors outcomes_table DRIVER_RACE [num 1] [] eq_refl)).
    simpl. lia.
  - apply (proj1 (proj2 (range_filter_errors outcomes_table DRIVER_RACE
                           [num 1; num 5] [] eq_refl))
             (Q2Qc (inject_Z 1)) (Q2Qc (inject_Z 5)) []); [reflexivity|].
    exists (nth 0 (rows outcomes_table) (fun _ => VNull)), "White".
    split; [now left | reflexivity].
  - apply (proj2 (proj2 (range_filter_errors range_table DRIVER_AGE
                           [VStr "a"; VStr "z"] [] eq_refl)) "a" "z" []);
      [reflexivity|].
    exists (nth 0 (rows range_table) (fun _ => VNull)), (Q2Qc (inject_Z 20)).
    split; [now left | reflexivity].
Defined.



(** ** Rates: the three outcomes, and the range of a rate *)

(** [get_rates] raises exactly when it is given no group column
    ([ValueError], whatever the columns of the table are); with at least
    one group column it returns [None] when a group column or the outcome
    column is unknown, and the rate table otherwise. *)
Theorem get_rates_outcomes (df : DataFrame) (cat_col : list string)
  (outcome_col : string) :
  get_rates df cat_col outcome_col
  = match cat_col with
    | [] => Raise ValueError
    | _ :: _ =>
        if forallb (has_column df) cat_col && has_column df outcome_col
        then Ok (Some (rates_frame df cat_col outcome_col))
        else Ok None
    end.
Proof.
  destruct cat_col as [|c cat_col]; [reflexivity|].
  destruct (forallb (has_column df) (c :: cat_col) && has_column df outcome_col)
    eqn:Hcols.
  - apply andb_prop in Hcols as [Hcat Hout]. now apply get_rates_Ok.
  - now apply get_rates_None.
Qed.

Lemma Q_of_nat_le (n m : nat) : (n <= m)%nat -> (Q_of_nat n <= Q_of_nat m)%Q.
Proof. intros H. unfold Q_of_nat. rewrite <- Zle_Qle. lia. Qed.

Lemma Q_of_nat_pos (n : nat) : (0 < n)%nat -> (0 < Q_of_nat n)%Q.
Proof.
  intros H. unfold Q_of_nat. change 0%Q with (inject_Z 0). rewrite <- Zlt_Qlt. lia.
Qed.

Lemma share_bounds (n d : nat) :
  (n <= d)%nat -> (0 < d)%nat ->
  (0 <= Q_of_nat n / Q_of_nat d)%Q
  /\ (Q_of_nat n / Q_of_nat d <= 1)%Q
  /\ ((0 < Q_of_nat n / Q_of_nat d)%Q <-> (0 < n)%nat).
Proof.
  intros Hle Hd. pose proof (Q_of_nat_pos d Hd) as Hdq. split; [|split].
  - unfold Qdiv. apply Qmult_le_0_compat.
    + change 0%Q with (Q_of_nat 0). apply Q_of_nat_le. lia.
    + apply Qinv_le_0_compat. now apply Qlt_le_weak.
  - apply Qle_shift_div_r; [assumption|]. rewrite Qmult_1_l. now apply Q_of_nat_le.
  - split.
    + intros Hpos. destruct n as [|n]; [|lia]. exfalso.
      apply (Qlt_irrefl 0). eapply Qlt_le_trans; [exact Hpos|].
      unfold Qdiv, Q_of_nat. simpl. rewrite Qmult_0_l. apply Qle_refl.
    + intros Hn. apply Qlt_shift_div_l; [assumption|].
      rewrite Qmult_0_l. now apply Q_of_nat_pos.
Qed.


(** Every cell of the table [get_rates] returns is a rate between 0 and 1,
    never [NaN]; it is positive exactly when some row of the group has the
    outcome. *)
Theorem get_rates_cells (df : DataFrame) (cat_col : list string)
  (outcome_col : string) (f : Frame) :
  get_rates df cat_col outcome_col = Ok (Some f) ->
  forall r o,
    In r (frows f) ->
    exists q,
      snd r o = Some q
      /\ (0 <= q)%Q /\ (q <= 1)%Q
      /\ ((0 < q)%Q
          <-> exists x, In x (rows df)
                        /\ key_of cat_col x = fst r
                        /\ x outcome_col = o /\ o <> VNull).
Proof.
  intros Hf [g cells] o Hr. apply get_rates_Some in Hf. subst f. cbn [fst snd].
  assert (Hg : In g (map fst (frows (rates_frame df cat_col outcome_col)))).
  { apply in_map_iff. now exists (g, cells). }
  apply rates_frame_index_no_null in Hg.
  assert (Hrow : (exists x, In x (rows df)
                            /\ key_of cat_col x = g /\ x outcome_col = o /\ o <> VNull)
                 <-> In (g ++ [o]) (group_keys df (cat_col ++ [outcome_col]))).
  { rewrite group_keys_outcome. split.
    - intros [x [Hx [Hk [Ho Hn]]]]. exists x. subst g o. now repeat split.
    - intros [x [Hx [Hk [_ Ho]]]]. apply app_inj_tail in Hk as [-> ->].
      exists x. now repeat split. }
  pose proof (outcome_count_le df cat_col outcome_col g o) as Hle.
  rewrite (rates_frame_cell _ _ _ _ _ o Hr). eexists. split; [reflexivity|].
  destruct (count_occ key_eq_dec (group_keys df cat_col) g =? 0)%nat eqn:E.
  - apply Nat.eqb_eq in E. split; [apply Qle_refl|]. split; [discriminate|].
    rewrite Hrow. split.
    + intros H. exfalso. now apply (Qlt_irrefl 0).
    + intros H. apply (count_occ_In key_eq_dec) in H. lia.
  - apply Nat.eqb_neq in E.
    destruct (share_bounds _ _ Hle) as [H0 [H1 Hiff]]; [lia|].
    rewrite Qred_correct. split; [exact H0|]. split; [exact H1|].
    rewrite Hiff, Hrow. symmetry. apply (count_occ_In key_eq_dec).
Qed.

Lemma get_rates_cells_witness :
  exists q,
    snd (nth 0 (frows (rates_frame outcomes_table [OFFICER_ID] STOP_OUTCOME))
           ([], fun _ => None)) (VStr "Arrest") = Some q
    /\ (0 <= q)%Q /\ (q <= 1)%Q.
Proof.
  assert (Hf : get_rates outcomes_table [OFFICER_ID] STOP_OUTCOME
               = Ok (Some (rates_frame outcomes_table [OFFICER_ID] STOP_OUTCOME))).
  { apply get_rates_Ok; [discriminate | reflexivity | reflexivity]. }
  assert (Hr : In (nth 0 (frows (rates_frame outcomes_table [OFFICER_ID] STOP_OUTCOME))
                     ([], fun _ => None))
                  (frows (rates_frame outcomes_table [OFFICER_ID] STOP_OUTCOME))).
  { apply nth_In. vm_compute. lia. }
  destruct (get_rates_cells _ _ _ _ Hf _ (VStr "Arrest") Hr) as [q [Hq [H0 [H1 _]]]].
  exists q. split; [exact Hq | split; [exact H0 | exact H1]].
Defined.

(** ** Summary statistics: the table, and the single group *)

Lemma numbers_values (s : Series) :
  forallb (fun v => negb (is_string v)) s = true -> numbers s = Ok (values_of s).
Proof.
  induction s as [|v s IH]; [reflexivity|]. cbn [forallb]. intros H.
  apply andb_prop in H as [Hv Hs]. specialize (IH Hs).
  destruct v as [| [|] | |]; try discriminate; cbn [numbers values_of as_number];
    rewrite IH; reflexivity.
Qed.

Lemma numbers_string (s : Series) :
  existsb is_string s = true -> numbers s = Raise TypeError.
Proof.
  induction s as [|v s IH]; [discriminate|]. cbn [existsb]. intros H.
  destruct v as [| [|] | |]; cbn [is_string orb] in H; cbn [numbers as_number];
    try reflexivity; rewrite (IH H); reflexivity.
Qed.

Lemma forallb_map {A B : Type} (p : B -> bool) (f : A -> B) (l : list A) :
  forallb p (map f l) = forallb (fun a => p (f a)) l.
Proof. induction l as [|a l IH]; simpl; [reflexivity | now rewrite IH]. Qed.

(** What [get_summary_statistics] returns once its checks have passed and
    the column to aggregate holds no string. *)
Lemma get_summary_statistics_Ok (df : DataFrame) (group_col_list : list string)
  (summary_col : string) :
  group_col_list <> [] ->
  forallb (has_column df) group_col_list = true ->
  has_column df summary_col = true ->
  forallb (fun r : row => negb (is_string (r summary_col))) (rows df) = true ->
  get_summary_statistics df group_col_list summary_col
  = Ok (Some
          (map (fun k =>
                  mkAgg k
                    (median (group_values df group_col_list summary_col k))
                    (mean (group_values df group_col_list summary_col k))
                    (float_sub (mean (group_values df group_col_list summary_col k))
                       (mean (values_of (map (fun r : row => r summary_col)
                                               (rows df))))))
               (group_index df group_col_list))).
Proof.
  intros Hne Hcols Hsum Hnum. unfold get_summary_statistics.
  destruct group_col_list as [|c cs] eqn:Hg; [contradiction|]. rewrite <- Hg in *.
  replace (length group_col_list =? 0)%nat with false by (rewrite Hg; reflexivity).
  rewrite Hcols. cbn [negb]. rewrite (getitem_has _ _ Hsum), bind_Ok.
  rewrite numbers_values by (now rewrite forallb_map).
  rewrite bind_Ok. rewrite groupby_size_Ok by (assumption || (rewrite Hg; discriminate)).
  rewrite bind_Ok. rewrite group_sizes_keys.
  rewrite mapM_total
    with (g := fun k => (k, (median (group_values df group_col_list summary_col k),
                             mean (group_values df group_col_list summary_col k)))).
  - rewrite bind_Ok, map_map. reflexivity.
  - apply Forall_forall. intros k _. unfold group_values, group_rows.
    rewrite numbers_values; [reflexivity|]. rewrite forallb_map.
    now apply forallb_filter.
Qed.

Lemma singleton_list (k : list value) (l : list (list value)) :
  NoDup l -> (forall x, In x l <-> x = k) -> l = [k].
Proof.
  intros Hnd Hin. destruct l as [|a l].
  - exfalso. now apply (proj2 (Hin k) eq_refl).
  - assert (a = k) by (apply Hin; now left). subst a.
    destruct l as [|b l]; [reflexivity|]. exfalso.
    assert (b = k) by (apply Hin; right; now left). subst b.
    inversion Hnd as [|? ? Hnot _]; subst. apply Hnot. now left.
Qed.

(** When every row of the table lies in one and the same group, and the
    column to aggregate holds at least one number, the row of that group
    has a mean that does not differ from the global mean: its [mean_diff]
    is 0.  Any other row of the summary stands for a combination of
    categories that occurs in no row of the table, and holds [NaN] for the
    median, the mean and [mean_diff]; with plain group columns there is no
    such row, and the summary is the single row of the group. *)
Theorem single_group_mean_diff (df : DataFrame) (group_col_list : list string)
  (summary_col : string) (k : list value) :
  group_col_list <> [] ->
  forallb (has_column df) group_col_list = true ->
  has_column df summary_col = true ->
  forallb (fun r : row => negb (is_string (r summary_col))) (rows df) = true ->
  has_null k = false ->
  Forall (fun r : row => key_of group_col_list r = k) (rows df) ->
  values_of (map (fun r : row => r summary_col) (rows df)) <> [] ->
  exists table med m d,
    get_summary_statistics df group_col_list summary_col = Ok (Some table)
    /\ In (mkAgg k med (Some m) (Some d)) table
    /\ (d == 0)%Q
    /\ (forall a, In a table -> agg_key a <> k ->
          agg_median a = None /\ agg_mean a = None /\ mean_diff a = None)
    /\ (existsb (is_categorical df) group_col_list = false ->
        table = [mkAgg k med (Some m) (Some d)]).
Proof.
  intros Hne Hcols Hsum Hnum Hk Hall Hval.
  rewrite get_summary_statistics_Ok by assumption.
  assert (Hrow : exists r, In r (rows df)).
  { destruct (rows df) as [|r rs]; [exfalso; now apply Hval|]. exists r. now left. }
  assert (Hkeys : forall x, In x (group_keys df group_col_list) <-> x = k).
  { intros x. rewrite group_keys_In. rewrite Forall_forall in Hall. split.
    - intros [r [Hr [<- _]]]. now apply Hall.
    - intros ->. destruct Hrow as [r Hr]. exists r. split; [exact Hr|].
      split; [now apply Hall | exact Hk]. }
  assert (Hrows : group_rows df group_col_list k = rows df).
  { unfold group_rows. rewrite <- (filter_all (rows df)) at 2.
    apply filter_ext_in. intros r Hr. rewrite Forall_forall in Hall.
    rewrite (Hall r Hr). now destruct (key_eq_dec k k). }
  assert (Hnone : forall k', k' <> k -> group_rows df group_col_list k' = []).
  { intros k' Hk'. unfold group_rows.
    rewrite <- (filter_ext_in (fun _ => false)); [clear; now induction (rows df)|].
    intros r Hr. rewrite Forall_forall in Hall. rewrite (Hall r Hr).
    destruct (key_eq_dec k k'); [congruence | reflexivity]. }
  destruct (values_of (map (fun r : row => r summary_col) (rows df))) as [|v vs] eqn:Hv;
    [contradiction|].
  eexists. exists (median (v :: vs)).
  exists (Qsum (v :: vs) / Q_of_nat (length (v :: vs)))%Q.
  exists (Qsum (v :: vs) / Q_of_nat (length (v :: vs))
          - Qsum (v :: vs) / Q_of_nat (length (v :: vs)))%Q.
  split; [reflexivity|]. split; [|split; [ring|split]].
  - apply in_map_iff. exists k. split.
    + unfold group_values. rewrite Hrows, Hv. reflexivity.
    + now apply group_keys_index, Hkeys.
  - intros a Ha Hak. apply in_map_iff in Ha as [k' [<- _]]. cbn [agg_key] in Hak.
    cbn [agg_median agg_mean mean_diff]. unfold group_values.
    rewrite (Hnone k' Hak). now repeat split.
  - intros Hplain.
    rewrite (singleton_list k (group_index df group_col_list)).
    + cbn [map]. unfold group_values. rewrite Hrows, Hv. reflexivity.
    + apply group_index_NoDup.
    + intros x. now rewrite (group_index_plain _ _ _ Hplain).
Qed.

Lemma single_group_mean_diff_witness :
  exists med m d,
    get_summary_statistics one_officer_table [OFFICER_ID] DRIVER_AGE
    = Ok (Some [mkAgg [VStr "O1"] med (Some m) (Some d)])
    /\ (d == 0)%Q.
Proof.
  destruct (single_group_mean_diff one_officer_table [OFFICER_ID] DRIVER_AGE
              [VStr "O1"]) as [table [med [m [d [Ht [_ [Hd [_ Hplain]]]]]]]].
  - discriminate.
  - reflexivity.
  - reflexivity.
  - reflexivity.
  - reflexivity.
  - repeat constructor.
  - discriminate.
  - exists med, m, d. rewrite Ht, (Hplain eq_refl). now split.
Defined.

(** A string in the column to aggregate makes [get_summary_statistics]
    raise [TypeError], once the checks of the group columns have passed. *)
Theorem get_summary_statistics_string (df : DataFrame)
  (group_col_list : list string) (summary_col : string) :
  group_col_list <> [] ->
  forallb (has_column df) group_col_list = true ->
  has_column df summary_col = true ->
  existsb (fun r : row => is_string (r summary_col)) (rows df) = true ->
  get_summary_statistics df group_col_list summary_col = Raise TypeError.
Proof.
  intros Hne Hcols Hsum Hstr. unfold get_summary_statistics.
  destruct group_col_list as [|c cs] eqn:Hg; [contradiction|]. rewrite <- Hg in *.
  replace (length group_col_list =? 0)%nat with false by (rewrite Hg; reflexivity).
  rewrite Hcols. cbn [negb]. rewrite (getitem_has _ _ Hsum), bind_Ok.
  rewrite numbers_string; [reflexivity|].
  rewrite existsb_exists in *. destruct Hstr as [r [Hr Hs]].
  exists (r summary_col). split; [apply in_map_iff; now exists r | assumption].
Qed.

Lemma get_summary_statistics_string_witness :
  get_summary_statistics outcomes_table [OFFICER_ID] STOP_OUTCOME = Raise TypeError.
Proof.
  apply (get_summary_statistics_string outcomes_table [OFFICER_ID] STOP_OUTCOME).
  - discriminate.
  - reflexivity.
  - reflexivity.
  - reflexivity.
Defined.

(** ** The join: labels that carry no suffix *)

Lemma append_suffix_plain (c suffix label : string) :
  suffix = "_x" \/ suffix = "_y" ->
  In label [SEARCH_TYPE; STOP_ID; OFFICER_ID] ->
  String.append c suffix <> label.
Proof.
  unfold SEARCH_TYPE, STOP_ID, OFFICER_ID.
  intros [-> | ->] [<- | [<- | [<- | []]]] H;
    repeat (destruct c as [|? c]; simpl in H; [discriminate H|];
            try discriminate H; injection H as Ha H; clear Ha).
Qed.

Lemma suffixed_plain (others : list string) (suffix c label : string) :
  suffix = "_x" \/ suffix = "_y" ->
  In label [SEARCH_TYPE; STOP_ID; OFFICER_ID] ->
  suffixed others suffix c = label ->
  c = label /\ existsb (String.eqb c) others = false.
Proof.
  unfold suffixed. intros Hs Hl H. destruct (existsb (String.eqb c) others).
  - exfalso. exact (append_suffix_plain c suffix label Hs Hl H).
  - now split.
Qed.

(** A plain label of the left table that the right table does not have is
    read from the left row. *)
Lemma joined_row_left (lcols rcols : list string) (l : row) (r : option row)
  (label : string) :
  In label [SEARCH_TYPE; STOP_ID; OFFICER_ID] ->
  In label lcols ->
  existsb (String.eqb label) rcols = false ->
  joined_row lcols rcols l r label = l label.
Proof.
  intros Hplain Hin Hr. unfold joined_row.
  destruct (find _ lcols) as [c0|] eqn:Hf.
  - apply find_some in Hf as [_ He]. apply String.eqb_eq in He.
    apply suffixed_plain in He as [-> _]; [reflexivity | now left | assumption].
  - exfalso. apply (find_none _ _ Hf) in Hin.
    unfold suffixed in Hin. rewrite Hr in Hin. now rewrite String.eqb_refl in Hin.
Qed.

(** A plain label that the left table does not have is read from the
    matching right row, and is missing without one. *)
Lemma joined_row_right (lcols rcols : list string) (l : row) (r : option row)
  (label : string) :
  In label [SEARCH_TYPE; STOP_ID; OFFICER_ID] ->
  existsb (String.eqb label) lcols = false ->
  joined_row lcols rcols l r label
  = match r with
    | Some r => if existsb (String.eqb label) rcols then r label else VNull
    | None => VNull
    end.
Proof.
  intros Hplain Hl. unfold joined_row.
  destruct (find _ lcols) as [c0|] eqn:Hfl.
  - apply find_some in Hfl as [Hin He]. apply String.eqb_eq in He.
    apply suffixed_plain in He as [-> _]; [|now left|assumption].
    apply existsb_eqb_In in Hin. congruence.
  - destruct (find _ rcols) as [c0|] eqn:Hfr.
    + apply find_some in Hfr as [Hin He]. apply String.eqb_eq in He.
      apply suffixed_plain in He as [-> _]; [|now right|assumption].
      apply existsb_eqb_In in Hin. rewrite Hin. reflexivity.
    + destruct r as [r|]; [|reflexivity].
      destruct (existsb (String.eqb label) rcols) eqn:Hr; [|reflexivity].
      apply existsb_eqb_In in Hr.
      apply (find_none _ _ Hfr) in Hr. unfold suffixed in Hr. rewrite Hl in Hr.
      now rewrite String.eqb_refl in Hr.
Qed.

Lemma merge_left_Ok (left right : DataFrame) (on : string) (merged : DataFrame) :
  merge_left left right on = Ok merged ->
  has_column left on = true
  /\ has_column right on = true
  /\ rows merged
     = flat_map
         (fun l : row =>
            match filter (fun r : row => value_eqb (l on) (r on)) (rows right) with
            | [] => [joined_row (columns left)
                       (filter (fun c => negb (String.eqb c on)) (columns right))
                       l None]
            | matches =>
                map (fun r : row =>
                       joined_row (columns left)
                         (filter (fun c => negb (String.eqb c on)) (columns right))
                         l (Some r)) matches
            end) (rows left).
Proof.
  unfold merge_left. intros H.
  destruct (has_column left on) eqn:Hl; [|discriminate].
  destruct (has_column right on) eqn:Hr; [|discriminate].
  cbn [andb] in H. injection H as <-. now repeat split.
Qed.

Lemma key_not_in_right (on : string) (cols : list string) :
  existsb (String.eqb on) (filter (fun c => negb (String.eqb c on)) cols) = false.
Proof.
  apply not_true_iff_false. intros H. apply existsb_eqb_In in H.
  apply filter_In in H as [_ H]. now rewrite String.eqb_refl in H.
Qed.

(** ** The join keeps every stop *)

Lemma map_constant {A B : Type} (f : A -> B) (v : B) (l : list A) :
  (forall a, In a l -> f a = v) -> map f l = repeat v (length l).
Proof.
  induction l as [|a l IH]; intros H; simpl; [reflexivity|].
  rewrite (H a (or_introl eq_refl)), IH; [reflexivity|].
  intros a' Ha'. apply H. now right.
Qed.

Lemma map_flat_map {A B C : Type} (g : B -> C) (f : A -> list B) (l : list A) :
  map g (flat_map f l) = flat_map (fun a => map g (f a)) l.
Proof.
  induction l as [|a l IH]; simpl; [reflexivity|]. now rewrite map_app, IH.
Qed.

Lemma flat_map_length_le {A B : Type} (f : A -> list B) (l : list A) :
  (forall a, In a l -> (1 <= length (f a))%nat) ->
  (length l <= length (flat_map f l))%nat.
Proof.
  induction l as [|a l IH]; intros H; simpl; [lia|].
  rewrite length_app. specialize (H a (or_introl eq_refl)) as Ha.
  assert (length l <= length (flat_map f l))%nat by (apply IH; intros; apply H; now right).
  lia.
Qed.

Lemma matches_at_most_one (v : value) (l : list row) :
  NoDup (map (fun r : row => r STOP_ID) l) ->
  (length (filter (fun r : row => value_eqb v (r STOP_ID)) l) <= 1)%nat.
Proof.
  induction l as [|r l IH]; intros Hnd; cbn [filter map length]; [lia|].
  cbn [map] in Hnd. inversion Hnd as [|x xs Hnot Hnd']; subst.
  specialize (IH Hnd'). destruct (value_eqb v (r STOP_ID)) eqn:E; [|exact IH].
  apply value_eqb_eq in E. subst v.
  destruct (filter _ l) as [|r' rs] eqn:Hf; [cbn; lia|]. exfalso. apply Hnot.
  assert (Hin : In r' (filter (fun r0 : row => value_eqb (r STOP_ID) (r0 STOP_ID)) l))
    by (rewrite Hf; now left).
  apply filter_In in Hin as [Hin E]. apply value_eqb_eq in E. rewrite E.
  apply in_map_iff. now exists r'.
Qed.

(** The left join on the stop identifier keeps every stop, in order: the
    joined table lists each stop once for every search record with its
    identifier, and once when it has none.  So the joined table has at
    least as many rows as the stops table, a stop with several search
    records occupies several joined rows, and when no two search records
    share a stop identifier the joined rows are the stops, one for one. *)
Theorem merge_left_keeps_stops (stops searches merged : DataFrame) :
  merge_left stops searches STOP_ID = Ok merged ->
  map (fun m : row => m STOP_ID) (rows merged)
  = flat_map (fun l : row =>
                repeat (l STOP_ID) (Nat.max 1 (search_count searches (l STOP_ID))))
             (rows stops)
  /\ (length (rows stops) <= length (rows merged))%nat
  /\ (NoDup (map (fun r : row => r STOP_ID) (rows searches)) ->
      map (fun m : row => m STOP_ID) (rows merged)
      = map (fun l : row => l STOP_ID) (rows stops)).
Proof.
  intros Hm. apply merge_left_Ok in Hm as [Hl [Hr Hrows]]. rewrite Hrows.
  assert (Hid : forall l r,
             joined_row (columns stops)
               (filter (fun c => negb (String.eqb c STOP_ID)) (columns searches))
               l r STOP_ID = l STOP_ID).
  { intros l r. apply joined_row_left.
    - right. now left.
    - now apply has_column_In.
    - apply key_not_in_right. }
  assert (Hflat : map (fun m : row => m STOP_ID)
                    (flat_map
                       (fun l : row =>
                          match filter (fun r : row => value_eqb (l STOP_ID) (r STOP_ID))
                                  (rows searches) with
                          | [] => [joined_row (columns stops)
                                     (filter (fun c => negb (String.eqb c STOP_ID))
                                             (columns searches)) l None]
                          | matches =>
                              map (fun r : row =>
                                     joined_row (columns stops)
                                       (filter (fun c => negb (String.eqb c STOP_ID))
                                               (columns searches)) l (Some r)) matches
                          end) (rows stops))
                  = flat_map (fun l : row =>
                                repeat (l STOP_ID)
                                  (Nat.max 1 (search_count searches (l STOP_ID))))
                             (rows stops)).
  { rewrite map_flat_map. apply flat_map_ext. intros l. unfold search_count.
    destruct (filter _ (rows searches)) as [|r0 rs].
    - cbn [map length Nat.max repeat]. now rewrite Hid.
    - rewrite map_map.
      rewrite (map_constant _ (l STOP_ID)) by (intros; apply Hid).
      f_equal; cbn [length]; lia. }
  split; [exact Hflat|]. split.
  - apply flat_map_length_le. intros l _.
    destruct (filter _ (rows searches)); cbn [length]; [lia|].
    rewrite length_map. cbn [length]. lia.
  - intros Hnd. rewrite Hflat. clear Hrows Hflat.
    induction (rows stops) as [|l ls IH]; [reflexivity|]. cbn [flat_map map].
    rewrite IH. unfold search_count.
    pose proof (matches_at_most_one (l STOP_ID) (rows searches) Hnd) as Hle.
    replace (Nat.max 1 _) with 1%nat by lia. reflexivity.
Qed.

Lemma merge_left_keeps_stops_witness :
  map (fun m : row => m STOP_ID) (rows joined_twice)
  = [num 1; num 2; num 2; num 3; num 4]
  /\ map (fun m : row => m STOP_ID) (rows joined_by_flag)
     = map (fun l : row => l STOP_ID) (rows stops_table).
Proof.
  assert (H2 : merge_left stops_table searches_twice STOP_ID = Ok joined_twice)
    by (vm_compute; reflexivity).
  assert (Hf : merge_left stops_table searches_by_flag STOP_ID = Ok joined_by_flag)
    by (vm_compute; reflexivity).
  destruct (merge_left_keeps_stops _ _ _ H2) as [Hids _].
  destruct (merge_left_keeps_stops _ _ _ Hf) as [_ [_ Hone]].
  split.
  - rewrite Hids. vm_compute. reflexivity.
  - apply Hone. vm_compute.
    apply NoDup_cons; [intros [E|[]]; discriminate E|].
    apply NoDup_cons; [intros []|]. apply NoDup_nil.
Defined.

(** The columns [compute_search_share] cannot do without: it raises
    [KeyError] when the stops or the searches have no [stop_id] column,
    when the joined table has neither a [search_conducted] nor a
    [search_type] column, and when it has no [officer_id] column.  [None]
    is never the answer to a missing column. *)
Theorem compute_search_share_missing_columns (stops searches : DataFrame)
  (cat_col : list string) (M_stops : Z) :
  (has_column stops STOP_ID && has_column searches STOP_ID = false ->
   compute_search_share stops searches cat_col M_stops = Raise KeyError)
  /\ (forall merged,
        merge_left stops searches STOP_ID = Ok merged ->
        has_column merged SEARCH_CONDUCTED = false ->
        has_column merged SEARCH_TYPE = false ->
        compute_search_share stops searches cat_col M_stops = Raise KeyError)
  /\ (forall merged prepared,
        merge_left stops searches STOP_ID = Ok merged ->
        derive_search_conducted merged = Ok prepared ->
        has_column prepared OFFICER_ID = false ->
        compute_search_share stops searches cat_col M_stops = Raise KeyError).
Proof.
  unfold compute_search_share. split; [|split].
  - intros H. unfold merge_left. now rewrite H.
  - intros merged Hm Hc Ht. rewrite Hm, bind_Ok.
    unfold derive_search_conducted, getitem. now rewrite Hc, Ht.
  - intros merged prepared Hm Hd Ho. rewrite Hm, bind_Ok. cbv beta.
    rewrite Hd, bind_Ok. cbv beta.
    unfold retain_officers, groupby_size. cbn [forallb]. now rewrite Ho.
Qed.

Lemma compute_search_share_missing_columns_witness :
  compute_search_share outcomes_table searches_by_type [DRIVER_RACE] 1
  = Raise KeyError.
Proof.
  apply (proj1 (compute_search_share_missing_columns outcomes_table searches_by_type
                  [DRIVER_RACE] 1)).
  reflexivity.
Defined.

(** ** The officer threshold at its ends *)

Lemma existsb_ext_in {A : Type} (f g : A -> bool) (l : list A) :
  (forall a, In a l -> f a = g a) -> existsb f l = existsb g l.
Proof.
  induction l as [|a l IH]; intros H; simpl; [reflexivity|].
  rewrite (H a (or_introl eq_refl)), IH; [reflexivity|].
  intros a' Ha'. apply H. now right.
Qed.

(** The threshold at its ends.  Let the officers be a plain column, as
    the program reads them, or the threshold be positive (a grouping lists
    the categories of a categorical column also when they have no row, and
    a threshold of 0 or less is met by them).  Then with [M_stops] at most
    1, every row that has an officer identifier is kept, and [None] is
    returned only when no row has one; so an empty table gives [None].
    Whatever the column and the threshold, raising the threshold can only
    remove rows: what is kept for a higher threshold is kept for a lower
    one. *)
Theorem retain_officers_thresholds (df : DataFrame) (M_stops M_stops' : Z) :
  has_column df OFFICER_ID = true ->
  (categories df OFFICER_ID = None \/ (0 < M_stops)%Z ->
   (M_stops <= 1)%Z ->
   retain_officers df M_stops
   = if existsb (fun r : row => negb (is_null (r OFFICER_ID))) (rows df)
     then Ok (Some (mkDF (columns df)
                      (filter (fun r : row => negb (is_null (r OFFICER_ID)))
                              (rows df))
                      (categories df)))
     else Ok None)
  /\ (categories df OFFICER_ID = None \/ (0 < M_stops)%Z ->
      rows df = [] -> retain_officers df M_stops = Ok None)
  /\ ((M_stops <= M_stops')%Z ->
      forall kept',
        retain_officers df M_stops' = Ok (Some kept') ->
        exists kept,
          retain_officers df M_stops = Ok (Some kept)
          /\ incl (rows kept') (rows kept)).
Proof.
  intros Hcol. rewrite !(retain_officers_spec _ _ Hcol). split; [|split].
  - intros Hguard HM.
    rewrite (proj2 (listed_officer_rows df M_stops) Hguard).
    assert (Hsame : forall r, In r (rows df) ->
              meets_threshold df M_stops r = negb (is_null (r OFFICER_ID))).
    { intros r Hr. unfold meets_threshold.
      pose proof (officer_has_a_row df r Hr) as Hone.
      replace (M_stops <=? _)%Z with true by (symmetry; apply Z.leb_le; lia).
      apply andb_true_r. }
    rewrite (existsb_ext_in _ _ _ Hsame). unfold retained.
    now rewrite (filter_ext_in _ _ _ Hsame).
  - intros Hguard Hempty.
    rewrite (proj2 (listed_officer_rows df M_stops) Hguard). now rewrite Hempty.
  - intros HM kept' H'.
    destruct (existsb _ (level df OFFICER_ID)) eqn:Hex'; [|discriminate].
    injection H' as <-.
    assert (Hex : existsb (fun v => (M_stops <=? Z.of_nat
                                       (count_rows df [OFFICER_ID] [v]))%Z)
                          (level df OFFICER_ID) = true).
    { apply existsb_exists in Hex' as [v [Hv Hle]]. apply existsb_exists.
      exists v. split; [exact Hv|]. apply Z.leb_le in Hle. apply Z.leb_le. lia. }
    rewrite Hex. eexists. split; [reflexivity|].
    unfold retained. cbn [rows]. intros r Hr. apply filter_In in Hr as [Hr Hmeet].
    apply filter_In. split; [assumption|].
    apply meets_threshold_iff in Hmeet as [Hn Hle].
    apply meets_threshold_iff. split; [assumption | lia].
Qed.

Lemma retain_officers_thresholds_witness :
  retain_officers prepared_by_type 1
  = Ok (Some (mkDF (columns prepared_by_type)
                (filter (fun r : row => negb (is_null (r OFFICER_ID)))
                        (rows prepared_by_type)) (categories prepared_by_type))).
Proof.
  assert (Hc : has_column prepared_by_type OFFICER_ID = true)
    by (vm_compute; reflexivity).
  destruct (retain_officers_thresholds prepared_by_type 1 1 Hc) as [Hlow _].
  rewrite Hlow; [|right; lia|lia].
  assert (Hex : existsb (fun r : row => negb (is_null (r OFFICER_ID)))
                        (rows prepared_by_type) = true)
    by (vm_compute; reflexivity).
  now rewrite Hex.
Defined.

(** Why the threshold has to be positive when the officers are a
    categorical column: the officer of a category without rows has 0 rows,
    which meets a threshold of 0, and the table without rows is returned
    rather than [None]. *)
Lemma retain_officers_category_without_rows :
  rows officers_by_category = []
  /\ retain_officers officers_by_category 0 = Ok (Some officers_by_category)
  /\ retain_officers officers_by_category 1 = Ok None.
Proof.
  split; [reflexivity|]. split; reflexivity.
Qed.

(** ** Stops without a search record *)

(** A stop without any search record counts as not searched: when the
    stops table carries neither a [search_conducted] nor a [search_type]
    column of its own, every joined row whose stop identifier occurs in no
    search record has [search_conducted] equal to [False], whether the
    column was supplied by the searches or derived from the search type. *)
Theorem unmatched_stop_not_searched (stops searches merged prepared : DataFrame) :
  merge_left stops searches STOP_ID = Ok merged ->
  derive_search_conducted merged = Ok prepared ->
  has_column stops SEARCH_CONDUCTED = false ->
  has_column stops SEARCH_TYPE = false ->
  forall p,
    In p (rows prepared) ->
    (forall r, In r (rows searches) -> r STOP_ID <> p STOP_ID) ->
    p SEARCH_CONDUCTED = VBool false.
Proof.
  intros Hm Hd Hsc Hst p Hp Hnone.
  apply merge_left_Ok in Hm as [Hl [Hr Hrows]].
  assert (Hprep : exists v : row -> value,
             rows prepared
             = map (fun m : row => set_cell m SEARCH_CONDUCTED (v m)) (rows merged)
             /\ forall m, m SEARCH_CONDUCTED = VNull -> m SEARCH_TYPE = VNull ->
                          v m = VBool false).
  { destruct (has_column merged SEARCH_CONDUCTED) eqn:Hc.
    - rewrite (derive_supplied _ Hc) in Hd. injection Hd as <-. cbn [rows].
      eexists. split; [reflexivity|]. intros m Hn _. cbv beta. now rewrite Hn.
    - destruct (has_column merged SEARCH_TYPE) eqn:Ht.
      + rewrite (derive_from_type _ Hc Ht) in Hd. injection Hd as <-. cbn [rows].
        eexists. split; [reflexivity|]. intros m _ Hn. cbv beta. now rewrite Hn.
      + unfold derive_search_conducted, getitem in Hd. rewrite Hc, Ht in Hd.
        discriminate. }
  destruct Hprep as [v [Hpr Hv]]. rewrite Hpr in Hp.
  apply in_map_iff in Hp as [m [<- Hin]].
  unfold set_cell at 1. rewrite String.eqb_refl.
  assert (Hid : set_cell m SEARCH_CONDUCTED (v m) STOP_ID = m STOP_ID) by reflexivity.
  rewrite Hrows in Hin. apply in_flat_map in Hin as [l [Hlin Hin]].
  assert (Hkey : forall r,
             joined_row (columns stops)
               (filter (fun c => negb (String.eqb c STOP_ID)) (columns searches))
               l r STOP_ID = l STOP_ID).
  { intros r. apply joined_row_left.
    - right. now left.
    - now apply has_column_In.
    - apply key_not_in_right. }
  destruct (filter _ (rows searches)) as [|r0 rs] eqn:Hf.
  - destruct Hin as [<-|[]]. apply Hv.
    + now apply joined_row_search_conducted.
    + apply joined_row_right; [now left | exact Hst].
  - exfalso.
    assert (Hex : exists r, In r (r0 :: rs)
                            /\ joined_row (columns stops)
                                 (filter (fun c => negb (String.eqb c STOP_ID))
                                         (columns searches)) l (Some r) = m).
    { destruct Hin as [<-|Hin]; [exists r0; split; [now left | reflexivity]|].
      apply in_map_iff in Hin as [r [<- Hr']].
      exists r. split; [now right | reflexivity]. }
    destruct Hex as [r [Hr' <-]]. rewrite <- Hf in Hr'.
    apply filter_In in Hr' as [Hr' E]. apply value_eqb_eq in E.
    apply (Hnone r Hr'). rewrite Hid, Hkey. now symmetry.
Qed.

Lemma unmatched_stop_not_searched_witness :
  (nth 3 (rows prepared_by_type) (fun _ => VNull)) SEARCH_CONDUCTED = VBool false.
Proof.
  assert (Hm : merge_left stops_table searches_by_type STOP_ID = Ok joined_by_type)
    by (vm_compute; reflexivity).
  assert (Hd : derive_search_conducted joined_by_type = Ok prepared_by_type)
    by (vm_compute; reflexivity).
  assert (Hs : has_column stops_table SEARCH_CONDUCTED = false)
    by (vm_compute; reflexivity).
  assert (Ht : has_column stops_table SEARCH_TYPE = false)
    by (vm_compute; reflexivity).
  apply (unmatched_stop_not_searched _ _ _ _ Hm Hd Hs Ht).
  - apply nth_In. vm_compute. lia.
  - intros r Hr E.
    assert (Hall : forallb (fun r : row =>
                              negb (value_eqb (r STOP_ID)
                                      ((nth 3 (rows prepared_by_type) (fun _ => VNull))
                                         STOP_ID)))
                           (rows searches_by_type) = true)
      by (vm_compute; reflexivity).
    rewrite forallb_forall in Hall. specialize (Hall r Hr).
    rewrite E, value_eqb_refl in Hall. discriminate.
Defined.

(** ** Searched and not searched add up *)

Lemma sort_values_rows (f t : Frame) (label : value) :
  sort_values f label = Ok t ->
  frame_has_column f label = true
  /\ fcolumns t = fcolumns f
  /\ forall r, In r (frows t) <-> In r (frows f).
Proof.
  unfold sort_values. destruct (frame_has_column f label); [|discriminate].
  intros H. injection H as <-. cbn [fcolumns frows].
  split; [reflexivity|]. split; [reflexivity|]. intros r. apply isort_In.
Qed.

(** A row of the ranked table is a row of the rate table, and its two
    rates add up to what the cells of that row add up to. *)
Lemma rank_row_sum (f t : Frame) :
  rank_by_search_share (Some f) = Ok t ->
  NoDup (fcolumns f) ->
  (forall o, In o (fcolumns f) -> exists b, o = VBool b) ->
  (forall r0, In r0 (frows f) ->
     exists q, float_sum (map (snd r0) (fcolumns f)) = Some q) ->
  forall r, In r (frows t) ->
    exists r0 a b q,
      In r0 (frows f) /\ fst r = fst r0
      /\ snd r (VBool true) = Some a /\ snd r (VBool false) = Some b
      /\ float_sum (map (snd r0) (fcolumns f)) = Some q
      /\ (a + b == q)%Q
      /\ (Some a = snd r0 (VBool true) \/ a = 0%Q)
      /\ (Some b = snd r0 (VBool false) \/ b = 0%Q).
Proof.
  intros Hrank Hnd Hcols Hsum r Hin. unfold rank_by_search_share in Hrank.
  destruct (fcolumns f) as [|x [|y [|z more]]] eqn:Hfc.
  - cbn [length Nat.eqb] in Hrank. apply sort_values_rows in Hrank as [Hhas _].
    unfold frame_has_column in Hhas. rewrite Hfc in Hhas. discriminate.
  - cbn [length Nat.eqb] in Hrank.
    destruct (Hcols x (or_introl eq_refl)) as [[|] ->].
    + replace (frame_has_column f (VBool false)) with false in Hrank
        by (unfold frame_has_column; rewrite Hfc; reflexivity).
      apply sort_values_rows in Hrank as [_ [_ Hrows]]. apply Hrows in Hin.
      apply frame_setitem_cell in Hin as [Hzero [r0 [Hr0 [Hkey Hother]]]].
      destruct (Hsum r0 Hr0) as [q Hq]. pose proof Hq as Hq'.
      cbn [map float_sum] in Hq'.
      destruct (snd r0 (VBool true)) as [a|] eqn:Ha; [|discriminate].
      injection Hq' as <-. exists r0, a, 0%Q, (a + 0)%Q.
      rewrite (Hother (VBool true)) by discriminate.
      split; [exact Hr0|]. split; [exact Hkey|]. split; [congruence|].
      split; [exact Hzero|]. split; [exact Hq|]. split; [reflexivity|].
      split; [left; congruence | now right].
    + replace (frame_has_column f (VBool false)) with true in Hrank
        by (unfold frame_has_column; rewrite Hfc; reflexivity).
      apply sort_values_rows in Hrank as [_ [_ Hrows]]. apply Hrows in Hin.
      apply frame_setitem_cell in Hin as [Hzero [r0 [Hr0 [Hkey Hother]]]].
      destruct (Hsum r0 Hr0) as [q Hq]. pose proof Hq as Hq'.
      cbn [map float_sum] in Hq'.
      destruct (snd r0 (VBool false)) as [b|] eqn:Hb; [|discriminate].
      injection Hq' as <-. exists r0, 0%Q, b, (b + 0)%Q.
      rewrite (Hother (VBool false)) by discriminate.
      split; [exact Hr0|]. split; [exact Hkey|]. split; [exact Hzero|].
      split; [congruence|]. split; [exact Hq|]. split; [apply Qplus_comm|].
      split; [now right | left; congruence].
  - cbn [length Nat.eqb] in Hrank.
    apply sort_values_rows in Hrank as [_ [_ Hrows]]. apply Hrows in Hin.
    destruct (Hsum r Hin) as [q Hq]. pose proof Hq as Hq'.
    cbn [map float_sum] in Hq'.
    destruct (Hcols x (or_introl eq_refl)) as [bx Ex].
    destruct (Hcols y (or_intror (or_introl eq_refl))) as [by' Ey]. subst x y.
    destruct (snd r (VBool bx)) as [a|] eqn:Ha; [|discriminate].
    destruct (snd r (VBool by')) as [b|] eqn:Hb; [|discriminate].
    injection Hq' as <-.
    assert (Hne : bx <> by').
    { intros ->. inversion Hnd as [|? ? Hnot _]; subst. apply Hnot. now left. }
    destruct bx, by'; try congruence.
    + exists r, a, b, (a + (b + 0))%Q.
      split; [exact Hin|]. split; [reflexivity|]. split; [exact Ha|].
      split; [exact Hb|]. split; [exact Hq|]. split; [ring|].
      split; left; congruence.
    + exists r, b, a, (a + (b + 0))%Q.
      split; [exact Hin|]. split; [reflexivity|]. split; [exact Hb|].
      split; [exact Ha|]. split; [exact Hq|]. split; [ring|].
      split; left; congruence.
  - exfalso.
    destruct (Hcols x (or_introl eq_refl)) as [bx ->].
    destruct (Hcols y (or_intror (or_introl eq_refl))) as [by' ->].
    destruct (Hcols z (or_intror (or_intror (or_introl eq_refl)))) as [bz ->].
    inversion Hnd as [|? ? Hx Hnd']; subst.
    inversion Hnd' as [|? ? Hy _]; subst.
    destruct bx, by', bz; cbn [In] in Hx, Hy; tauto.
Qed.

Lemma StronglySorted_impl_In {A : Type} (R1 R2 : A -> A -> Prop) (l : list A) :
  (forall a b, In a l -> In b l -> R1 a b -> R2 a b) ->
  StronglySorted R1 l -> StronglySorted R2 l.
Proof.
  intros Himp Hs. induction Hs as [|a l Hs IH Hall]; [constructor|].
  constructor.
  - apply IH. intros x y Hx Hy. apply Himp; now right.
  - rewrite Forall_forall in *. intros b Hb.
    apply Himp; [now left | now right | now apply Hall].
Qed.

(** In the table [compute_search_share] returns (under the conditions of
    the data model: no search-conducted column among the stops, and
    booleans or missing cells in a supplied one), the [True] rate and the
    [False] rate of a row add up to 1 when the group of the row has a row
    among the joined rows of the officers that are kept, and are both 0
    when it has none, as for a combination of categories that occurs in no
    row.  With plain group columns every row is of the first kind, so the
    ascending order by the share of searched stops is the descending order
    by the share of stops not searched. *)
Theorem search_share_complement (stops searches : DataFrame)
  (cat_col : list string) (M_stops : Z) (t : Frame) :
  has_column stops SEARCH_CONDUCTED = false ->
  (has_column searches SEARCH_CONDUCTED = true ->
   Forall (fun r : row => bool_or_null (r SEARCH_CONDUCTED) = true) (rows searches)) ->
  compute_search_share stops searches cat_col M_stops = Ok (Some t) ->
  exists merged prepared,
    merge_left stops searches STOP_ID = Ok merged
    /\ derive_search_conducted merged = Ok prepared
    /\ (forall r, In r (frows t) ->
          exists a b,
            snd r (VBool true) = Some a /\ snd r (VBool false) = Some b
            /\ ((exists x, In x (rows (retained prepared M_stops))
                           /\ key_of cat_col x = fst r) ->
                (a + b == 1)%Q)
            /\ ((~ exists x, In x (rows (retained prepared M_stops))
                             /\ key_of cat_col x = fst r) ->
                (a == 0)%Q /\ (b == 0)%Q))
    /\ (existsb (is_categorical (retained prepared M_stops)) cat_col = false ->
        (forall r, In r (frows t) ->
           exists a b,
             snd r (VBool true) = Some a /\ snd r (VBool false) = Some b
             /\ (a + b == 1)%Q)
        /\ StronglySorted (fun r1 r2 => rate_le (VBool false) r2 r1) (frows t)).
Proof.
  intros Hstops Hty Hrun.
  destruct (compute_search_share_Some _ _ _ _ _ Hrun)
    as [merged [prepared [Hm [Hd [Hg Hrank]]]]].
  destruct (retained_search_conducted _ _ _ _ M_stops Hstops Hty Hm Hd)
    as [Hplain Hbool].
  set (kept := retained prepared M_stops) in *.
  set (f := rates_frame kept cat_col SEARCH_CONDUCTED) in *.
  assert (Hmiss : no_missing kept SEARCH_CONDUCTED).
  { unfold no_missing. rewrite Forall_forall in *. intros x Hx.
    destruct (Hbool x Hx) as [b ->]. discriminate. }
  assert (Hcols : forall o, In o (fcolumns f) -> exists b, o = VBool b).
  { intros o Ho. apply (rates_frame_column_plain _ _ _ _ Hplain) in Ho as [r [Hin <-]].
    rewrite Forall_forall in Hbool. now apply Hbool. }
  assert (Hnd : NoDup (fcolumns f)) by apply rates_frame_columns_NoDup.
  assert (Hsum : forall r0, In r0 (frows f) ->
            exists q, float_sum (map (snd r0) (fcolumns f)) = Some q
              /\ (q == Q_of_nat (count_occ key_eq_dec (group_keys kept cat_col) (fst r0))
                       / Q_of_nat (count_occ key_eq_dec (group_keys kept cat_col)
                                     (fst r0)))%Q).
  { intros [g cells] Hr0. cbn [fst snd]. now apply rates_frame_row_sum. }
  assert (Hrow : forall r, In r (frows t) ->
            exists a b,
              snd r (VBool true) = Some a /\ snd r (VBool false) = Some b
              /\ ((exists x, In x (rows kept) /\ key_of cat_col x = fst r) ->
                  (a + b == 1)%Q)
              /\ ((~ exists x, In x (rows kept) /\ key_of cat_col x = fst r) ->
                  (a == 0)%Q /\ (b == 0)%Q)).
  { intros r Hin.
    destruct (rank_row_sum f t Hrank Hnd Hcols) with (r := r)
      as [r0 [a [b [q [Hr0 [Hkey [Ha [Hb [Hq [Hab [Ha0 Hb0]]]]]]]]]]]; [|exact Hin|].
    { intros r1 Hr1. destruct (Hsum r1 Hr1) as [q [Hq _]]. now exists q. }
    destruct (Hsum r0 Hr0) as [q' [Hq' Eq]]. rewrite Hq in Hq'. injection Hq' as <-.
    assert (Hg0 : In (fst r0) (map fst (frows f))) by now apply in_map.
    exists a, b. split; [exact Ha|]. split; [exact Hb|]. rewrite Hkey.
    rewrite (group_has_rows _ _ _ _ Hg0). split.
    - intros Hpos. rewrite Hab, Eq. now apply Q_of_nat_self.
    - intros Hzero.
      assert (E : count_occ key_eq_dec (group_keys kept cat_col) (fst r0) = 0%nat)
        by lia.
      assert (Hcell : forall o, snd r0 o = Some 0%Q).
      { intros o. destruct r0 as [g cells]. cbn [fst snd] in *.
        rewrite (rates_frame_cell _ _ _ _ _ o Hr0), E. reflexivity. }
      split.
      + destruct Ha0 as [Ha0| ->]; [|reflexivity].
        rewrite Hcell in Ha0. injection Ha0 as ->. reflexivity.
      + destruct Hb0 as [Hb0| ->]; [|reflexivity].
        rewrite Hcell in Hb0. injection Hb0 as ->. reflexivity. }
  exists merged, prepared. split; [exact Hm|]. split; [exact Hd|].
  split; [exact Hrow|]. intros Hcat.
  change (existsb (is_categorical kept) cat_col = false) in Hcat.
  assert (Hone : forall r, In r (frows t) ->
            exists a b,
              snd r (VBool true) = Some a /\ snd r (VBool false) = Some b
              /\ (a + b == 1)%Q).
  { intros r Hin. destruct (Hrow r Hin) as [a [b [Ha [Hb [Hyes _]]]]].
    exists a, b. split; [exact Ha|]. split; [exact Hb|]. apply Hyes.
    destruct (rank_row_sum f t Hrank Hnd Hcols) with (r := r)
      as [r0 [_ [_ [_ [Hr0 [Hkey _]]]]]]; [|exact Hin|].
    { intros r1 Hr1. destruct (Hsum r1 Hr1) as [q [Hq _]]. now exists q. }
    rewrite Hkey.
    assert (Hg0 : In (fst r0) (map fst (frows f))) by now apply in_map.
    apply rates_frame_index_In in Hg0 as [o Hk].
    assert (Hp : existsb (is_categorical kept) (cat_col ++ [SEARCH_CONDUCTED]) = false).
    { rewrite existsb_app, Hcat. cbn [existsb]. unfold is_categorical.
      now rewrite Hplain. }
    apply (group_index_plain _ _ _ Hp), group_keys_outcome in Hk
      as [x [Hx [E _]]].
    apply app_inj_tail in E as [-> _]. now exists x. }
  split; [exact Hone|].
  destruct (rank_by_search_share_spec f t Hrank Hnd Hcols)
    as [_ [_ [Hsorted _]]].
  { intros r o Hin. now apply (rates_frame_cell_Some kept cat_col SEARCH_CONDUCTED). }
  eapply StronglySorted_impl_In; [|exact Hsorted].
  intros r1 r2 H1 H2 [a1 [a2 [Ha1 [Ha2 Hle]]]].
  destruct (Hone r1 H1) as [a1' [b1 [Ha1' [Hb1 E1]]]].
  destruct (Hone r2 H2) as [a2' [b2 [Ha2' [Hb2 E2]]]].
  rewrite Ha1 in Ha1'. injection Ha1' as <-.
  rewrite Ha2 in Ha2'. injection Ha2' as <-.
  exists b2, b1. split; [exact Hb2|]. split; [exact Hb1|].
  apply Qplus_le_r with (z := (a1 + a2)%Q).
  setoid_replace (a1 + a2 + b2)%Q with (a1 + (a2 + b2))%Q by ring.
  setoid_replace (a1 + a2 + b1)%Q with (a2 + (a1 + b1))%Q by ring.
  rewrite E1, E2. now apply Qplus_le_l.
Qed.

Lemma search_share_complement_witness :
  exists a b,
    snd (nth 0 (frows ranked_by_flag) ([], fun _ => None)) (VBool true) = Some a
    /\ snd (nth 0 (frows ranked_by_flag) ([], fun _ => None)) (VBool false) = Some b
    /\ (a + b == 1)%Q.
Proof.
  assert (Hs : has_column stops_table SEARCH_CONDUCTED = false)
    by (vm_compute; reflexivity).
  assert (Hty : has_column searches_by_flag SEARCH_CONDUCTED = true ->
                Forall (fun r : row => bool_or_null (r SEARCH_CONDUCTED) = true)
                       (rows searches_by_flag)).
  { intros _. repeat constructor. }
  assert (Hc : compute_search_share stops_table searches_by_flag [OFFICER_ID] 1
               = Ok (Some ranked_by_flag))
    by (vm_compute; reflexivity).
  assert (Hin : In (nth 0 (frows ranked_by_flag) ([], fun _ => None))
                   (frows ranked_by_flag)).
  { apply nth_In. vm_compute. lia. }
  destruct (search_share_complement stops_table searches_by_flag [OFFICER_ID] 1
              ranked_by_flag Hs Hty Hc) as [merged [prepared [Hm [Hd [_ Hplain]]]]].
  assert (Hm' : merge_left stops_table searches_by_flag STOP_ID = Ok joined_by_flag)
    by (vm_compute; reflexivity).
  rewrite Hm' in Hm. injection Hm as <-.
  assert (Hd' : derive_search_conducted joined_by_flag = Ok prepared_by_flag)
    by (vm_compute; reflexivity).
  rewrite Hd' in Hd. injection Hd as <-.
  assert (Hcat : existsb (is_categorical (retained prepared_by_flag 1)) [OFFICER_ID]
                 = false) by (vm_compute; reflexivity).
  destruct (Hplain Hcat) as [Hone _]. exact (Hone _ Hin).
Defined.

(** ** Writing a computed column *)

Lemma setitem_as_map (df : DataFrame) (key : string) (f : row -> value)
  (dtype : option (list value)) :
  setitem_as df key (map f (rows df)) dtype
  = Ok (mkDF (if has_column df key then columns df else columns df ++ [key])
          (map (fun r : row => set_cell r key (f r)) (rows df))
          (set_dtype (categories df) key dtype)).
Proof.
  unfold setitem_as. rewrite length_map, Nat.eqb_refl. cbn [negb].
  now rewrite set_cells_map.
Qed.

Lemma setitem_map (df : DataFrame) (key : string) (f : row -> value) :
  setitem df key (map f (rows df))
  = Ok (mkDF (if has_column df key then columns df else columns df ++ [key])
          (map (fun r : row => set_cell r key (f r)) (rows df))
          (set_dtype (categories df) key None)).
Proof. apply setitem_as_map. Qed.

Lemma has_column_written (df : DataFrame) (key c : string) (rs : list row)
  (d : dtypes) :
  has_column (mkDF (if has_column df key then columns df else columns df ++ [key]) rs d)
    c
  = has_column df c || String.eqb c key.
Proof.
  unfold has_column at 1. cbn [columns].
  destruct (has_column df key) eqn:Hk.
  - fold (has_column df c). destruct (String.eqb c key) eqn:E.
    + apply String.eqb_eq in E. subst c. now rewrite Hk.
    + now rewrite orb_false_r.
  - rewrite existsb_app. cbn [existsb]. fold (has_column df c).
    now rewrite orb_false_r.
Qed.

Lemma column_written_same (df : DataFrame) (cols : list string) (key : string)
  (f : row -> value) (d : dtypes) :
  column (mkDF cols (map (fun r : row => set_cell r key (f r)) (rows df)) d) key
  = map f (rows df).
Proof. unfold column. cbn [rows]. apply map_set_cell_same. Qed.

Lemma column_written_other (df : DataFrame) (cols : list string) (key c : string)
  (f : row -> value) (d : dtypes) :
  c <> key ->
  column (mkDF cols (map (fun r : row => set_cell r key (f r)) (rows df)) d) c
  = column df c.
Proof. intros Hc. unfold column. cbn [rows]. now apply map_set_cell_other. Qed.

Lemma np_where_series_map {A : Type} (p : A -> bool) (a : value) (g : A -> value)
  (l : list A) :
  np_where_series (map p l) a (map g l) = map (fun x => if p x then a else g x) l.
Proof. induction l as [|x l IH]; simpl; [reflexivity | now rewrite IH]. Qed.

(** ** The season of a stop *)

Lemma num_inj (a b : Z) : num a = num b -> a = b.
Proof.
  unfold num. intros H.
  assert (E : Q2Qc (inject_Z a) = Q2Qc (inject_Z b)) by congruence.
  apply Q2Qc_eq_iff in E. unfold Qeq in E. simpl in E. lia.
Qed.

Lemma in_months (m : value) (l : list value) :
  existsb (value_eqb m) l = true -> In m l.
Proof.
  intros H. apply existsb_exists in H as [x [Hx E]].
  apply value_eqb_eq in E. now subst.
Qed.

(** No month is listed by two seasons. *)
Lemma months_disjoint (m : value) (e1 e2 : string * list value) :
  In e1 SEASONS_MONTHS -> In e2 SEASONS_MONTHS ->
  existsb (value_eqb m) (snd e1) = true ->
  existsb (value_eqb m) (snd e2) = true ->
  e1 = e2.
Proof.
  unfold SEASONS_MONTHS. intros H1 H2 M1 M2.
  apply in_months in M1, M2.
  repeat match goal with
         | H : In _ (_ :: _) |- _ => destruct H as [H|H]
         | H : In _ [] |- _ => destruct H
         | H : (_, _) = _ |- _ => rewrite <- H in *; clear H; cbn [snd] in *
         end;
    try reflexivity; exfalso; subst m;
    match goal with
    | H : num _ = num _ |- _ => apply num_inj in H; discriminate H
    end.
Qed.

Lemma season_loop_Ok (items : list (string * list value)) (df : DataFrame) :
  has_column df MONTH_COL = true ->
  has_column df STOP_SEASON = true ->
  exists df',
    season_loop df items = Ok df'
    /\ columns df' = columns df
    /\ column df' STOP_SEASON
       = map (fun r : row => fold_left (season_step (r MONTH_COL)) items
                               (r STOP_SEASON)) (rows df)
    /\ forall c, c <> STOP_SEASON -> column df' c = column df c.
Proof.
  revert df; induction items as [|[key months] items IH]; intros df Hm Hs.
  - exists df. cbn [season_loop fold_left]. unfold column.
    repeat split.
  - cbn [season_loop]. rewrite (getitem_has _ _ Hm), bind_Ok. cbv beta.
    rewrite (getitem_has _ _ Hs), bind_Ok. cbv beta. unfold isin.
    rewrite map_map.
    rewrite (np_where_series_map
               (fun r : row => existsb (value_eqb (r MONTH_COL)) months)
               (VStr key) (fun r : row => r STOP_SEASON)).
    rewrite (setitem_map df STOP_SEASON
               (fun r => if existsb (value_eqb (r MONTH_COL)) months
                         then VStr key else r STOP_SEASON)).
    rewrite bind_Ok. cbv beta. rewrite Hs.
    destruct (IH (mkDF (columns df)
                    (map (fun r : row =>
                            set_cell r STOP_SEASON
                              (if existsb (value_eqb (r MONTH_COL)) months
                               then VStr key else r STOP_SEASON)) (rows df))
                    (set_dtype (categories df) STOP_SEASON None)))
      as [df' [Hloop [Hcols [Hseason Hother]]]]; [exact Hm | exact Hs |].
    exists df'. split; [exact Hloop|]. split; [exact Hcols|]. split.
    + rewrite Hseason. cbn [rows]. rewrite map_map. apply map_ext. intros r.
      cbn [fold_left]. reflexivity.
    + intros c Hc. rewrite (Hother c Hc). now apply column_written_other.
Qed.

Lemma season_fold (m : value) :
  fold_left (season_step m) SEASONS_MONTHS (VStr "default") = season_of_month m.
Proof.
  unfold season_of_month, season_step.
  pose proof (months_disjoint m) as Hdis. unfold SEASONS_MONTHS in *.
  cbn [fold_left find fst snd].
  destruct (existsb (value_eqb m) [num 12; num 1; num 2]) eqn:Hw;
    destruct (existsb (value_eqb m) [num 3; num 4; num 5]) eqn:Hsp;
    destruct (existsb (value_eqb m) [num 6; num 7; num 8]) eqn:Hsu;
    destruct (existsb (value_eqb m) [num 9; num 10; num 11]) eqn:Hf;
    try reflexivity; exfalso;
    match goal with
    | H1 : existsb _ ?l1 = true, H2 : existsb _ ?l2 = true |- _ =>
        match goal with
        | _ =>
            assert (E : forall k1 k2,
                       In (k1, l1) [("winter", [num 12; num 1; num 2]);
                                    ("spring", [num 3; num 4; num 5]);
                                    ("summer", [num 6; num 7; num 8]);
                                    ("fall", [num 9; num 10; num 11])] ->
                       In (k2, l2) [("winter", [num 12; num 1; num 2]);
                                    ("spring", [num 3; num 4; num 5]);
                                    ("summer", [num 6; num 7; num 8]);
                                    ("fall", [num 9; num 10; num 11])] ->
                       (k1, l1) = (k2, l2))
              by (intros k1 k2 I1 I2; exact (Hdis _ _ I1 I2 H1 H2));
            first
              [ specialize (E "winter" "spring"
                              (or_introl eq_refl) (or_intror (or_introl eq_refl)))
              | specialize (E "winter" "summer"
                              (or_introl eq_refl)
                              (or_intror (or_intror (or_introl eq_refl))))
              | specialize (E "winter" "fall"
                              (or_introl eq_refl)
                              (or_intror (or_intror (or_intror (or_introl eq_refl)))))
              | specialize (E "spring" "summer"
                              (or_intror (or_introl eq_refl))
                              (or_intror (or_intror (or_introl eq_refl))))
              | specialize (E "spring" "fall"
                              (or_intror (or_introl eq_refl))
                              (or_intror (or_intror (or_intror (or_introl eq_refl)))))
              | specialize (E "summer" "fall"
                              (or_intror (or_intror (or_introl eq_refl)))
                              (or_intror (or_intror (or_intror (or_introl eq_refl))))) ];
            discriminate E
        end
    end.
Qed.

Lemma setitem_as_writes (df : DataFrame) (key : string) (f : row -> value)
  (dtype : option (list value)) :
  exists df',
    setitem_as df key (map f (rows df)) dtype = Ok df'
    /\ writes df df' key (map f (rows df))
    /\ categories df' = set_dtype (categories df) key dtype.
Proof.
  eexists. split; [apply setitem_as_map|]. split; [|reflexivity].
  unfold writes. split; [|split; [|split]].
  - intros c. apply has_column_written.
  - apply column_written_same.
  - intros c Hc. now apply column_written_other.
  - cbn [rows]. apply length_map.
Qed.

Lemma setitem_writes (df : DataFrame) (key : string) (f : row -> value) :
  exists df',
    setitem df key (map f (rows df)) = Ok df' /\ writes df df' key (map f (rows df)).
Proof.
  destruct (setitem_as_writes df key f None) as [df' [Hset [Hw _]]].
  now exists df'.
Qed.

(** The season column is a function of the month column: each row gets
    the season that lists its month, the overwriting of one season by the
    next never changing a row twice, and "default" when no season lists
    it.  Months 12, 1, 2 are winter, 3 to 5 spring, 6 to 8 summer, 9 to 11
    fall; a missing month and a number outside 1..12 are "default".  No
    other column is touched. *)
Theorem stop_season_by_month (df : DataFrame) :
  has_column df MONTH_COL = true ->
  (exists df',
      add_stop_season df = Ok df'
      /\ column df' STOP_SEASON = map season_of_month (column df MONTH_COL)
      /\ forall c, c <> STOP_SEASON -> column df' c = column df c)
  /\ (forall z, (1 <= z <= 12)%Z ->
        season_of_month (num z)
        = VStr (nth (Z.to_nat (z mod 12 / 3))
                  ["winter"; "spring"; "summer"; "fall"] ""))
  /\ (forall z, (z < 1 \/ 12 < z)%Z -> season_of_month (num z) = VStr "default")
  /\ season_of_month VNull = VStr "default".
Proof.
  intros Hm. split; [|split; [|split]].
  - unfold add_stop_season, setitem_scalar.
    rewrite <- (map_constant (fun _ : row => VStr "default") (VStr "default")
                  (rows df)) by reflexivity.
    rewrite (setitem_map df STOP_SEASON (fun _ => VStr "default")), bind_Ok.
    destruct (season_loop_Ok SEASONS_MONTHS
                (mkDF (if has_column df STOP_SEASON then columns df
                       else columns df ++ [STOP_SEASON])
                   (map (fun r : row => set_cell r STOP_SEASON (VStr "default"))
                        (rows df))
                   (set_dtype (categories df) STOP_SEASON None)))
      as [df' [Hloop [_ [Hseason Hother]]]].
    + rewrite has_column_written, Hm. reflexivity.
    + rewrite has_column_written. apply orb_true_r.
    + exists df'. split; [exact Hloop|]. split.
      * rewrite Hseason. cbn [rows]. unfold column. rewrite !map_map.
        apply map_ext. intros r. apply season_fold.
      * intros c Hc. rewrite (Hother c Hc). now apply column_written_other.
  - intros z Hz.
    assert (Hcases : (z = 1 \/ z = 2 \/ z = 3 \/ z = 4 \/ z = 5 \/ z = 6 \/ z = 7
                      \/ z = 8 \/ z = 9 \/ z = 10 \/ z = 11 \/ z = 12)%Z) by lia.
    repeat (destruct Hcases as [->|Hcases]; [reflexivity|]). subst z. reflexivity.
  - intros z Hz. unfold season_of_month, SEASONS_MONTHS.
    assert (Hnot : forall l, Forall (fun a => (1 <= a <= 12)%Z) l ->
                     existsb (value_eqb (num z)) (map num l) = false).
    { intros l Hl. apply not_true_iff_false. intros H. apply in_months in H.
      apply in_map_iff in H as [a [E Ha]]. apply num_inj in E. subst a.
      rewrite Forall_forall in Hl. specialize (Hl z Ha). lia. }
    cbn [find snd].
    pose proof (Hnot [12; 1; 2]%Z) as Hw. pose proof (Hnot [3; 4; 5]%Z) as Hsp.
    pose proof (Hnot [6; 7; 8]%Z) as Hsu. pose proof (Hnot [9; 10; 11]%Z) as Hf.
    cbn [map] in Hw, Hsp, Hsu, Hf.
    rewrite Hw, Hsp, Hsu, Hf; [reflexivity | | | |]; repeat constructor; lia.
  - reflexivity.
Qed.

Lemma stop_season_by_month_witness :
  exists df',
    add_stop_season raw_stops = Ok df'
    /\ column df' STOP_SEASON = [VStr "winter"; VStr "summer"; VStr "fall"].
Proof.
  assert (Hm : has_column raw_stops MONTH_COL = true) by (vm_compute; reflexivity).
  destruct (stop_season_by_month raw_stops Hm) as [[df' [Hdf [Hseason _]]] _].
  exists df'. split; [exact Hdf|]. rewrite Hseason. vm_compute. reflexivity.
Defined.

(** ** The derived columns of the stops, stage by stage *)

Lemma add_stop_season_writes (df : DataFrame) :
  has_column df MONTH_COL = true ->
  exists df',
    add_stop_season df = Ok df'
    /\ writes df df' STOP_SEASON (map season_of_month (column df MONTH_COL)).
Proof.
  intros Hm. unfold add_stop_season, setitem_scalar.
  rewrite <- (map_constant (fun _ : row => VStr "default") (VStr "default")
                (rows df)) by reflexivity.
  rewrite (setitem_map df STOP_SEASON (fun _ => VStr "default")), bind_Ok.
  destruct (season_loop_Ok SEASONS_MONTHS
              (mkDF (if has_column df STOP_SEASON then columns df
                     else columns df ++ [STOP_SEASON])
                 (map (fun r : row => set_cell r STOP_SEASON (VStr "default"))
                      (rows df))
                 (set_dtype (categories df) STOP_SEASON None)))
    as [df' [Hloop [Hcols [Hseason Hother]]]].
  - rewrite has_column_written, Hm. reflexivity.
  - rewrite has_column_written. apply orb_true_r.
  - exists df'. split; [exact Hloop|].
    assert (Hcol : column df' STOP_SEASON = map season_of_month (column df MONTH_COL)).
    { rewrite Hseason. cbn [rows]. unfold column. rewrite !map_map.
      apply map_ext. intros r. apply season_fold. }
    unfold writes. split; [|split; [exact Hcol|split]].
    + intros c. unfold has_column at 1. rewrite Hcols.
      apply has_column_written with (rs := []) (d := plain).
    + intros c Hc. rewrite (Hother c Hc). now apply column_written_other.
    + apply (f_equal (@length value)) in Hcol. unfold column in Hcol.
      now rewrite !length_map in Hcol.
Qed.

Lemma add_age_category_writes (df : DataFrame) :
  has_column df DRIVER_AGE = true ->
  forallb is_age (column df DRIVER_AGE) = true ->
  exists df',
    add_age_category df = Ok df'
    /\ writes df df' AGE_CAT (map right_closed_bin (column df DRIVER_AGE)).
Proof.
  intros Hcol Hages. unfold add_age_category.
  rewrite (getitem_has _ _ Hcol), bind_Ok. cbv beta.
  fold (column df DRIVER_AGE).
  assert (Hcut : cut (column df DRIVER_AGE) AGE_BINS AGE_LABELS
                 = Ok (map right_closed_bin (column df DRIVER_AGE))).
  { unfold cut.
    replace (increasing AGE_BINS) with true by reflexivity.
    replace (length AGE_LABELS =? length AGE_BINS - 1)%nat with true by reflexivity.
    cbn [negb]. apply mapM_total, Forall_forall. intros v Hv.
    rewrite forallb_forall in Hages. now apply age_category_is_age, Hages. }
  rewrite Hcut, bind_Ok. unfold column. rewrite map_map.
  destruct (setitem_as_writes df AGE_CAT (fun r => right_closed_bin (r DRIVER_AGE))
              (Some (map VStr AGE_LABELS))) as [df' [Hset [Hw _]]].
  now exists df'.
Qed.

Lemma add_arrest_or_citation_writes (df : DataFrame) :
  has_column df STOP_OUTCOME = true ->
  exists df',
    add_arrest_or_citation df = Ok df'
    /\ writes df df' ARREST_CITATION
         (map (fun v => VBool (is_success v)) (column df STOP_OUTCOME)).
Proof.
  intros Hcol. unfold add_arrest_or_citation.
  rewrite (getitem_has _ _ Hcol), bind_Ok. unfold np_where, isin, column.
  rewrite !map_map.
  destruct (setitem_writes df ARREST_CITATION
              (fun r => VBool (is_success (r STOP_OUTCOME)))) as [df' [Hset Hw]].
  exists df'. split; [|exact Hw]. rewrite <- Hset. f_equal.
  apply map_ext. intros r. unfold is_success. now destruct (existsb _ _).
Qed.

Lemma fill_officer_id_writes (df : DataFrame) :
  has_column df OFFICER_ID = true ->
  exists df',
    fill_officer_id df = Ok df'
    /\ writes df df' OFFICER_ID
         (map (fun v => if is_null v then VStr "UNKNOWN" else v)
              (column df OFFICER_ID)).
Proof.
  intros Hcol. unfold fill_officer_id.
  rewrite (getitem_has _ _ Hcol), bind_Ok. unfold fillna, column.
  rewrite !map_map.
  apply (setitem_writes df OFFICER_ID
           (fun r => if is_null (r OFFICER_ID) then VStr "UNKNOWN" else r OFFICER_ID)).
Qed.

Lemma mark_categorical_Ok (cols : list string) (df : DataFrame) :
  forallb (has_column df) cols = true ->
  exists df',
    mark_categorical df cols = Ok df'
    /\ (forall c, has_column df' c = has_column df c)
    /\ (forall c, column df' c = column df c)
    /\ length (rows df') = length (rows df).
Proof.
  revert df; induction cols as [|i cols IH]; intros df Hall.
  - exists df. now repeat split.
  - cbn [forallb] in Hall. apply andb_prop in Hall as [Hi Hall].
    cbn [mark_categorical]. rewrite (getitem_has _ _ Hi), bind_Ok. cbv beta.
    destruct (setitem_as_writes df i (fun r => r i)
                (Some (astype_category (categories df i)
                         (map (fun r : row => r i) (rows df)))))
      as [df1 [Hset [[Hhas [Hsame [Hother Hlen]]] _]]].
    rewrite Hset, bind_Ok. cbv beta.
    assert (Hhas1 : forall c, has_column df1 c = has_column df c).
    { intros c. rewrite Hhas. destruct (String.eqb c i) eqn:E; [|apply orb_false_r].
      apply String.eqb_eq in E. subst c. now rewrite Hi. }
    destruct (IH df1) as [df' [Hmark [Hhas' [Hcol' Hlen']]]].
    { rewrite forallb_forall in Hall |- *. intros c Hc.
      rewrite Hhas1. now apply Hall. }
    exists df'. split; [exact Hmark|]. split; [|split].
    + intros c. now rewrite Hhas', Hhas1.
    + intros c. rewrite Hcol'. destruct (String.eqb c i) eqn:E.
      * apply String.eqb_eq in E. subst c. exact Hsame.
      * apply String.eqb_neq in E. now apply Hother.
    + now rewrite Hlen', Hlen.
Qed.

Lemma mark_categorical_missing (cols : list string) (df : DataFrame) (c : string) :
  In c cols -> has_column df c = false ->
  mark_categorical df cols = Raise KeyError.
Proof.
  revert df; induction cols as [|i cols IH]; intros df Hin Hc; [contradiction|].
  cbn [mark_categorical]. destruct (has_column df i) eqn:Hi.
  - rewrite (getitem_has _ _ Hi), bind_Ok. cbv beta.
    destruct (setitem_as_writes df i (fun r => r i)
                (Some (astype_category (categories df i)
                         (map (fun r : row => r i) (rows df)))))
      as [df1 [Hset [[Hhas _] _]]].
    rewrite Hset, bind_Ok. cbv beta.
    destruct (String.eqb c i) eqn:E.
    + apply String.eqb_eq in E. subst c. congruence.
    + apply IH.
      * destruct Hin as [->|Hin]; [|exact Hin].
        now rewrite String.eqb_refl in E.
      * now rewrite Hhas, Hc, E.
  - unfold getitem. now rewrite Hi.
Qed.

Lemma stop_outputs_has (df df1 df2 df3 df4 : DataFrame) :
  (forall c, has_column df1 c = has_column df c || String.eqb c STOP_SEASON) ->
  (forall c, has_column df2 c = has_column df1 c || String.eqb c AGE_CAT) ->
  (forall c, has_column df3 c = has_column df2 c || String.eqb c ARREST_CITATION) ->
  (forall c, has_column df4 c = has_column df3 c || String.eqb c OFFICER_ID) ->
  forall c, has_column df4 c = has_column df c || existsb (String.eqb c) stop_outputs.
Proof.
  intros H1 H2 H3 H4 c. rewrite H4, H3, H2, H1. unfold stop_outputs.
  cbn [existsb]. now rewrite <- !orb_assoc, orb_false_r.
Qed.

(** The derived columns of the stops.  On a table that has the columns
    the normaliser reads, with ages that are numbers or missing, lines
    74-88 return a table in which the season is the season of the month,
    the age category the right-closed bin of the age, the arrest-or-
    citation flag tells whether the outcome is "Arrest" or "Citation" (a
    missing outcome is neither), a missing officer is "UNKNOWN" and no
    officer cell is missing any more; every other column keeps its cells,
    the columns are those of the input and the four written ones, and no
    row is added or dropped. *)
Theorem derive_stop_columns_result (df : DataFrame) :
  forallb (has_column df) stop_inputs = true ->
  forallb is_age (column df DRIVER_AGE) = true ->
  exists df',
    derive_stop_columns df = Ok df'
    /\ column df' STOP_SEASON = map season_of_month (column df MONTH_COL)
    /\ column df' AGE_CAT = map right_closed_bin (column df DRIVER_AGE)
    /\ column df' ARREST_CITATION
       = map (fun v => VBool (is_success v)) (column df STOP_OUTCOME)
    /\ column df' OFFICER_ID
       = map (fun v => if is_null v then VStr "UNKNOWN" else v) (column df OFFICER_ID)
    /\ forallb (fun v => negb (is_null v)) (column df' OFFICER_ID) = true
    /\ (forall c, ~ In c stop_outputs -> column df' c = column df c)
    /\ (forall c, has_column df' c
                  = has_column df c || existsb (String.eqb c) stop_outputs)
    /\ length (rows df') = length (rows df).
Proof.
  intros Hreq Hages. unfold stop_inputs in Hreq. cbn [forallb] in Hreq.
  apply andb_prop in Hreq as [Hm Hreq]. apply andb_prop in Hreq as [Ha Hreq].
  apply andb_prop in Hreq as [Ho Hreq]. apply andb_prop in Hreq as [Hf Hreq].
  apply andb_prop in Hreq as [Hg Hreq]. apply andb_prop in Hreq as [Hr Hreq].
  apply andb_prop in Hreq as [Hv _].
  destruct (add_stop_season_writes df Hm) as [df1 [E1 [Hh1 [Hs1 [Ho1 Hl1]]]]].
  destruct (add_age_category_writes df1) as [df2 [E2 [Hh2 [Hs2 [Ho2 Hl2]]]]].
  { now rewrite Hh1, Ha. }
  { now rewrite Ho1 by discriminate. }
  destruct (add_arrest_or_citation_writes df2) as [df3 [E3 [Hh3 [Hs3 [Ho3 Hl3]]]]].
  { now rewrite Hh2, Hh1, Ho. }
  destruct (fill_officer_id_writes df3) as [df4 [E4 [Hh4 [Hs4 [Ho4 Hl4]]]]].
  { now rewrite Hh3, Hh2, Hh1, Hf. }
  pose proof (stop_outputs_has df df1 df2 df3 df4 Hh1 Hh2 Hh3 Hh4) as Hh.
  destruct (mark_categorical_Ok CATEGORICAL_COLS df4) as [df' [E5 [Hh5 [Hc5 Hl5]]]].
  { apply forallb_forall. intros c Hc. rewrite Hh. apply orb_true_iff.
    unfold CATEGORICAL_COLS in Hc. cbn [In] in Hc.
    destruct Hc as [<-|[<-|[<-|[<-|[<-|[<-|[]]]]]]];
      first [ left; assumption | right; reflexivity ]. }
  assert (Hofficer : column df' OFFICER_ID
            = map (fun v => if is_null v then VStr "UNKNOWN" else v)
                (column df OFFICER_ID)).
  { rewrite Hc5, Hs4, Ho3, Ho2, Ho1 by discriminate. reflexivity. }
  exists df'. unfold derive_stop_columns.
  rewrite E1, bind_Ok. cbv beta. rewrite E2, bind_Ok. cbv beta.
  rewrite E3, bind_Ok. cbv beta. rewrite E4, bind_Ok. cbv beta.
  split; [exact E5|]. split; [|split; [|split; [|split; [|split; [|split; [|split]]]]]].
  - rewrite Hc5, Ho4, Ho3, Ho2 by discriminate. exact Hs1.
  - rewrite Hc5, Ho4, Ho3, Hs2, Ho1 by discriminate. reflexivity.
  - rewrite Hc5, Ho4, Hs3, Ho2, Ho1 by discriminate. reflexivity.
  - exact Hofficer.
  - rewrite Hofficer, forallb_map. apply forallb_forall. intros v _.
    now destruct v.
  - intros c Hc. unfold stop_outputs in Hc. cbn [In] in Hc.
    rewrite Hc5, Ho4, Ho3, Ho2, Ho1; [reflexivity|..];
      intros ->; apply Hc; tauto.
  - intros c. now rewrite Hh5, Hh.
  - now rewrite Hl5, Hl4, Hl3, Hl2, Hl1.
Qed.

Lemma derive_stop_columns_result_witness :
  exists df',
    derive_stop_columns raw_stops = Ok df'
    /\ column df' AGE_CAT = [VStr "juvenile"; VNull; VStr "senior"]
    /\ column df' ARREST_CITATION = [VBool true; VBool false; VBool false]
    /\ column df' OFFICER_ID = [VStr "O1"; VStr "UNKNOWN"; VStr "O2"].
Proof.
  assert (Hreq : forallb (has_column raw_stops) stop_inputs = true)
    by (vm_compute; reflexivity).
  assert (Hages : forallb is_age (column raw_stops DRIVER_AGE) = true)
    by (vm_compute; reflexivity).
  destruct (derive_stop_columns_result raw_stops Hreq Hages)
    as [df' [Hdf [_ [Hage [Hflag [Hofficer _]]]]]].
  exists df'. split; [exact Hdf|]. split; [|split].
  - rewrite Hage. vm_compute. reflexivity.
  - rewrite Hflag. vm_compute. reflexivity.
  - rewrite Hofficer. vm_compute. reflexivity.
Defined.

(** A table that lacks one of the columns the normaliser reads never
    comes out of it: with ages that are numbers or missing, lines 74-88
    raise KeyError, whichever of the seven columns is the one that is not
    there. *)
Theorem derive_stop_columns_missing_column (df : DataFrame) (c : string) :
  In c stop_inputs ->
  has_column df c = false ->
  forallb is_age (column df DRIVER_AGE) = true ->
  derive_stop_columns df = Raise KeyError.
Proof.
  intros Hin Hc Hages. unfold derive_stop_columns.
  destruct (has_column df MONTH_COL) eqn:Hm.
  2:{ unfold add_stop_season, setitem_scalar.
      rewrite <- (map_constant (fun _ : row => VStr "default") (VStr "default")
                    (rows df)) by reflexivity.
      rewrite (setitem_map df STOP_SEASON (fun _ => VStr "default")), bind_Ok.
      cbv beta. unfold SEASONS_MONTHS. cbn [season_loop]. unfold getitem at 1.
      rewrite has_column_written, Hm. reflexivity. }
  destruct (add_stop_season_writes df Hm) as [df1 [E1 [Hh1 [Hs1 [Ho1 Hl1]]]]].
  rewrite E1, bind_Ok. cbv beta.
  destruct (has_column df DRIVER_AGE) eqn:Ha.
  2:{ unfold add_age_category, getitem. rewrite Hh1, Ha. reflexivity. }
  destruct (add_age_category_writes df1) as [df2 [E2 [Hh2 [Hs2 [Ho2 Hl2]]]]].
  { now rewrite Hh1, Ha. }
  { now rewrite Ho1 by discriminate. }
  rewrite E2, bind_Ok. cbv beta.
  destruct (has_column df STOP_OUTCOME) eqn:Ho.
  2:{ unfold add_arrest_or_citation, getitem. rewrite Hh2, Hh1, Ho. reflexivity. }
  destruct (add_arrest_or_citation_writes df2) as [df3 [E3 [Hh3 [Hs3 [Ho3 Hl3]]]]].
  { now rewrite Hh2, Hh1, Ho. }
  rewrite E3, bind_Ok. cbv beta.
  destruct (has_column df OFFICER_ID) eqn:Hf.
  2:{ unfold fill_officer_id, getitem. rewrite Hh3, Hh2, Hh1, Hf. reflexivity. }
  destruct (fill_officer_id_writes df3) as [df4 [E4 [Hh4 [Hs4 [Ho4 Hl4]]]]].
  { now rewrite Hh3, Hh2, Hh1, Hf. }
  rewrite E4, bind_Ok. cbv beta.
  pose proof (stop_outputs_has df df1 df2 df3 df4 Hh1 Hh2 Hh3 Hh4) as Hh.
  unfold stop_inputs in Hin. cbn [In] in Hin.
  destruct Hin as [<-|[<-|[<-|[<-|[<-|[<-|[<-|[]]]]]]]]; try congruence.
  - apply (mark_categorical_missing _ _ DRIVER_GENDER).
    + unfold CATEGORICAL_COLS. cbn [In]. tauto.
    + now rewrite Hh, Hc.
  - apply (mark_categorical_missing _ _ DRIVER_RACE).
    + unfold CATEGORICAL_COLS. cbn [In]. tauto.
    + now rewrite Hh, Hc.
  - apply (mark_categorical_missing _ _ VIOLATION).
    + unfold CATEGORICAL_COLS. cbn [In]. tauto.
    + now rewrite Hh, Hc.
Qed.

Lemma derive_stop_columns_missing_column_witness :
  derive_stop_columns stops_without_violation = Raise KeyError.
Proof.
  apply (derive_stop_columns_missing_column stops_without_violation VIOLATION).
  - unfold stop_inputs. cbn [In]. tauto.
  - vm_compute. reflexivity.
  - vm_compute. reflexivity.
Defined.

(** ** The searches *)

Lemma fill_cell_not_listed (d : list (string * value)) (c : string) (v : value) :
  ~ In c (map fst d) -> fill_cell d c v = v.
Proof.
  intros Hc. unfold fill_cell. destruct (is_null v); [|reflexivity].
  destruct (find _ d) as [e|] eqn:E; [|reflexivity].
  apply find_some in E as [He Heq]. apply String.eqb_eq in Heq.
  exfalso. apply Hc. subst c. now apply in_map.
Qed.

Lemma fill_cell_listed (d : list (string * value)) (c : string) (v : value) :
  In c (map fst d) -> proper_fills d = true -> is_null (fill_cell d c v) = false.
Proof.
  intros Hc Hd. unfold fill_cell. destruct (is_null v) eqn:Hv; [|exact Hv].
  destruct (find _ d) as [e|] eqn:E.
  - apply find_some in E as [He _]. unfold proper_fills in Hd.
    rewrite forallb_forall in Hd. apply Hd in He. now apply negb_true_iff in He.
  - apply in_map_iff in Hc as [e [<- He]].
    pose proof (find_none _ _ E e He) as Hn. cbv beta in Hn.
    now rewrite String.eqb_refl in Hn.
Qed.

Lemma fill_cell_twice (d : list (string * value)) (c : string) (v : value) :
  fill_cell d c (fill_cell d c v) = fill_cell d c v.
Proof.
  unfold fill_cell. destruct (is_null v) eqn:Hv; [|now rewrite Hv].
  destruct (find _ d) as [e|] eqn:E.
  - now destruct (is_null (snd e)).
  - now rewrite Hv.
Qed.

Lemma fill_loop_spec (d : list (string * value)) (df : DataFrame) :
  forallb (has_column df) (map fst d) = true ->
  NoDup (map fst d) ->
  exists df',
    fill_loop df d = Ok df'
    /\ (forall c, has_column df' c = has_column df c)
    /\ (forall c, column df' c = map (fill_cell d c) (column df c))
    /\ length (rows df') = length (rows df).
Proof.
  revert df; induction d as [|[key v] d IH]; intros df Hall Hnd.
  - exists df. split; [reflexivity|]. split; [reflexivity|]. split; [|reflexivity].
    intros c. rewrite <- (map_id (column df c)) at 1. apply map_ext.
    intros x. unfold fill_cell. cbn [find]. now destruct (is_null x).
  - cbn [map fst forallb] in Hall. apply andb_prop in Hall as [Hk Hall].
    cbn [map fst] in Hnd. apply NoDup_cons_iff in Hnd as [Hfresh Hnd].
    cbn [fill_loop]. rewrite (getitem_has _ _ Hk), bind_Ok. cbv beta.
    unfold fillna. rewrite map_map.
    destruct (setitem_writes df key (fun r => if is_null (r key) then v else r key))
      as [df1 [Hset [Hhas [Hsame [Hother Hlen]]]]].
    rewrite Hset, bind_Ok. cbv beta.
    assert (Hhas1 : forall c, has_column df1 c = has_column df c).
    { intros c. rewrite Hhas. destruct (String.eqb c key) eqn:E; [|apply orb_false_r].
      apply String.eqb_eq in E. subst c. now rewrite Hk. }
    destruct (IH df1) as [df' [Hloop [Hhas' [Hcol' Hlen']]]].
    { rewrite forallb_forall in Hall |- *. intros c Hc.
      rewrite Hhas1. now apply Hall. }
    { exact Hnd. }
    exists df'. split; [exact Hloop|]. split; [|split].
    + intros c. now rewrite Hhas', Hhas1.
    + intros c. rewrite Hcol'. destruct (String.eqb c key) eqn:E.
      * apply String.eqb_eq in E. subst c. rewrite Hsame.
        unfold column. rewrite !map_map. apply map_ext. intros r.
        rewrite (fill_cell_not_listed d key _ Hfresh).
        unfold fill_cell. cbn [find fst snd]. now rewrite String.eqb_refl.
      * rewrite Hother by now apply String.eqb_neq.
        apply map_ext. intros x. unfold fill_cell. cbn [find fst]. now rewrite E.
    + now rewrite Hlen', Hlen.
Qed.

Lemma fill_loop_missing (d : list (string * value)) (df : DataFrame) (key : string) :
  In key (map fst d) -> has_column df key = false ->
  fill_loop df d = Raise KeyError.
Proof.
  revert df; induction d as [|[k v] d IH]; intros df Hin Hkey; [contradiction|].
  cbn [fill_loop]. destruct (has_column df k) eqn:Hk.
  - rewrite (getitem_has _ _ Hk), bind_Ok. cbv beta.
    unfold fillna. rewrite map_map.
    destruct (setitem_writes df k (fun r => if is_null (r k) then v else r k))
      as [df1 [Hset [Hhas _]]].
    rewrite Hset, bind_Ok. cbv beta.
    destruct (String.eqb key k) eqn:E.
    + apply String.eqb_eq in E. subst key. congruence.
    + apply IH.
      * cbn [map fst In] in Hin. destruct Hin as [->|Hin]; [|exact Hin].
        now rewrite String.eqb_refl in E.
      * now rewrite Hhas, Hkey, E.
  - unfold getitem. now rewrite Hk.
Qed.

(** What the searches normaliser does to an existing file.  With a fill
    dictionary (the default one when none is given) whose keys are columns
    of the table and whose values are values proper, the function returns
    a table in which every missing cell of a listed column holds the value
    listed for that column, so that no listed column has a missing cell
    left, while the cells that were not missing and all the cells of the
    columns that are not listed are as read; the columns and the number of
    rows are those of the file. *)
Theorem read_and_process_searches_fills (df : DataFrame)
  (fill_na_dict : option (list (string * value))) :
  forallb (has_column df) (map fst (fill_dict_used fill_na_dict)) = true ->
  NoDup (map fst (fill_dict_used fill_na_dict)) ->
  proper_fills (fill_dict_used fill_na_dict) = true ->
  exists df',
    read_and_process_searches (Some df) fill_na_dict = Ok (Some df')
    /\ (forall c, column df' c
                  = map (fill_cell (fill_dict_used fill_na_dict) c) (column df c))
    /\ (forall key, In key (map fst (fill_dict_used fill_na_dict)) ->
                    forallb (fun v => negb (is_null v)) (column df' key) = true)
    /\ (forall c, ~ In c (map fst (fill_dict_used fill_na_dict)) ->
                  column df' c = column df c)
    /\ (forall c, has_column df' c = has_column df c)
    /\ length (rows df') = length (rows df).
Proof.
  intros Hall Hnd Hproper.
  destruct (fill_loop_spec _ df Hall Hnd) as [df' [Hloop [Hhas [Hcol Hlen]]]].
  exists df'. unfold read_and_process_searches.
  fold (fill_dict_used fill_na_dict). rewrite Hloop, bind_Ok.
  split; [reflexivity|]. split; [exact Hcol|]. split; [|split; [|split]].
  - intros key Hkey. rewrite Hcol, forallb_map. apply forallb_forall.
    intros v _. now rewrite fill_cell_listed.
  - intros c Hc. rewrite Hcol. rewrite <- (map_id (column df c)) at 2.
    apply map_ext. intros v. now apply fill_cell_not_listed.
  - exact Hhas.
  - exact Hlen.
Qed.

Lemma read_and_process_searches_fills_witness :
  exists df',
    read_and_process_searches (Some raw_searches) None = Ok (Some df')
    /\ column df' "drugs_related_stop" = [VBool true; VBool false]
    /\ column df' "search_basis" = [VStr "UNKNOWN"; VStr "Odor"]
    /\ column df' SEARCH_TYPE = [VStr "Probable Cause"; VNull].
Proof.
  assert (Hall : forallb (has_column raw_searches) (map fst (fill_dict_used None))
                 = true) by (vm_compute; reflexivity).
  assert (Hnd : NoDup (map fst (fill_dict_used None))).
  { cbn. repeat constructor; cbn; intuition discriminate. }
  assert (Hproper : proper_fills (fill_dict_used None) = true)
    by (vm_compute; reflexivity).
  destruct (read_and_process_searches_fills raw_searches None Hall Hnd Hproper)
    as [df' [Hdf [Hcol _]]].
  exists df'. split; [exact Hdf|]. split; [|split].
  - rewrite Hcol. vm_compute. reflexivity.
  - rewrite Hcol. vm_compute. reflexivity.
  - rewrite Hcol. vm_compute. reflexivity.
Defined.

(** Normalising the searches twice changes nothing the second time: fed
    its own result with the same dictionary, the function returns a table
    with the same cells in every column. *)
Theorem read_and_process_searches_idempotent (df df' : DataFrame)
  (fill_na_dict : option (list (string * value))) :
  NoDup (map fst (fill_dict_used fill_na_dict)) ->
  proper_fills (fill_dict_used fill_na_dict) = true ->
  read_and_process_searches (Some df) fill_na_dict = Ok (Some df') ->
  exists df'',
    read_and_process_searches (Some df') fill_na_dict = Ok (Some df'')
    /\ forall c, column df'' c = column df' c.
Proof.
  intros Hnd Hproper Hrun.
  destruct (forallb (has_column df) (map fst (fill_dict_used fill_na_dict))) eqn:Hall.
  - destruct (fill_loop_spec _ df Hall Hnd) as [df1 [Hloop [Hhas [Hcol Hlen]]]].
    unfold read_and_process_searches in Hrun.
    fold (fill_dict_used fill_na_dict) in Hrun. rewrite Hloop, bind_Ok in Hrun.
    injection Hrun as <-.
    destruct (fill_loop_spec (fill_dict_used fill_na_dict) df1)
      as [df2 [Hloop2 [Hhas2 [Hcol2 Hlen2]]]].
    { rewrite forallb_forall in Hall |- *. intros c Hc. rewrite Hhas.
      now apply Hall. }
    { exact Hnd. }
    exists df2. unfold read_and_process_searches.
    fold (fill_dict_used fill_na_dict). rewrite Hloop2, bind_Ok.
    split; [reflexivity|]. intros c. rewrite Hcol2, Hcol, map_map.
    apply map_ext. intros v. apply fill_cell_twice.
  - exfalso. assert (Hex : exists key, In key (map fst (fill_dict_used fill_na_dict))
                                       /\ has_column df key = false).
    { clear -Hall. induction (map fst (fill_dict_used fill_na_dict)) as [|k l IH];
        [discriminate|].
      cbn [forallb] in Hall. destruct (has_column df k) eqn:Hk.
      - destruct (IH Hall) as [key [Hin Hkey]]. exists key. split; [now right|exact Hkey].
      - exists k. split; [now left|exact Hk]. }
    destruct Hex as [key [Hin Hkey]].
    unfold read_and_process_searches in Hrun.
    fold (fill_dict_used fill_na_dict) in Hrun.
    now rewrite (fill_loop_missing _ df key Hin Hkey) in Hrun.
Qed.

Lemma read_and_process_searches_idempotent_witness :
  exists df' df'',
    read_and_process_searches (Some raw_searches) None = Ok (Some df')
    /\ read_and_process_searches (Some df') None = Ok (Some df'')
    /\ column df'' "search_basis" = [VStr "UNKNOWN"; VStr "Odor"].
Proof.
  assert (Hnd : NoDup (map fst (fill_dict_used None))).
  { cbn. repeat constructor; cbn; intuition discriminate. }
  assert (Hproper : proper_fills (fill_dict_used None) = true)
    by (vm_compute; reflexivity).
  eexists.
  assert (Hrun : read_and_process_searches (Some raw_searches) None = Ok (Some _))
    by (vm_compute; reflexivity).
  destruct (read_and_process_searches_idempotent _ _ None Hnd Hproper Hrun)
    as [df'' [Hrun' Hcol]].
  exists df''. split; [exact Hrun|]. split; [exact Hrun'|].
  rewrite Hcol. vm_compute. reflexivity.
Defined.

(** A fill dictionary that names a column the file does not have makes
    the searches normaliser raise KeyError, also when the dictionary is
    the default one; when the file does not exist the same dictionary does
    no harm, the function returning None before it looks at it. *)
Theorem read_and_process_searches_unknown_column (df : DataFrame)
  (fill_na_dict : option (list (string * value))) (key : string) :
  In key (map fst (fill_dict_used fill_na_dict)) ->
  has_column df key = false ->
  read_and_process_searches (Some df) fill_na_dict = Raise KeyError
  /\ read_and_process_searches None fill_na_dict = Ok None.
Proof.
  intros Hin Hkey. split; [|reflexivity].
  unfold read_and_process_searches. fold (fill_dict_used fill_na_dict).
  now rewrite (fill_loop_missing _ df key Hin Hkey).
Qed.

Lemma read_and_process_searches_unknown_column_witness :
  read_and_process_searches (Some searches_without_basis) None = Raise KeyError
  /\ read_and_process_searches None None = Ok None.
Proof.
  apply (read_and_process_searches_unknown_column searches_without_basis None
           "search_basis").
  - cbn. tauto.
  - vm_compute. reflexivity.
Defined.
